(** * GaugeMetricProducer: bucket engine, guardrail, pulls and report

    A shallow embedding of [GaugeMetricProducer.cpp] and of the parts of
    [MetricProducer.h] it relies on (statsd), followed by the properties of
    the bucket life cycle, the dimension guardrail, the pull paths, the
    anomaly hook and the report serializer.

    Conventions of the embedding.
    - [int64_t], [int] and [long] values are integers of [Z]; every
      arithmetic operation of the source on [int64_t] is written with its
      64-bit two's-complement wrap-around ([Int64.add], [Int64.sub], ...).
    - [size_t] quantities (container sizes, dimension limits) are [nat].
    - [std::unordered_map] is a [gmap]; a loop over such a map is a
      [map_fold].
    - The statistics sink, the anomaly trackers and the puller are the
      world the producer talks to: calls into the first two are recorded in
      logs, the answers of the puller are read from a queue. *)

From Stdlib Require Import ZArith Lia Bool List.
From stdpp Require Import base option countable relations gmap list strings.

Local Open Scope Z_scope.

(** ** 64-bit signed arithmetic *)

Module Int64.

Definition half : Z := 2 ^ 63.
Definition modulus : Z := 2 ^ 64.

Definition in_range (z : Z) : Prop := - half <= z < half.

(** Reduction of an integer to its two's-complement representative. *)
Definition wrap (z : Z) : Z := (z + half) mod modulus - half.

Definition add (a b : Z) : Z := wrap (a + b).
Definition sub (a b : Z) : Z := wrap (a - b).
Definition mul (a b : Z) : Z := wrap (a * b).
(** C++ division truncates towards zero. *)
Definition div (a b : Z) : Z := wrap (Z.quot a b).

End Int64.

(** ** Data model *)

(** [Field]: the atom tag and the encoded field path. *)
Definition Field : Type := Z * Z.
Definition getTag (f : Field) : Z := fst f.
Definition getField (f : Field) : Z := snd f.

(** [Matcher]: a field and a mask. *)
Definition Matcher : Type := Field * Z.

(** [Value]: the tagged union of FieldValue.h. Floating-point payloads are
    kept as their bit patterns; no arithmetic is done on them. *)
Inductive Value : Type :=
| UNKNOWN
| INT (int_value : Z)
| LONG (long_value : Z)
| FLOAT (float_bits : Z)
| DOUBLE (double_bits : Z)
| STRING (str_value : string)
| STORAGE (storage_value : list Z).

#[global] Instance Value_eq_dec : EqDecision Value.
Proof. solve_decision. Defined.

Definition Value_to_sum (v : Value) : unit + Z + Z + Z + Z + string + list Z :=
  match v with
  | UNKNOWN => inl (inl (inl (inl (inl (inl tt)))))
  | INT z => inl (inl (inl (inl (inl (inr z)))))
  | LONG z => inl (inl (inl (inl (inr z))))
  | FLOAT z => inl (inl (inl (inr z)))
  | DOUBLE z => inl (inl (inr z))
  | STRING s => inl (inr s)
  | STORAGE l => inr l
  end.

Definition Value_of_sum (x : unit + Z + Z + Z + Z + string + list Z) : Value :=
  match x with
  | inl (inl (inl (inl (inl (inl _))))) => UNKNOWN
  | inl (inl (inl (inl (inl (inr z))))) => INT z
  | inl (inl (inl (inl (inr z)))) => LONG z
  | inl (inl (inl (inr z))) => FLOAT z
  | inl (inl (inr z)) => DOUBLE z
  | inl (inr s) => STRING s
  | inr l => STORAGE l
  end.

#[global] Instance Value_countable : Countable Value.
Proof.
  refine (inj_countable' Value_to_sum Value_of_sum _).
  intros []; reflexivity.
Defined.

(** [FieldValue]: a field with its value. *)
Definition FieldValue : Type := Field * Value.
Definition mField (fv : FieldValue) : Field := fst fv.
Definition mValue (fv : FieldValue) : Value := snd fv.

(** [HashableDimensionKey] wraps a vector of field values;
    [MetricDimensionKey] pairs the dimension key in what with the state
    values key; [AtomDimensionKey] pairs an atom tag with the atom's field
    values. *)
Definition HashableDimensionKey : Type := list FieldValue.
Definition MetricDimensionKey : Type := HashableDimensionKey * HashableDimensionKey.
Definition getDimensionKeyInWhat (k : MetricDimensionKey) : HashableDimensionKey := fst k.
Definition getStateValuesKey (k : MetricDimensionKey) : HashableDimensionKey := snd k.
Definition AtomDimensionKey : Type := Z * HashableDimensionKey.

Record LogEvent : Type := mkLogEvent {
  GetTagId : Z;
  GetElapsedTimestampNs : Z;
  getValues : list FieldValue
}.

Definition setElapsedTimestampNs (timestampNs : Z) (e : LogEvent) : LogEvent :=
  {| GetTagId := GetTagId e;
     GetElapsedTimestampNs := timestampNs;
     getValues := getValues e |}.

(** [GaugeAtom]: the projected fields and the (truncated) timestamp. *)
Record GaugeAtom : Type := mkGaugeAtom {
  mFields : list FieldValue;
  mElapsedTimestampNs : Z
}.

Record GaugeBucket : Type := mkGaugeBucket {
  mBucketStartNs : Z;
  mBucketEndNs : Z;
  mAggregatedAtoms : gmap AtomDimensionKey (list Z)
}.

Inductive BucketDropReason : Type :=
| BUCKET_TOO_SMALL
| CONDITION_UNKNOWN
| PULL_FAILED
| PULL_TOO_LATE
| EVENT_TOO_OLD
| DIMENSION_GUARDRAIL
| NO_DATA
| CONFIG_UPDATED.

Record DropEvent : Type := mkDropEvent {
  reason : BucketDropReason;
  dropTimeNs : Z
}.

Record SkippedBucket : Type := mkSkippedBucket {
  bucketStartTimeNs : Z;
  bucketEndTimeNs : Z;
  dropEvents : list DropEvent
}.

(** [SkippedBucket::reset]. *)
Definition SkippedBucket_reset : SkippedBucket :=
  {| bucketStartTimeNs := 0; bucketEndTimeNs := 0; dropEvents := [] |}.

Inductive ConditionState : Type := kUnknown | kFalse | kTrue.

Definition isTrue (c : ConditionState) : bool :=
  match c with kTrue => true | _ => false end.

Inductive MatchingState : Type := kNotComputed | kNotMatched | kMatched.

(** The sampling types the producer switches on; [OTHER_SAMPLING_TYPE]
    stands for any enumerator that reaches the [default] label. *)
Inductive SamplingType : Type :=
| RANDOM_ONE_SAMPLE
| CONDITION_CHANGE_TO_TRUE
| FIRST_N_SAMPLES
| OTHER_SAMPLING_TYPE.

Definition isRandomOneSample (t : SamplingType) : bool :=
  match t with RANDOM_ONE_SAMPLE => true | _ => false end.

Inductive PullResult : Type := PULL_RESULT_SUCCESS | PULL_RESULT_FAIL | PULL_NOT_NEEDED.

Definition isPullSuccess (r : PullResult) : bool :=
  match r with PULL_RESULT_SUCCESS => true | _ => false end.

(** ** Configuration, collaborators and state *)

(** The members fixed by the constructor. [isRandomNSamples] is the value
    of the inline predicate of that name, a function of the configuration
    declared in the producer's header. *)
Record Config : Type := mkConfig {
  mMetricId : Z;
  mTimeBaseNs : Z;
  mBucketSizeNs : Z;
  mMinBucketSizeNs : Z;
  mWhatMatcherIndex : Z;
  mPullTagId : Z;
  mTriggerAtomId : Z;
  mAtomId : Z;
  mSamplingType : SamplingType;
  isRandomNSamples : bool;
  mMaxPullDelayNs : Z;
  mDimensionSoftLimit : nat;
  mDimensionHardLimit : nat;
  mGaugeAtomsPerDimensionLimit : nat;
  mSamplingPercentage : Z;
  mFieldMatchers : list Matcher;
  mDimensionsInWhat : list Matcher;
  mShouldUseNestedDimensions : bool;
  mConditionSliced : bool
}.

Definition mIsPulled (cfg : Config) : bool := negb (mPullTagId cfg =? -1).

(** Helpers of other translation units, taken as parameters of the
    development: the event matcher wizard, the field matcher and filter of
    the field-value model, the timestamp truncation, the sampling gate of
    push events, and what the base class extracts from an event before it
    calls the producer (the dimension keys and, for a sliced condition, the
    verdict of the condition wizard). *)
Record Collaborators : Type := mkCollaborators {
  matchLogEvent : LogEvent -> Z -> MatchingState * option LogEvent;
  matches : Field -> Matcher -> bool;
  filterGaugeValues : list Matcher -> list FieldValue -> list FieldValue;
  truncateTimestampIfNecessary : LogEvent -> Z;
  shouldKeepRandomSample : Z -> LogEvent -> bool;
  dimensionKeysOf : LogEvent -> list MetricDimensionKey;
  queryCondition : LogEvent -> ConditionState
}.

(** Calls into the statistics sink ([StatsdStats::getInstance()]). *)
Inductive StatsdStatsCall : Type :=
| notePullDelay (pullTagId : Z) (pullDelayNs : Z)
| notePullExceedMaxDelay (pullTagId : Z)
| noteMetricDimensionSize (metricId : Z) (newTupleCount : nat)
| noteHardDimensionLimitReached (metricId : Z)
| noteBucketDropped (metricId : Z)
| noteBucketCount (metricId : Z).

(** Calls into the attached anomaly trackers; a tracker is named by its
    position in [mAnomalyTrackers]. *)
Inductive AnomalyCall : Type :=
| detectAndDeclareAnomaly (tracker : nat) (eventTimeNs : Z) (bucketNum : Z)
    (metricId : Z) (key : MetricDimensionKey) (gaugeVal : Z)
| addPastBucket (tracker : nat) (bucket : gmap MetricDimensionKey Z) (bucketNum : Z).

(** One answer of [StatsPullerManager::Pull]: whether it succeeded, the
    data it returned, and the value [getElapsedRealtimeNs()] has when the
    producer reads the clock after the pull. *)
Record PullAnswer : Type := mkPullAnswer {
  pullSucceeded : bool;
  pulledData : list LogEvent;
  elapsedRealtimeAfterPull : Z
}.

(** The world outside the producer: the logs of the calls made so far, and
    the answers the puller will give to the next pulls, in order. A pull
    issued when no answer is left fails. *)
Record World : Type := mkWorld {
  statsdStats : list StatsdStatsCall;
  anomalyCalls : list AnomalyCall;
  pullerCalls : list (Z * Z);
  pullerAnswers : list PullAnswer
}.

(** The mutable members of the producer, with the world. *)
Record Producer : Type := mkProducer {
  mCurrentBucketStartTimeNs : Z;
  mCurrentBucketNum : Z;
  mCondition : ConditionState;
  mIsActive : bool;
  mAnomalyTrackers : nat;
  mCurrentSlicedBucket : gmap MetricDimensionKey (list GaugeAtom);
  mCurrentSlicedBucketForAnomaly : gmap MetricDimensionKey Z;
  mPastBuckets : gmap MetricDimensionKey (list GaugeBucket);
  mCurrentSkippedBucket : SkippedBucket;
  mSkippedBuckets : list SkippedBucket;
  mHasHitGuardrail : bool;
  mDimensionGuardrailHit : bool;
  world : World
}.

Definition set_mCurrentBucketStartTimeNs (v : Z) (p : Producer) : Producer :=
  mkProducer v (mCurrentBucketNum p) (mCondition p) (mIsActive p)
    (mAnomalyTrackers p) (mCurrentSlicedBucket p)
    (mCurrentSlicedBucketForAnomaly p) (mPastBuckets p)
    (mCurrentSkippedBucket p) (mSkippedBuckets p) (mHasHitGuardrail p)
    (mDimensionGuardrailHit p) (world p).

Definition set_mCurrentBucketNum (v : Z) (p : Producer) : Producer :=
  mkProducer (mCurrentBucketStartTimeNs p) v (mCondition p) (mIsActive p)
    (mAnomalyTrackers p) (mCurrentSlicedBucket p)
    (mCurrentSlicedBucketForAnomaly p) (mPastBuckets p)
    (mCurrentSkippedBucket p) (mSkippedBuckets p) (mHasHitGuardrail p)
    (mDimensionGuardrailHit p) (world p).

Definition set_mCondition (v : ConditionState) (p : Producer) : Producer :=
  mkProducer (mCurrentBucketStartTimeNs p) (mCurrentBucketNum p) v (mIsActive p)
    (mAnomalyTrackers p) (mCurrentSlicedBucket p)
    (mCurrentSlicedBucketForAnomaly p) (mPastBuckets p)
    (mCurrentSkippedBucket p) (mSkippedBuckets p) (mHasHitGuardrail p)
    (mDimensionGuardrailHit p) (world p).

Definition set_mIsActive (v : bool) (p : Producer) : Producer :=
  mkProducer (mCurrentBucketStartTimeNs p) (mCurrentBucketNum p) (mCondition p) v
    (mAnomalyTrackers p) (mCurrentSlicedBucket p)
    (mCurrentSlicedBucketForAnomaly p) (mPastBuckets p)
    (mCurrentSkippedBucket p) (mSkippedBuckets p) (mHasHitGuardrail p)
    (mDimensionGuardrailHit p) (world p).

Definition set_mAnomalyTrackers (v : nat) (p : Producer) : Producer :=
  mkProducer (mCurrentBucketStartTimeNs p) (mCurrentBucketNum p) (mCondition p)
    (mIsActive p) v (mCurrentSlicedBucket p)
    (mCurrentSlicedBucketForAnomaly p) (mPastBuckets p)
    (mCurrentSkippedBucket p) (mSkippedBuckets p) (mHasHitGuardrail p)
    (mDimensionGuardrailHit p) (world p).

Definition set_mCurrentSlicedBucket (v : gmap MetricDimensionKey (list GaugeAtom))
    (p : Producer) : Producer :=
  mkProducer (mCurrentBucketStartTimeNs p) (mCurrentBucketNum p) (mCondition p)
    (mIsActive p) (mAnomalyTrackers p) v
    (mCurrentSlicedBucketForAnomaly p) (mPastBuckets p)
    (mCurrentSkippedBucket p) (mSkippedBuckets p) (mHasHitGuardrail p)
    (mDimensionGuardrailHit p) (world p).

Definition set_mCurrentSlicedBucketForAnomaly (v : gmap MetricDimensionKey Z)
    (p : Producer) : Producer :=
  mkProducer (mCurrentBucketStartTimeNs p) (mCurrentBucketNum p) (mCondition p)
    (mIsActive p) (mAnomalyTrackers p) (mCurrentSlicedBucket p)
    v (mPastBuckets p)
    (mCurrentSkippedBucket p) (mSkippedBuckets p) (mHasHitGuardrail p)
    (mDimensionGuardrailHit p) (world p).

Definition set_mPastBuckets (v : gmap MetricDimensionKey (list GaugeBucket))
    (p : Producer) : Producer :=
  mkProducer (mCurrentBucketStartTimeNs p) (mCurrentBucketNum p) (mCondition p)
    (mIsActive p) (mAnomalyTrackers p) (mCurrentSlicedBucket p)
    (mCurrentSlicedBucketForAnomaly p) v
    (mCurrentSkippedBucket p) (mSkippedBuckets p) (mHasHitGuardrail p)
    (mDimensionGuardrailHit p) (world p).

Definition set_mCurrentSkippedBucket (v : SkippedBucket) (p : Producer) : Producer :=
  mkProducer (mCurrentBucketStartTimeNs p) (mCurrentBucketNum p) (mCondition p)
    (mIsActive p) (mAnomalyTrackers p) (mCurrentSlicedBucket p)
    (mCurrentSlicedBucketForAnomaly p) (mPastBuckets p)
    v (mSkippedBuckets p) (mHasHitGuardrail p)
    (mDimensionGuardrailHit p) (world p).

Definition set_mSkippedBuckets (v : list SkippedBucket) (p : Producer) : Producer :=
  mkProducer (mCurrentBucketStartTimeNs p) (mCurrentBucketNum p) (mCondition p)
    (mIsActive p) (mAnomalyTrackers p) (mCurrentSlicedBucket p)
    (mCurrentSlicedBucketForAnomaly p) (mPastBuckets p)
    (mCurrentSkippedBucket p) v (mHasHitGuardrail p)
    (mDimensionGuardrailHit p) (world p).

Definition set_mHasHitGuardrail (v : bool) (p : Producer) : Producer :=
  mkProducer (mCurrentBucketStartTimeNs p) (mCurrentBucketNum p) (mCondition p)
    (mIsActive p) (mAnomalyTrackers p) (mCurrentSlicedBucket p)
    (mCurrentSlicedBucketForAnomaly p) (mPastBuckets p)
    (mCurrentSkippedBucket p) (mSkippedBuckets p) v
    (mDimensionGuardrailHit p) (world p).

Definition set_mDimensionGuardrailHit (v : bool) (p : Producer) : Producer :=
  mkProducer (mCurrentBucketStartTimeNs p) (mCurrentBucketNum p) (mCondition p)
    (mIsActive p) (mAnomalyTrackers p) (mCurrentSlicedBucket p)
    (mCurrentSlicedBucketForAnomaly p) (mPastBuckets p)
    (mCurrentSkippedBucket p) (mSkippedBuckets p) (mHasHitGuardrail p)
    v (world p).

Definition set_world (v : World) (p : Producer) : Producer :=
  mkProducer (mCurrentBucketStartTimeNs p) (mCurrentBucketNum p) (mCondition p)
    (mIsActive p) (mAnomalyTrackers p) (mCurrentSlicedBucket p)
    (mCurrentSlicedBucketForAnomaly p) (mPastBuckets p)
    (mCurrentSkippedBucket p) (mSkippedBuckets p) (mHasHitGuardrail p)
    (mDimensionGuardrailHit p) v.

(** A call into the statistics sink, an anomaly tracker or the puller
    manager appends to the corresponding log. *)
Definition note (c : StatsdStatsCall) (p : Producer) : Producer :=
  set_world (mkWorld (statsdStats (world p) ++ [c]) (anomalyCalls (world p))
                     (pullerCalls (world p)) (pullerAnswers (world p))) p.

Definition tellTrackers (cs : list AnomalyCall) (p : Producer) : Producer :=
  set_world (mkWorld (statsdStats (world p)) (anomalyCalls (world p) ++ cs)
                     (pullerCalls (world p)) (pullerAnswers (world p))) p.

(** [mPullerManager->Pull(tag, key, timestampNs, &allData)]: the call is
    logged and the next answer of the puller is consumed. *)
Definition Pull (pullTagId timestampNs : Z) (p : Producer)
    : option PullAnswer * Producer :=
  let w := world p in
  let calls := pullerCalls w ++ [(pullTagId, timestampNs)] in
  match pullerAnswers w with
  | [] => (None, set_world (mkWorld (statsdStats w) (anomalyCalls w) calls []) p)
  | a :: rest =>
      (Some a, set_world (mkWorld (statsdStats w) (anomalyCalls w) calls rest) p)
  end.

(** ** Helpers declared in MetricProducer.h and stats_log_util.h *)

(** Modelled from the spec: [buildDropEvent] (defined in MetricProducer.cpp)
    pairs the reason with the drop time. *)
Definition buildDropEvent (dropTimeNs : Z) (reason : BucketDropReason) : DropEvent :=
  {| reason := reason; dropTimeNs := dropTimeNs |}.

(** Modelled from the spec: [maxDropEventsReached] (defined in
    MetricProducer.cpp) holds when the drop events of the current skipped
    bucket are at the cap, which the header gives as 10. *)
Definition kMaxLoggedBucketDropEvents : nat := 10.

Definition maxDropEventsReached (p : Producer) : bool :=
  (kMaxLoggedBucketDropEvents <=? length (dropEvents (mCurrentSkippedBucket p)))%nat.

(** Modelled from the spec: [NanoToMillis] (stats_log_util) truncates
    nanoseconds to milliseconds. *)
Definition NanoToMillis (nanos : Z) : Z := Int64.div nanos 1000000.

(** ** The operations of the producer *)

Section Operations.

Context (cfg : Config) (env : Collaborators).

(** *** MetricProducer.h *)

Definition getCurrentBucketEndTimeNs (p : Producer) : Z :=
  Int64.add (mTimeBaseNs cfg)
            (Int64.mul (Int64.add (mCurrentBucketNum p) 1) (mBucketSizeNs cfg)).

Definition getBucketNumFromEndTimeNs (endNs : Z) : Z :=
  Int64.sub (Int64.div (Int64.sub endNs (mTimeBaseNs cfg)) (mBucketSizeNs cfg)) 1.

(** *** Flushing *)

(** The inner loop of [flushCurrentBucketLocked]: every atom of a slice
    adds its timestamp to the entry of its [AtomDimensionKey]. *)
Definition aggregateAtom (m : gmap AtomDimensionKey (list Z)) (atom : GaugeAtom)
    : gmap AtomDimensionKey (list Z) :=
  let key : AtomDimensionKey := (mAtomId cfg, mFields atom) in
  <[key := default [] (m !! key) ++ [mElapsedTimestampNs atom]]> m.

Definition aggregateAtoms (atoms : list GaugeAtom) : gmap AtomDimensionKey (list Z) :=
  fold_left aggregateAtom atoms ∅.

(** One iteration of the outer loop: the bucket of the slice is pushed
    to the back of [mPastBuckets[slice.first]]. *)
Definition pushPastBucket (startNs endNs : Z)
    (key : MetricDimensionKey) (atoms : list GaugeAtom)
    (past : gmap MetricDimensionKey (list GaugeBucket))
    : gmap MetricDimensionKey (list GaugeBucket) :=
  let info := {| mBucketStartNs := startNs; mBucketEndNs := endNs;
                 mAggregatedAtoms := aggregateAtoms atoms |} in
  <[key := default [] (past !! key) ++ [info]]> past.

(** The value the anomaly trackers see for a field value. *)
Definition gaugeValOf (value : Value) : Z :=
  match value with
  | INT int_value => int_value
  | LONG long_value => long_value
  | _ => 0
  end.

(** [updateCurrentSlicedBucketForAnomaly]. The source takes the first
    field of the first atom of every non-empty slice; it is undefined on
    an atom without fields, where the model takes the value 0. *)
Definition updateCurrentSlicedBucketForAnomaly (p : Producer) : Producer :=
  set_mCurrentSlicedBucketForAnomaly
    (map_fold
       (fun key atoms (acc : gmap MetricDimensionKey Z) =>
          match atoms with
          | [] => acc
          | atom :: _ =>
              let gaugeVal :=
                match mFields atom with
                | [] => 0
                | fv :: _ => gaugeValOf (mValue fv)
                end in
              <[key := gaugeVal]> acc
          end)
       (mCurrentSlicedBucketForAnomaly p) (mCurrentSlicedBucket p)) p.

Definition flushCurrentBucketLocked (p : Producer)
    (eventTimeNs nextBucketStartTimeNs : Z) : Producer :=
  let fullBucketEndTimeNs := getCurrentBucketEndTimeNs p in
  let bucketEndTime :=
    if eventTimeNs <? fullBucketEndTimeNs then eventTimeNs else fullBucketEndTimeNs in
  let isBucketLargeEnough :=
    mMinBucketSizeNs cfg <=? Int64.sub bucketEndTime (mCurrentBucketStartTimeNs p) in
  let p1 :=
    if isBucketLargeEnough then
      set_mPastBuckets
        (map_fold (pushPastBucket (mCurrentBucketStartTimeNs p) bucketEndTime)
                  (mPastBuckets p) (mCurrentSlicedBucket p)) p
    else if mIsActive p then
      let skipped :=
        {| bucketStartTimeNs := mCurrentBucketStartTimeNs p;
           bucketEndTimeNs := bucketEndTime;
           dropEvents :=
             if maxDropEventsReached p
             then dropEvents (mCurrentSkippedBucket p)
             else dropEvents (mCurrentSkippedBucket p)
                    ++ [buildDropEvent eventTimeNs BUCKET_TOO_SMALL] |} in
      set_mSkippedBuckets (mSkippedBuckets p ++ [skipped])
        (set_mCurrentSkippedBucket skipped p)
    else p in
  let p2 :=
    if (0 <? mAnomalyTrackers p1)%nat then
      let q := updateCurrentSlicedBucketForAnomaly p1 in
      if fullBucketEndTimeNs <? eventTimeNs then
        set_mCurrentSlicedBucketForAnomaly ∅
          (tellTrackers
             (map (fun tracker =>
                     addPastBucket tracker (mCurrentSlicedBucketForAnomaly q)
                                   (mCurrentBucketNum q))
                  (seq 0 (mAnomalyTrackers q))) q)
      else q
    else p1 in
  set_mHasHitGuardrail false
    (set_mCurrentSkippedBucket SkippedBucket_reset
       (set_mCurrentBucketStartTimeNs nextBucketStartTimeNs
          (set_mCurrentSlicedBucket ∅
             (note (noteBucketCount (mMetricId cfg)) p2)))).

Definition flushIfNeededLocked (p : Producer) (eventTimeNs : Z) : Producer :=
  let currentBucketEndTimeNs := getCurrentBucketEndTimeNs p in
  if eventTimeNs <? currentBucketEndTimeNs then p
  else
    let numBucketsForward :=
      Int64.add 1 (Int64.div (Int64.sub eventTimeNs currentBucketEndTimeNs)
                             (mBucketSizeNs cfg)) in
    let nextBucketNs :=
      Int64.add currentBucketEndTimeNs
                (Int64.mul (Int64.sub numBucketsForward 1) (mBucketSizeNs cfg)) in
    let q := flushCurrentBucketLocked p eventTimeNs nextBucketNs in
    set_mCurrentBucketNum (Int64.add (mCurrentBucketNum q) numBucketsForward) q.

(** [MetricProducer::flushLocked]. *)
Definition flushLocked (p : Producer) (eventTimeNs : Z) : Producer :=
  flushCurrentBucketLocked (flushIfNeededLocked p eventTimeNs) eventTimeNs eventTimeNs.

Definition clearPastBucketsLocked (p : Producer) (dumpTimeNs : Z) : Producer :=
  set_mSkippedBuckets [] (set_mPastBuckets ∅ (flushIfNeededLocked p dumpTimeNs)).

Definition dropDataLocked (p : Producer) (dropTimeNs : Z) : Producer :=
  set_mPastBuckets ∅
    (note (noteBucketDropped (mMetricId cfg)) (flushIfNeededLocked p dropTimeNs)).

(** *** The dimension guardrail *)

Definition hitGuardRailLocked (p : Producer) (newKey : MetricDimensionKey)
    : bool * Producer :=
  if decide (is_Some (mCurrentSlicedBucket p !! newKey)) then (false, p)
  else if (mDimensionSoftLimit cfg <=? size (mCurrentSlicedBucket p))%nat then
    let newTupleCount := (size (mCurrentSlicedBucket p) + 1)%nat in
    let p1 := note (noteMetricDimensionSize (mMetricId cfg) newTupleCount) p in
    if (mDimensionHardLimit cfg <? newTupleCount)%nat then
      (true,
       note (noteHardDimensionLimitReached (mMetricId cfg))
         (set_mDimensionGuardrailHit true (set_mHasHitGuardrail true p1)))
    else (false, p1)
  else (false, p).

(** *** The append path *)

Definition getGaugeFields (event : LogEvent) : list FieldValue :=
  let gaugeFields :=
    if (0 <? length (mFieldMatchers cfg))%nat
    then filterGaugeValues env (mFieldMatchers cfg) (getValues event)
    else getValues event in
  fold_left
    (fun fields field =>
       List.filter (fun it => negb (matches env (mField it) field)) fields)
    (mDimensionsInWhat cfg) gaugeFields.

(** The calls of the last block of the append path. *)
Definition anomalyCallsOnAppend (p : Producer) (eventTimeNs : Z)
    (eventKey : MetricDimensionKey) (gaugeAtom : GaugeAtom) : list AnomalyCall :=
  if (0 <? mAnomalyTrackers p)%nat then
    match mFields gaugeAtom with
    | [fv] =>
        map (fun tracker =>
               detectAndDeclareAnomaly tracker eventTimeNs (mCurrentBucketNum p)
                 (mMetricId cfg) eventKey (gaugeValOf (mValue fv)))
            (seq 0 (mAnomalyTrackers p))
    | _ => []
    end
  else [].

(** [onMatchedLogEventInternalLocked]. The recursive call into
    [pullAndMatchEventsLocked] for a trigger atom is the parameter
    [pullAndMatch]; the knot is tied below. *)
Definition onMatchedLogEventInternalLocked
    (pullAndMatch : Producer -> Z -> Producer)
    (p : Producer) (eventKey : MetricDimensionKey) (condition : bool)
    (event : LogEvent) : Producer :=
  if negb condition then p
  else if (mPullTagId cfg =? -1) && (mSamplingPercentage cfg <? 100)
          && negb (shouldKeepRandomSample env (mSamplingPercentage cfg) event)
  then p
  else
    let eventTimeNs := GetElapsedTimestampNs event in
    if eventTimeNs <? mCurrentBucketStartTimeNs p then p
    else
      let p1 := flushIfNeededLocked p eventTimeNs in
      if mTriggerAtomId cfg =? GetTagId event then pullAndMatch p1 eventTimeNs
      else if bool_decide (is_Some (mCurrentSlicedBucket p1 !! eventKey))
              && isRandomOneSample (mSamplingType cfg)
      then p1
      else
        let '(hit, p2) := hitGuardRailLocked p1 eventKey in
        if hit then p2
        else
          (* operator[] creates the entry of [eventKey] when it is absent *)
          let atoms := default [] (mCurrentSlicedBucket p2 !! eventKey) in
          let p3 :=
            set_mCurrentSlicedBucket (<[eventKey := atoms]> (mCurrentSlicedBucket p2)) p2 in
          if (mGaugeAtomsPerDimensionLimit cfg <=? length atoms)%nat then p3
          else
            let gaugeAtom :=
              {| mFields := getGaugeFields event;
                 mElapsedTimestampNs := truncateTimestampIfNecessary env event |} in
            let p4 :=
              set_mCurrentSlicedBucket
                (<[eventKey := atoms ++ [gaugeAtom]]> (mCurrentSlicedBucket p3)) p3 in
            tellTrackers (anomalyCallsOnAppend p4 eventTimeNs eventKey gaugeAtom) p4.

(** Modelled from the spec: [MetricProducer::onMatchedLogEventLocked]
    (defined in MetricProducer.cpp). An inactive producer ignores the
    event; otherwise the append path runs for every dimension key
    extracted from the event, with the producer's condition, or with the
    verdict of the condition wizard when the condition is sliced. *)
Definition onMatchedLogEventLocked
    (pullAndMatch : Producer -> Z -> Producer)
    (p : Producer) (event : LogEvent) : Producer :=
  if negb (mIsActive p) then p
  else
    let condition :=
      if mConditionSliced cfg then isTrue (queryCondition env event)
      else isTrue (mCondition p) in
    fold_left
      (fun q eventKey =>
         onMatchedLogEventInternalLocked pullAndMatch q eventKey condition event)
      (dimensionKeysOf env event) p.

(** *** Pulling *)

Definition triggerPuller (p : Producer) : bool :=
  match mSamplingType cfg with
  | RANDOM_ONE_SAMPLE => bool_decide (mCurrentSlicedBucket p = ∅)
  | CONDITION_CHANGE_TO_TRUE | FIRST_N_SAMPLES => true
  | OTHER_SAMPLING_TYPE => false
  end.

(** The matching loop shared by both pull paths; [stamp] is the
    timestamp the synchronous path sets on its local copy. *)
Definition matchAndAppend (pullAndMatch : Producer -> Z -> Producer)
    (stamp : option Z) (allData : list LogEvent) (p : Producer) : Producer :=
  fold_left
    (fun q data =>
       let '(matchResult, transformedEvent) :=
         matchLogEvent env data (mWhatMatcherIndex cfg) in
       match matchResult with
       | kMatched =>
           let localCopy := default data transformedEvent in
           let localCopy :=
             match stamp with
             | Some timestampNs => setElapsedTimestampNs timestampNs localCopy
             | None => localCopy
             end in
           onMatchedLogEventLocked pullAndMatch q localCopy
       | _ => q
       end)
    allData p.

(** The body of [pullAndMatchEventsLocked], with the pulls issued while
    the pulled data is appended delegated to [self]. *)
Definition pullAndMatchEventsBody (self : Producer -> Z -> Producer)
    (p : Producer) (timestampNs : Z) : Producer :=
  if negb (triggerPuller p) then p
  else
    match Pull (mPullTagId cfg) timestampNs p with
    | (None, p1) => p1
    | (Some answer, p1) =>
        if negb (pullSucceeded answer) then p1
        else
          let pullDelayNs := Int64.sub (elapsedRealtimeAfterPull answer) timestampNs in
          let p2 := note (notePullDelay (mPullTagId cfg) pullDelayNs) p1 in
          if mMaxPullDelayNs cfg <? pullDelayNs then
            note (notePullExceedMaxDelay (mPullTagId cfg)) p2
          else matchAndAppend self (Some timestampNs) (pulledData answer) p2
    end.

(** Every pull consumes an answer of the puller and fails once none is
    left, so the nesting of pulls is bounded by the number of answers. *)
Fixpoint pullAndMatchEventsFuel (fuel : nat) (p : Producer) (timestampNs : Z)
    : Producer :=
  match fuel with
  | O => p
  | S fuel' => pullAndMatchEventsBody (pullAndMatchEventsFuel fuel') p timestampNs
  end.

Definition pullAndMatchEventsLocked (p : Producer) (timestampNs : Z) : Producer :=
  pullAndMatchEventsFuel (S (length (pullerAnswers (world p)))) p timestampNs.

(** *** Condition, activation and asynchronous pulls *)

Definition prepareFirstBucketLocked (p : Producer) : Producer :=
  if isTrue (mCondition p) && mIsActive p && mIsPulled cfg && isRandomNSamples cfg
  then pullAndMatchEventsLocked p (mCurrentBucketStartTimeNs p)
  else p.

Definition onActiveStateChangedLocked (p : Producer) (eventTimeNs : Z)
    (isActive : bool) : Producer :=
  (* MetricProducer::onActiveStateChangedLocked *)
  let p1 := if negb isActive then flushLocked p eventTimeNs else p in
  if negb (isTrue (mCondition p1)) then p1
  else if isActive && mIsPulled cfg && isRandomNSamples cfg
  then pullAndMatchEventsLocked p1 eventTimeNs
  else p1.

Definition onConditionChangedLocked (p : Producer) (conditionMet : bool)
    (eventTimeNs : Z) : Producer :=
  let p1 := set_mCondition (if conditionMet then kTrue else kFalse) p in
  if negb (mIsActive p1) then p1
  else
    let p2 := flushIfNeededLocked p1 eventTimeNs in
    if conditionMet && mIsPulled cfg
       && (isRandomNSamples cfg
           || match mSamplingType cfg with
              | CONDITION_CHANGE_TO_TRUE => true
              | _ => false
              end)
    then pullAndMatchEventsLocked p2 eventTimeNs
    else p2.

Definition onSlicedConditionMayChangeLocked (p : Producer)
    (overallCondition : bool) (eventTimeNs : Z) : Producer :=
  let p1 := set_mCondition (if overallCondition then kTrue else kFalse) p in
  if negb (mIsActive p1) then p1
  else
    let p2 := flushIfNeededLocked p1 eventTimeNs in
    if overallCondition && mIsPulled cfg && (mTriggerAtomId cfg =? -1)
    then pullAndMatchEventsLocked p2 eventTimeNs
    else p2.

(** [onDataPulled]; [elapsedRealtimeNs] is the value of
    [getElapsedRealtimeNs()] when the callback runs. *)
Definition onDataPulled (p : Producer) (allData : list LogEvent)
    (pullResult : PullResult) (originalPullTimeNs elapsedRealtimeNs : Z) : Producer :=
  if negb (isPullSuccess pullResult) || (length allData =? 0)%nat then p
  else
    let pullDelayNs := Int64.sub elapsedRealtimeNs originalPullTimeNs in
    let p1 := note (notePullDelay (mPullTagId cfg) pullDelayNs) p in
    if mMaxPullDelayNs cfg <? pullDelayNs then
      note (notePullExceedMaxDelay (mPullTagId cfg)) p1
    else matchAndAppend pullAndMatchEventsLocked None allData p1.

(** [MetricProducer::addAnomalyTracker]. *)
Definition addAnomalyTracker (p : Producer) : Producer :=
  set_mAnomalyTrackers (S (mAnomalyTrackers p)) p.

End Operations.

(** ** The report *)

(** What the producer writes into the [ProtoOutputStream]: a field with its
    id and value, a nested message delimited by [start] and [end], or the
    output of one of the writers of stats_log_util, kept as the call. *)
#[warnings="-register-all"]
Inductive ProtoItem : Type :=
| write_int64 (fieldId : Z) (value : Z)
| write_int32 (fieldId : Z) (value : BucketDropReason)
| write_bool (fieldId : Z) (value : bool)
| message (fieldId : Z) (body : list ProtoItem)
| writeDimensionPathToProto (dimensions : list Matcher)
| writeDimensionToProto (dimension : HashableDimensionKey)
| writeDimensionLeafNodesToProto (dimension : HashableDimensionKey) (fieldId : Z)
| writeFieldValueTreeToStream (atomId : Z) (values : list FieldValue).

(** The field number a top-level item of a message is written under, when
    the producer chooses it. *)
Definition fieldIdOf (item : ProtoItem) : option Z :=
  match item with
  | write_int64 fieldId _ | write_int32 fieldId _ | write_bool fieldId _
  | message fieldId _ => Some fieldId
  | writeDimensionLeafNodesToProto _ fieldId => Some fieldId
  | writeDimensionPathToProto _ | writeDimensionToProto _
  | writeFieldValueTreeToStream _ _ => None
  end.

Definition hasField (fieldId : Z) (body : list ProtoItem) : bool :=
  existsb (fun item => bool_decide (fieldIdOf item = Some fieldId)) body.

(* for StatsLogReport *)
Definition FIELD_ID_ID : Z := 1.
Definition FIELD_ID_GAUGE_METRICS : Z := 8.
Definition FIELD_ID_TIME_BASE : Z := 9.
Definition FIELD_ID_BUCKET_SIZE : Z := 10.
Definition FIELD_ID_DIMENSION_PATH_IN_WHAT : Z := 11.
Definition FIELD_ID_IS_ACTIVE : Z := 14.
Definition FIELD_ID_DIMENSION_GUARDRAIL_HIT : Z := 17.
(* for GaugeMetricDataWrapper *)
Definition FIELD_ID_DATA : Z := 1.
Definition FIELD_ID_SKIPPED : Z := 2.
(* for SkippedBuckets *)
Definition FIELD_ID_SKIPPED_START_MILLIS : Z := 3.
Definition FIELD_ID_SKIPPED_END_MILLIS : Z := 4.
Definition FIELD_ID_SKIPPED_DROP_EVENT : Z := 5.
(* for DumpEvent Proto *)
Definition FIELD_ID_BUCKET_DROP_REASON : Z := 1.
Definition FIELD_ID_DROP_TIME : Z := 2.
(* for GaugeMetricData *)
Definition FIELD_ID_DIMENSION_IN_WHAT : Z := 1.
Definition FIELD_ID_BUCKET_INFO : Z := 3.
Definition FIELD_ID_DIMENSION_LEAF_IN_WHAT : Z := 4.
(* for GaugeBucketInfo *)
Definition FIELD_ID_BUCKET_NUM : Z := 6.
Definition FIELD_ID_START_BUCKET_ELAPSED_MILLIS : Z := 7.
Definition FIELD_ID_END_BUCKET_ELAPSED_MILLIS : Z := 8.
Definition FIELD_ID_AGGREGATED_ATOM : Z := 9.
(* for AggregatedAtomInfo *)
Definition FIELD_ID_ATOM_VALUE : Z := 1.
Definition FIELD_ID_ATOM_TIMESTAMPS : Z := 2.

Section Report.

Context (cfg : Config) (env : Collaborators).

Definition writeDropEvent (dropEvent : DropEvent) : ProtoItem :=
  message FIELD_ID_SKIPPED_DROP_EVENT
    [ write_int32 FIELD_ID_BUCKET_DROP_REASON (reason dropEvent);
      write_int64 FIELD_ID_DROP_TIME (NanoToMillis (dropTimeNs dropEvent)) ].

Definition writeSkippedBucket (skippedBucket : SkippedBucket) : ProtoItem :=
  message FIELD_ID_SKIPPED
    ([ write_int64 FIELD_ID_SKIPPED_START_MILLIS
         (NanoToMillis (bucketStartTimeNs skippedBucket));
       write_int64 FIELD_ID_SKIPPED_END_MILLIS
         (NanoToMillis (bucketEndTimeNs skippedBucket)) ]
     ++ map writeDropEvent (dropEvents skippedBucket)).

Definition writeAggregatedAtom (entry : AtomDimensionKey * list Z) : ProtoItem :=
  let '(atomDimensionKey, elapsedTimestampsNs) := entry in
  message FIELD_ID_AGGREGATED_ATOM
    (message FIELD_ID_ATOM_VALUE
       [ writeFieldValueTreeToStream (mAtomId cfg) (snd atomDimensionKey) ]
     :: map (write_int64 FIELD_ID_ATOM_TIMESTAMPS) elapsedTimestampsNs).

(** The body of the loop over the buckets of a dimension. *)
Definition writeBucketInfo (bucket : GaugeBucket) : ProtoItem :=
  message FIELD_ID_BUCKET_INFO
    ((if negb (Int64.sub (mBucketEndNs bucket) (mBucketStartNs bucket)
               =? mBucketSizeNs cfg)
      then [ write_int64 FIELD_ID_START_BUCKET_ELAPSED_MILLIS
               (NanoToMillis (mBucketStartNs bucket));
             write_int64 FIELD_ID_END_BUCKET_ELAPSED_MILLIS
               (NanoToMillis (mBucketEndNs bucket)) ]
      else [ write_int64 FIELD_ID_BUCKET_NUM
               (getBucketNumFromEndTimeNs cfg (mBucketEndNs bucket)) ])
     ++ map writeAggregatedAtom (map_to_list (mAggregatedAtoms bucket))).

(** The body of the loop over [mPastBuckets]. *)
Definition writeData (pair : MetricDimensionKey * list GaugeBucket) : ProtoItem :=
  let '(dimensionKey, buckets) := pair in
  message FIELD_ID_DATA
    ((if mShouldUseNestedDimensions cfg
      then message FIELD_ID_DIMENSION_IN_WHAT
             [ writeDimensionToProto (getDimensionKeyInWhat dimensionKey) ]
      else writeDimensionLeafNodesToProto (getDimensionKeyInWhat dimensionKey)
             FIELD_ID_DIMENSION_LEAF_IN_WHAT)
     :: map writeBucketInfo buckets).

Definition onDumpReportLocked (p : Producer) (dumpTimeNs : Z)
    (include_current_partial_bucket erase_data : bool)
    : Producer * list ProtoItem :=
  let p1 :=
    if include_current_partial_bucket then flushLocked cfg p dumpTimeNs
    else flushIfNeededLocked cfg p dumpTimeNs in
  let header :=
    [ write_int64 FIELD_ID_ID (mMetricId cfg);
      write_bool FIELD_ID_IS_ACTIVE (mIsActive p1) ] in
  if bool_decide (mPastBuckets p1 = ∅) && bool_decide (mSkippedBuckets p1 = []) then
    (p1, header)
  else
    let protoOutput :=
      header
      ++ (if mDimensionGuardrailHit p1
          then [ write_bool FIELD_ID_DIMENSION_GUARDRAIL_HIT (mDimensionGuardrailHit p1) ]
          else [])
      ++ [ write_int64 FIELD_ID_TIME_BASE (mTimeBaseNs cfg);
           write_int64 FIELD_ID_BUCKET_SIZE (mBucketSizeNs cfg) ]
      ++ (if negb (mShouldUseNestedDimensions cfg)
             && negb (length (mDimensionsInWhat cfg) =? 0)%nat
          then [ message FIELD_ID_DIMENSION_PATH_IN_WHAT
                   [ writeDimensionPathToProto (mDimensionsInWhat cfg) ] ]
          else [])
      ++ [ message FIELD_ID_GAUGE_METRICS
             (map writeSkippedBucket (mSkippedBuckets p1)
              ++ map writeData (map_to_list (mPastBuckets p1))) ] in
    let p2 :=
      if erase_data then
        set_mDimensionGuardrailHit false
          (set_mSkippedBuckets [] (set_mPastBuckets ∅ p1))
      else p1 in
    (p2, protoOutput).

End Report.

(** ** Sequences of operations *)

(** The entry points of the producer. [SetActive] is the activation logic
    of the base class changing [mIsActive]; [FlushPartial] is the forced
    partial bucket of [onStatsdInitCompleted] and [notifyAppUpgrade]. *)
Inductive Operation : Type :=
| OnMatchedLogEvent (event : LogEvent)
| OnConditionChanged (condition : bool) (eventTime : Z)
| OnSlicedConditionMayChange (overallCondition : bool) (eventTime : Z)
| OnDataPulled (allData : list LogEvent) (pullResult : PullResult)
    (originalPullTimeNs elapsedRealtimeNs : Z)
| OnDumpReport (dumpTimeNs : Z) (include_current_partial_bucket erase_data : bool)
| ClearPastBuckets (dumpTimeNs : Z)
| DropData (dropTimeNs : Z)
| PrepareFirstBucket
| OnActiveStateChanged (eventTimeNs : Z) (isActive : bool)
| SetActive (isActive : bool)
| FlushPartial (eventTimeNs : Z)
| AddAnomalyTracker.

Definition perform (cfg : Config) (env : Collaborators) (p : Producer)
    (op : Operation) : Producer :=
  match op with
  | OnMatchedLogEvent event =>
      onMatchedLogEventLocked cfg env (pullAndMatchEventsLocked cfg env) p event
  | OnConditionChanged condition eventTime =>
      onConditionChangedLocked cfg env p condition eventTime
  | OnSlicedConditionMayChange overallCondition eventTime =>
      onSlicedConditionMayChangeLocked cfg env p overallCondition eventTime
  | OnDataPulled allData pullResult originalPullTimeNs elapsedRealtimeNs =>
      onDataPulled cfg env p allData pullResult originalPullTimeNs elapsedRealtimeNs
  | OnDumpReport dumpTimeNs include_current_partial_bucket erase_data =>
      fst (onDumpReportLocked cfg p dumpTimeNs include_current_partial_bucket erase_data)
  | ClearPastBuckets dumpTimeNs => clearPastBucketsLocked cfg p dumpTimeNs
  | DropData dropTimeNs => dropDataLocked cfg p dropTimeNs
  | PrepareFirstBucket => prepareFirstBucketLocked cfg env p
  | OnActiveStateChanged eventTimeNs isActive =>
      onActiveStateChangedLocked cfg env p eventTimeNs isActive
  | SetActive isActive => set_mIsActive isActive p
  | FlushPartial eventTimeNs => flushLocked cfg p eventTimeNs
  | AddAnomalyTracker => addAnomalyTracker p
  end.

Definition run (cfg : Config) (env : Collaborators) (ops : list Operation)
    (p : Producer) : Producer :=
  fold_left (perform cfg env) ops p.

(** ** Further members of the producer *)

(** The calls of the constructor and of the destructor into the puller
    manager; the config key and the receiver are the producer's own. *)
Inductive PullerManagerCall : Type :=
| RegisterReceiver (pullTagId : Z) (nextPullTimeNs : Z) (intervalNs : Z)
| UnRegisterReceiver (pullTagId : Z).

Section FurtherOperations.

Context (cfg : Config).

(** The body of the constructor of [GaugeMetricProducer], on the producer
    as the constructor of the base class leaves it: the two maps of the
    current bucket are created empty and the guardrail flag is false, the
    buckets before the start time are flushed, a pulled producer that
    samples at random registers with the puller manager for the end of
    the current bucket, and the start of the first bucket is moved to the
    start time. *)
Definition GaugeMetricProducer_constructor (base : Producer) (startTimeNs : Z)
    : Producer * list PullerManagerCall :=
  let p0 :=
    set_mCurrentSlicedBucketForAnomaly ∅
      (set_mCurrentSlicedBucket ∅ (set_mDimensionGuardrailHit false base)) in
  let p1 := flushIfNeededLocked cfg p0 startTimeNs in
  let calls :=
    if mIsPulled cfg && isRandomNSamples cfg
    then [ RegisterReceiver (mPullTagId cfg) (getCurrentBucketEndTimeNs cfg p1)
             (mBucketSizeNs cfg) ]
    else [] in
  (set_mCurrentBucketStartTimeNs startTimeNs p1, calls).

(** The destructor. *)
Definition GaugeMetricProducer_destructor : list PullerManagerCall :=
  if mIsPulled cfg && isRandomNSamples cfg
  then [ UnRegisterReceiver (mPullTagId cfg) ]
  else [].





(** [byteSizeLocked]: the three nested loops over the past buckets, their
    buckets and the aggregated atoms of a bucket, with one running total.
    [sizeofFieldValue] is [sizeof(FieldValue)] on the platform; an
    [int64_t] takes 8 bytes. *)
Definition byteSizeOfAggregatedAtom (sizeofFieldValue : nat)
    (atomDimensionKey : AtomDimensionKey) (elapsedTimestampsNs : list Z)
    (totalSize : nat) : nat :=
  (totalSize + sizeofFieldValue * length (snd atomDimensionKey)
   + 8 * length elapsedTimestampsNs)%nat.

Definition byteSizeOfBucket (sizeofFieldValue : nat) (totalSize : nat)
    (bucket : GaugeBucket) : nat :=
  map_fold (byteSizeOfAggregatedAtom sizeofFieldValue) totalSize
           (mAggregatedAtoms bucket).

Definition byteSizeLocked (sizeofFieldValue : nat) (p : Producer) : nat :=
  map_fold
    (fun (_ : MetricDimensionKey) (buckets : list GaugeBucket) (totalSize : nat) =>
       fold_left (byteSizeOfBucket sizeofFieldValue) buckets totalSize)
    0%nat (mPastBuckets p).

End FurtherOperations.

(** ** Vocabulary of the properties

    The notions the theorems are stated with: path conditions of the
    append path, the state a dump reports, and the way the current sliced
    bucket may change from one state to the next. *)

Section Vocabulary.

Context (cfg : Config) (env : Collaborators).

(** The timestamps of the atoms of a slice that fall under an
    [AtomDimensionKey], in the order of the slice. *)
Definition timestampsOf (key : AtomDimensionKey) (atoms : list GaugeAtom) : list Z :=
  map mElapsedTimestampNs
      (List.filter (fun atom => bool_decide ((mAtomId cfg, mFields atom) = key)) atoms).

(** The producer as [onDumpReportLocked] flushes it before it writes. *)
Definition flushedForDump (p : Producer) (dumpTimeNs : Z)
    (include_current_partial_bucket : bool) : Producer :=
  if include_current_partial_bucket then flushLocked cfg p dumpTimeNs
  else flushIfNeededLocked cfg p dumpTimeNs.

(** Whether the dump has anything to report after its flush. *)
Definition nothingToReport (p : Producer) : bool :=
  bool_decide (mPastBuckets p = ∅) && bool_decide (mSkippedBuckets p = []).

(** The guards an event passes, in the order of the source, before the
    dimension guardrail is asked, and before its gauge atom is pushed to
    the back of the list of its dimension. *)
Definition reachesGuardrail (p : Producer) (eventKey : MetricDimensionKey)
    (condition : bool) (event : LogEvent) : bool :=
  let p1 := flushIfNeededLocked cfg p (GetElapsedTimestampNs event) in
  condition
  && negb ((mPullTagId cfg =? -1) && (mSamplingPercentage cfg <? 100)
           && negb (shouldKeepRandomSample env (mSamplingPercentage cfg) event))
  && negb (GetElapsedTimestampNs event <? mCurrentBucketStartTimeNs p)
  && negb (mTriggerAtomId cfg =? GetTagId event)
  && negb (bool_decide (is_Some (mCurrentSlicedBucket p1 !! eventKey))
           && isRandomOneSample (mSamplingType cfg)).

Definition reachesAppend (p : Producer) (eventKey : MetricDimensionKey)
    (condition : bool) (event : LogEvent) : bool :=
  let p1 := flushIfNeededLocked cfg p (GetElapsedTimestampNs event) in
  reachesGuardrail p eventKey condition event
  && negb (fst (hitGuardRailLocked cfg p1 eventKey))
  && negb (mGaugeAtomsPerDimensionLimit cfg
           <=? length (default [] (mCurrentSlicedBucket p1 !! eventKey)))%nat.

(** The fields of an atom that hold a number. *)
Definition isNumeric (value : Value) : bool :=
  match value with
  | INT _ | LONG _ | FLOAT _ | DOUBLE _ => true
  | _ => false
  end.

Definition numericFields (fields : list FieldValue) : list FieldValue :=
  List.filter (fun fv => isNumeric (mValue fv)) fields.

(** One change of the current sliced bucket. *)
Inductive bucketStep
    : gmap MetricDimensionKey (list GaugeAtom)
      -> gmap MetricDimensionKey (list GaugeAtom) -> Prop :=
| bucket_reset m : bucketStep m ∅
| bucket_touch m key extra :
    (m !! key = None ->
     (size m < mDimensionSoftLimit cfg)%nat
     \/ (size m + 1 <= mDimensionHardLimit cfg)%nat) ->
    (is_Some (m !! key) -> mSamplingType cfg <> RANDOM_ONE_SAMPLE) ->
    (extra = []
     \/ exists atom, extra = [atom]
          /\ (length (default [] (m !! key)) < mGaugeAtomsPerDimensionLimit cfg)%nat) ->
    bucketStep m (<[key := default [] (m !! key) ++ extra]> m).

(** The number of answers the puller has left. *)
Definition answersLeft (p : Producer) : nat := length (pullerAnswers (world p)).

(** [follows p q]: [q] can come after [p]. Its current sliced bucket is
    reached from that of [p] by resets and guarded touches, the puller has
    no more answers left than before, and the accumulator of the current
    skipped bucket is the one of [p] or a reset one. *)
Definition follows (p q : Producer) : Prop :=
  rtc bucketStep (mCurrentSlicedBucket p) (mCurrentSlicedBucket q)
  /\ (answersLeft q <= answersLeft p)%nat
  /\ (mCurrentSkippedBucket q = mCurrentSkippedBucket p
      \/ mCurrentSkippedBucket q = SkippedBucket_reset).

(** The number of dimensions stays below the larger of the two limits. *)
Definition dimensionBound : nat :=
  Nat.max (mDimensionSoftLimit cfg) (mDimensionHardLimit cfg).

(** Every dimension of the bucket holds at most one atom. *)
Definition oneAtomPerDimension (m : gmap MetricDimensionKey (list GaugeAtom)) : Prop :=
  forall key atoms, m !! key = Some atoms -> (length atoms <= 1)%nat.

(** No dimension holds more atoms than the per-dimension limit. *)
Definition withinAtomLimit (m : gmap MetricDimensionKey (list GaugeAtom)) : Prop :=
  forall key atoms,
    m !! key = Some atoms -> (length atoms <= mGaugeAtomsPerDimensionLimit cfg)%nat.

End Vocabulary.

(** ** Vocabulary of the further properties *)

Section FurtherVocabulary.

Context (cfg : Config).

(** The values of a flush at [eventTimeNs] stay within [int64_t]: the
    bucket size is positive, the time base and the bucket number are not
    negative, and neither the end of the current bucket nor the event
    time plus one bucket reach [2 ^ 63]. *)
Definition withinInt64 (p : Producer) (eventTimeNs : Z) : Prop :=
  0 < mBucketSizeNs cfg
  /\ 0 <= mTimeBaseNs cfg
  /\ 0 <= mCurrentBucketNum p
  /\ mTimeBaseNs cfg + (mCurrentBucketNum p + 1) * mBucketSizeNs cfg < Int64.half
  /\ eventTimeNs + mBucketSizeNs cfg < Int64.half.

(** The number of timestamps an aggregation holds. *)
Definition timestampCount (m : gmap AtomDimensionKey (list Z)) : nat :=
  map_fold (fun (_ : AtomDimensionKey) (timestamps : list Z) (count : nat) =>
              (count + length timestamps)%nat) 0%nat m.

(** A skipped bucket as the gauge producer makes them: shorter than the
    minimum bucket size, with one drop event, for that reason. *)
Definition tooSmallSkipped (skipped : SkippedBucket) : Prop :=
  Int64.sub (bucketEndTimeNs skipped) (bucketStartTimeNs skipped) < mMinBucketSizeNs cfg
  /\ exists timeNs,
       dropEvents skipped = [ {| reason := BUCKET_TOO_SMALL; dropTimeNs := timeNs |} ].

Definition largeEnough (bucket : GaugeBucket) : Prop :=
  mMinBucketSizeNs cfg <= Int64.sub (mBucketEndNs bucket) (mBucketStartNs bucket).

(** The closed buckets are sorted by their length: the past buckets are
    large enough, the skipped ones too small, and the accumulator of the
    current skipped bucket is reset. *)
Definition bucketsSorted (p : Producer) : Prop :=
  mCurrentSkippedBucket p = SkippedBucket_reset
  /\ Forall tooSmallSkipped (mSkippedBuckets p)
  /\ (forall dim buckets,
        mPastBuckets p !! dim = Some buckets -> Forall largeEnough buckets).

(** [keepsData p q]: going from [p] to [q] closed buckets are only added,
    at the back; a raised guardrail flag stays raised; sorted buckets stay
    sorted. *)
Definition keepsData (p q : Producer) : Prop :=
  (forall dim,
     default [] (mPastBuckets p !! dim) `prefix_of` default [] (mPastBuckets q !! dim))
  /\ mSkippedBuckets p `prefix_of` mSkippedBuckets q
  /\ (mDimensionGuardrailHit p = true -> mDimensionGuardrailHit q = true)
  /\ (bucketsSorted p -> bucketsSorted q).

End FurtherVocabulary.

(** The operations that clear closed buckets, and the one that clears the
    guardrail flag. *)
Definition clearsBuckets (op : Operation) : bool :=
  match op with
  | ClearPastBuckets _ | DropData _ | OnDumpReport _ _ true => true
  | _ => false
  end.

Definition erasesOnDump (op : Operation) : bool :=
  match op with
  | OnDumpReport _ _ true => true
  | _ => false
  end.

(** The operations that bring an inactive producer to act as an active
    one: the activation itself, and the callback of the activation, which
    the base class calls after it has set [mIsActive]. *)
Definition activates (op : Operation) : bool :=
  match op with
  | SetActive true | OnActiveStateChanged _ true => true
  | _ => false
  end.

(** [staysIdle p q]: going from [p] to [q] the producer stays inactive,
    the puller is not called, no atom enters the current bucket and no
    skipped bucket is added. *)
Definition staysIdle (p q : Producer) : Prop :=
  mIsActive q = false
  /\ pullerCalls (world q) = pullerCalls (world p)
  /\ (mCurrentSlicedBucket q = mCurrentSlicedBucket p \/ mCurrentSlicedBucket q = ∅)
  /\ (mSkippedBuckets q = mSkippedBuckets p \/ mSkippedBuckets q = []).

(** ** Sample configurations and states

    Used to instantiate the theorems below. *)

Module Sample.

(** A push-mode producer with buckets of 10 ns from time base 0. *)
Definition pushConfig : Config :=
  {| mMetricId := 7; mTimeBaseNs := 0; mBucketSizeNs := 10; mMinBucketSizeNs := 0;
     mWhatMatcherIndex := 0; mPullTagId := -1; mTriggerAtomId := -1; mAtomId := 100;
     mSamplingType := FIRST_N_SAMPLES; isRandomNSamples := true;
     mMaxPullDelayNs := 50;
     mDimensionSoftLimit := 1; mDimensionHardLimit := 2;
     mGaugeAtomsPerDimensionLimit := 10;
     mSamplingPercentage := 100; mFieldMatchers := []; mDimensionsInWhat := [];
     mShouldUseNestedDimensions := false; mConditionSliced := false |}.

(** The same producer with a minimum bucket size of 5 ns. *)
Definition minSizeConfig : Config :=
  {| mMetricId := 7; mTimeBaseNs := 0; mBucketSizeNs := 10; mMinBucketSizeNs := 5;
     mWhatMatcherIndex := 0; mPullTagId := -1; mTriggerAtomId := -1; mAtomId := 100;
     mSamplingType := FIRST_N_SAMPLES; isRandomNSamples := true;
     mMaxPullDelayNs := 50;
     mDimensionSoftLimit := 1; mDimensionHardLimit := 2;
     mGaugeAtomsPerDimensionLimit := 10;
     mSamplingPercentage := 100; mFieldMatchers := []; mDimensionsInWhat := [];
     mShouldUseNestedDimensions := false; mConditionSliced := false |}.

(** A producer whose soft limit lies above its hard limit. *)
Definition softAboveHardConfig : Config :=
  {| mMetricId := 7; mTimeBaseNs := 0; mBucketSizeNs := 10; mMinBucketSizeNs := 0;
     mWhatMatcherIndex := 0; mPullTagId := -1; mTriggerAtomId := -1; mAtomId := 100;
     mSamplingType := FIRST_N_SAMPLES; isRandomNSamples := true;
     mMaxPullDelayNs := 50;
     mDimensionSoftLimit := 3; mDimensionHardLimit := 1;
     mGaugeAtomsPerDimensionLimit := 10;
     mSamplingPercentage := 100; mFieldMatchers := []; mDimensionsInWhat := [];
     mShouldUseNestedDimensions := false; mConditionSliced := false |}.

(** A push-mode producer sliced by the first field of atom 100, which
    is therefore trimmed from the gauge fields. *)
Definition slicedConfig : Config :=
  {| mMetricId := 7; mTimeBaseNs := 0; mBucketSizeNs := 10; mMinBucketSizeNs := 0;
     mWhatMatcherIndex := 0; mPullTagId := -1; mTriggerAtomId := -1; mAtomId := 100;
     mSamplingType := FIRST_N_SAMPLES; isRandomNSamples := true;
     mMaxPullDelayNs := 50;
     mDimensionSoftLimit := 500; mDimensionHardLimit := 800;
     mGaugeAtomsPerDimensionLimit := 10;
     mSamplingPercentage := 100; mFieldMatchers := [];
     mDimensionsInWhat := [ ((100, 1), -1) ];
     mShouldUseNestedDimensions := false; mConditionSliced := false |}.

(** A pull-mode producer of atom 200 sampling one atom per bucket. *)
Definition pullConfig : Config :=
  {| mMetricId := 8; mTimeBaseNs := 0; mBucketSizeNs := 60; mMinBucketSizeNs := 0;
     mWhatMatcherIndex := 0; mPullTagId := 200; mTriggerAtomId := -1; mAtomId := 200;
     mSamplingType := RANDOM_ONE_SAMPLE; isRandomNSamples := true;
     mMaxPullDelayNs := 50;
     mDimensionSoftLimit := 500; mDimensionHardLimit := 800;
     mGaugeAtomsPerDimensionLimit := 10;
     mSamplingPercentage := 100; mFieldMatchers := []; mDimensionsInWhat := [];
     mShouldUseNestedDimensions := false; mConditionSliced := false |}.

(** Every event matches, a field matches a matcher when its tag and its
    masked path are the matcher's, no gauge field is filtered out and no
    timestamp truncated, and the dimension of an event is its first
    field. *)
Definition collaborators : Collaborators :=
  {| matchLogEvent := fun _ _ => (kMatched, None);
     matches := fun field matcher =>
       (getTag field =? getTag (fst matcher))
       && (Z.land (getField field) (snd matcher) =? getField (fst matcher));
     filterGaugeValues := fun _ values => values;
     truncateTimestampIfNecessary := GetElapsedTimestampNs;
     shouldKeepRandomSample := fun _ _ => true;
     dimensionKeysOf := fun event => [ (firstn 1 (getValues event), []) ];
     queryCondition := fun _ => kTrue |}.

Definition quietWorld : World :=
  {| statsdStats := []; anomalyCalls := []; pullerCalls := []; pullerAnswers := [] |}.

(** A producer in its first bucket, active, condition met, no data. *)
Definition fresh : Producer :=
  {| mCurrentBucketStartTimeNs := 0; mCurrentBucketNum := 0;
     mCondition := kTrue; mIsActive := true; mAnomalyTrackers := 0;
     mCurrentSlicedBucket := ∅; mCurrentSlicedBucketForAnomaly := ∅;
     mPastBuckets := ∅; mCurrentSkippedBucket := SkippedBucket_reset;
     mSkippedBuckets := []; mHasHitGuardrail := false;
     mDimensionGuardrailHit := false; world := quietWorld |}.

(** An event of atom 100 for the dimension [uid], carrying the field
    [value]. *)
Definition event (timestampNs uid : Z) (value : Value) : LogEvent :=
  {| GetTagId := 100; GetElapsedTimestampNs := timestampNs;
     getValues := [ ((100, 1), INT uid); ((100, 2), value) ] |}.

Definition dimension (uid : Z) : MetricDimensionKey := ([ ((100, 1), INT uid) ], []).

End Sample.

(** ** Facts of the 64-bit arithmetic *)

Lemma Int64_wrap_in_range z : Int64.in_range (Int64.wrap z).
Proof.
  unfold Int64.in_range, Int64.wrap, Int64.half, Int64.modulus.
  pose proof (Z.mod_pos_bound (z + 2 ^ 63) (2 ^ 64) ltac:(lia)). lia.
Qed.

Lemma Int64_wrap_id z : Int64.in_range z -> Int64.wrap z = z.
Proof.
  unfold Int64.in_range, Int64.wrap, Int64.half, Int64.modulus. intros Hz.
  rewrite Z.mod_small by lia. lia.
Qed.

Lemma Int64_add_exact a b : Int64.in_range (a + b) -> Int64.add a b = a + b.
Proof. apply Int64_wrap_id. Qed.

Lemma Int64_sub_exact a b : Int64.in_range (a - b) -> Int64.sub a b = a - b.
Proof. apply Int64_wrap_id. Qed.

Lemma Int64_mul_exact a b : Int64.in_range (a * b) -> Int64.mul a b = a * b.
Proof. apply Int64_wrap_id. Qed.

Lemma Int64_div_exact a b : Int64.in_range (Z.quot a b) -> Int64.div a b = Z.quot a b.
Proof. apply Int64_wrap_id. Qed.

(** ** Frame lemmas of the flush *)

Section FlushFacts.

Context (cfg : Config).

(** Case analysis on the three decisions of [flushCurrentBucketLocked]:
    the size of the bucket, the active flag, the anomaly trackers. *)
Ltac flush_cases p :=
  unfold flushCurrentBucketLocked; cbv zeta;
  destruct (mMinBucketSizeNs cfg <=? _);
  [ | destruct (mIsActive p) eqn:? ];
  (destruct (0 <? _)%nat; [ destruct (getCurrentBucketEndTimeNs cfg p <? _) | ]);
  try reflexivity; try (cbn; congruence).

Lemma flushCurrentBucketLocked_mCurrentBucketNum p eventTimeNs nextNs :
  mCurrentBucketNum (flushCurrentBucketLocked cfg p eventTimeNs nextNs)
  = mCurrentBucketNum p.
Proof. flush_cases p. Qed.

Lemma flushCurrentBucketLocked_mDimensionGuardrailHit p eventTimeNs nextNs :
  mDimensionGuardrailHit (flushCurrentBucketLocked cfg p eventTimeNs nextNs)
  = mDimensionGuardrailHit p.
Proof. flush_cases p. Qed.

Lemma flushCurrentBucketLocked_mCurrentSlicedBucket p eventTimeNs nextNs :
  mCurrentSlicedBucket (flushCurrentBucketLocked cfg p eventTimeNs nextNs) = ∅.
Proof. reflexivity. Qed.

Lemma flushCurrentBucketLocked_mCurrentBucketStartTimeNs p eventTimeNs nextNs :
  mCurrentBucketStartTimeNs (flushCurrentBucketLocked cfg p eventTimeNs nextNs) = nextNs.
Proof. reflexivity. Qed.

Lemma flushCurrentBucketLocked_pullerAnswers p eventTimeNs nextNs :
  pullerAnswers (world (flushCurrentBucketLocked cfg p eventTimeNs nextNs))
  = pullerAnswers (world p).
Proof. flush_cases p. Qed.

Lemma flushCurrentBucketLocked_mAnomalyTrackers p eventTimeNs nextNs :
  mAnomalyTrackers (flushCurrentBucketLocked cfg p eventTimeNs nextNs)
  = mAnomalyTrackers p.
Proof. flush_cases p. Qed.

Lemma flushCurrentBucketLocked_mIsActive p eventTimeNs nextNs :
  mIsActive (flushCurrentBucketLocked cfg p eventTimeNs nextNs) = mIsActive p.
Proof. flush_cases p. Qed.

Lemma flushCurrentBucketLocked_mCondition p eventTimeNs nextNs :
  mCondition (flushCurrentBucketLocked cfg p eventTimeNs nextNs) = mCondition p.
Proof. flush_cases p. Qed.

Lemma flushIfNeededLocked_mDimensionGuardrailHit p eventTimeNs :
  mDimensionGuardrailHit (flushIfNeededLocked cfg p eventTimeNs)
  = mDimensionGuardrailHit p.
Proof.
  unfold flushIfNeededLocked. case_match; [reflexivity|].
  exact (flushCurrentBucketLocked_mDimensionGuardrailHit _ _ _).
Qed.

Lemma flushIfNeededLocked_pullerAnswers p eventTimeNs :
  pullerAnswers (world (flushIfNeededLocked cfg p eventTimeNs))
  = pullerAnswers (world p).
Proof.
  unfold flushIfNeededLocked. case_match; [reflexivity|].
  exact (flushCurrentBucketLocked_pullerAnswers _ _ _).
Qed.

Lemma flushIfNeededLocked_mAnomalyTrackers p eventTimeNs :
  mAnomalyTrackers (flushIfNeededLocked cfg p eventTimeNs) = mAnomalyTrackers p.
Proof.
  unfold flushIfNeededLocked. case_match; [reflexivity|].
  exact (flushCurrentBucketLocked_mAnomalyTrackers _ _ _).
Qed.

(** The current bucket after [flushIfNeededLocked] is the old one or an
    empty one. *)
Lemma flushIfNeededLocked_mCurrentSlicedBucket p eventTimeNs :
  mCurrentSlicedBucket (flushIfNeededLocked cfg p eventTimeNs)
  = if eventTimeNs <? getCurrentBucketEndTimeNs cfg p
    then mCurrentSlicedBucket p else ∅.
Proof. unfold flushIfNeededLocked. case_match; reflexivity. Qed.

(** [flushIfNeededLocked] with the bucket number of the producer it was
    given: [flushCurrentBucketLocked] does not change the number. *)
Lemma flushIfNeededLocked_unfold p eventTimeNs :
  let endNs := getCurrentBucketEndTimeNs cfg p in
  let numForward :=
    Int64.add 1 (Int64.div (Int64.sub eventTimeNs endNs) (mBucketSizeNs cfg)) in
  let nextStartNs :=
    Int64.add endNs (Int64.mul (Int64.sub numForward 1) (mBucketSizeNs cfg)) in
  flushIfNeededLocked cfg p eventTimeNs
  = if eventTimeNs <? endNs then p
    else set_mCurrentBucketNum (Int64.add (mCurrentBucketNum p) numForward)
           (flushCurrentBucketLocked cfg p eventTimeNs nextStartNs).
Proof.
  cbv zeta. unfold flushIfNeededLocked.
  destruct (eventTimeNs <? getCurrentBucketEndTimeNs cfg p); [reflexivity|].
  cbv zeta. rewrite flushCurrentBucketLocked_mCurrentBucketNum. reflexivity.
Qed.

End FlushFacts.

(** ** C1: flushIfNeededLocked *)

(** C1. [flushIfNeededLocked] leaves the producer as it is when the event
    time lies before the end of the current bucket,
    [timeBaseNs + (currentBucketNum + 1) * bucketSizeNs]. Otherwise it
    computes [numForward = 1 + (eventTimeNs - endNs) / bucketSizeNs] and
    [nextStartNs = endNs + (numForward - 1) * bucketSizeNs], flushes the
    current bucket with [(eventTimeNs, nextStartNs)] and then adds
    [numForward] to the bucket number. The arithmetic is that of
    [int64_t]. *)
Theorem flushIfNeededLocked_spec (cfg : Config) (p : Producer) (eventTimeNs : Z) :
  let endNs :=
    Int64.add (mTimeBaseNs cfg)
              (Int64.mul (Int64.add (mCurrentBucketNum p) 1) (mBucketSizeNs cfg)) in
  let numForward :=
    Int64.add 1 (Int64.div (Int64.sub eventTimeNs endNs) (mBucketSizeNs cfg)) in
  let nextStartNs :=
    Int64.add endNs (Int64.mul (Int64.sub numForward 1) (mBucketSizeNs cfg)) in
  (eventTimeNs < endNs -> flushIfNeededLocked cfg p eventTimeNs = p)
  /\ (endNs <= eventTimeNs ->
      flushIfNeededLocked cfg p eventTimeNs
      = set_mCurrentBucketNum (Int64.add (mCurrentBucketNum p) numForward)
          (flushCurrentBucketLocked cfg p eventTimeNs nextStartNs)).
Proof.
  intros endNs numForward nextStartNs.
  pose proof (flushIfNeededLocked_unfold cfg p eventTimeNs) as Hflush.
  cbv zeta in Hflush.
  change (getCurrentBucketEndTimeNs cfg p) with endNs in Hflush.
  fold numForward nextStartNs in Hflush.
  split; intros Hcmp.
  - apply Z.ltb_lt in Hcmp. rewrite Hcmp in Hflush. exact Hflush.
  - apply Z.ltb_ge in Hcmp. rewrite Hcmp in Hflush. exact Hflush.
Qed.

Lemma flushIfNeededLocked_spec_witness :
  flushIfNeededLocked Sample.pushConfig Sample.fresh 3 = Sample.fresh
  /\ mCurrentBucketNum (flushIfNeededLocked Sample.pushConfig Sample.fresh 25) = 2
  /\ mCurrentBucketStartTimeNs (flushIfNeededLocked Sample.pushConfig Sample.fresh 25) = 20.
Proof.
  pose proof (flushIfNeededLocked_spec Sample.pushConfig Sample.fresh 3) as [Hearly _].
  pose proof (flushIfNeededLocked_spec Sample.pushConfig Sample.fresh 25) as [_ Hlate].
  split; [apply Hearly; vm_compute; reflexivity|].
  rewrite Hlate by (vm_compute; discriminate).
  split; vm_compute; reflexivity.
Defined.

(** With a positive bucket size, a time base and a bucket number that are
    not negative and an event time one bucket away from the largest
    [int64_t], nothing overflows: the formulas of [flushIfNeededLocked] are
    those of the integers, and the event lies in the bucket the producer
    is in afterwards. *)
Lemma flushIfNeededLocked_exact (cfg : Config) (p : Producer) (eventTimeNs : Z) :
  let endNs := mTimeBaseNs cfg + (mCurrentBucketNum p + 1) * mBucketSizeNs cfg in
  let numForward := 1 + (eventTimeNs - endNs) / mBucketSizeNs cfg in
  0 < mBucketSizeNs cfg ->
  0 <= mTimeBaseNs cfg ->
  0 <= mCurrentBucketNum p ->
  eventTimeNs + mBucketSizeNs cfg < Int64.half ->
  endNs <= eventTimeNs ->
  let q := flushIfNeededLocked cfg p eventTimeNs in
  mCurrentBucketNum q = mCurrentBucketNum p + numForward
  /\ mCurrentBucketStartTimeNs q = endNs + (numForward - 1) * mBucketSizeNs cfg
  /\ mCurrentBucketStartTimeNs q <= eventTimeNs < getCurrentBucketEndTimeNs cfg q.
Proof.
  intros endNs numForward Hsize Hbase Hnum Hmax Hle q.
  set (B := mBucketSizeNs cfg) in *. set (n := mCurrentBucketNum p) in *.
  set (T := mTimeBaseNs cfg) in *.
  set (d := (eventTimeNs - endNs) / B) in *.
  assert (Hd0 : 0 <= d) by (apply Z.div_pos; lia).
  assert (Hdle : d * B <= eventTimeNs - endNs).
  { rewrite Z.mul_comm. apply Z.mul_div_le. lia. }
  assert (Hdlt : eventTimeNs - endNs < (d + 1) * B).
  { pose proof (Z.mod_pos_bound (eventTimeNs - endNs) B Hsize) as Hmod.
    pose proof (Z.div_mod (eventTimeNs - endNs) B ltac:(lia)) as Hdm.
    fold d in Hdm. lia. }
  assert (Hn1 : n + 1 <= (n + 1) * B) by nia.
  assert (Hd1 : d <= d * B) by nia.
  assert (Hhalf : Int64.half = 2 ^ 63) by reflexivity.
  assert (Hrange : forall z, - 1 <= z <= eventTimeNs + B -> Int64.in_range z).
  { intros z Hz. unfold Int64.in_range. lia. }
  assert (HendE : getCurrentBucketEndTimeNs cfg p = endNs).
  { unfold getCurrentBucketEndTimeNs. fold n B T.
    rewrite (Int64_add_exact n 1) by (apply Hrange; lia).
    rewrite Int64_mul_exact by (apply Hrange; lia).
    rewrite Int64_add_exact by (apply Hrange; subst endNs; lia). reflexivity. }
  assert (Hquot : Int64.div (Int64.sub eventTimeNs endNs) B = d).
  { rewrite Int64_sub_exact by (apply Hrange; subst endNs; lia).
    rewrite Int64_div_exact; rewrite Z.quot_div_nonneg by lia; fold d;
      [reflexivity | apply Hrange; lia]. }
  assert (HnumF : Int64.add 1 d = numForward).
  { apply Int64_add_exact. apply Hrange. subst endNs. lia. }
  assert (Hnext : Int64.add endNs (Int64.mul (Int64.sub numForward 1) B)
                  = endNs + (numForward - 1) * B).
  { subst numForward.
    rewrite Int64_sub_exact by (apply Hrange; subst endNs; lia).
    rewrite Int64_mul_exact by (apply Hrange; subst endNs; nia).
    apply Int64_add_exact. apply Hrange. subst endNs. nia. }
  pose proof (flushIfNeededLocked_unfold cfg p eventTimeNs) as Hflush.
  cbv zeta in Hflush. rewrite HendE in Hflush.
  fold B n in Hflush. rewrite Hquot, HnumF, Hnext in Hflush.
  apply Z.ltb_ge in Hle. rewrite Hle in Hflush. fold q in Hflush.
  assert (Hqnum : mCurrentBucketNum q = n + numForward).
  { rewrite Hflush. cbn. apply Int64_add_exact. apply Hrange.
    subst numForward endNs. lia. }
  assert (Hqstart : mCurrentBucketStartTimeNs q = endNs + (numForward - 1) * B).
  { rewrite Hflush. reflexivity. }
  split; [exact Hqnum|]. split; [exact Hqstart|].
  rewrite Hqstart. unfold getCurrentBucketEndTimeNs. rewrite Hqnum. fold B T.
  subst numForward.
  assert (Hexp : (n + (1 + d) + 1) * B = (n + 1) * B + (d + 1) * B) by lia.
  rewrite (Int64_add_exact (n + (1 + d)) 1) by (apply Hrange; subst endNs; lia).
  rewrite Int64_mul_exact by (apply Hrange; subst endNs; lia).
  rewrite Int64_add_exact by (apply Hrange; subst endNs; lia).
  subst endNs. lia.
Qed.

(** ** C2: flushCurrentBucketLocked *)

Section Aggregation.

Context (cfg : Config).

Lemma fold_aggregateAtom_lookup (atoms : list GaugeAtom)
    (m : gmap AtomDimensionKey (list Z)) (key : AtomDimensionKey) :
  fold_left (aggregateAtom cfg) atoms m !! key
  = match timestampsOf cfg key atoms with
    | [] => m !! key
    | ts => Some (default [] (m !! key) ++ ts)
    end.
Proof.
  revert m. induction atoms as [|atom atoms IH]; intros m; [reflexivity|].
  cbn [fold_left]. rewrite IH. unfold timestampsOf. cbn [List.filter].
  unfold aggregateAtom at 1 2. cbv zeta.
  case_bool_decide as Hkey.
  - subst key. rewrite lookup_insert_eq. cbn [map default].
    destruct (map _ _) as [|t ts]; [reflexivity|].
    unfold id. rewrite <- app_assoc. reflexivity.
  - rewrite lookup_insert_ne by exact Hkey. reflexivity.
Qed.

Lemma aggregateAtoms_lookup (atoms : list GaugeAtom) (key : AtomDimensionKey) :
  aggregateAtoms cfg atoms !! key
  = match timestampsOf cfg key atoms with [] => None | ts => Some ts end.
Proof.
  unfold aggregateAtoms. rewrite fold_aggregateAtom_lookup, lookup_empty.
  destruct (timestampsOf cfg key atoms); reflexivity.
Qed.

(** The loop over the current sliced bucket extends the list of every
    dimension of the bucket by one bucket and touches no other
    dimension. *)
Lemma pushPastBucket_fold_lookup (startNs endNs : Z)
    (cur : gmap MetricDimensionKey (list GaugeAtom))
    (past : gmap MetricDimensionKey (list GaugeBucket)) (dim : MetricDimensionKey) :
  map_fold (pushPastBucket cfg startNs endNs) past cur !! dim
  = match cur !! dim with
    | Some atoms =>
        Some (default [] (past !! dim)
              ++ [ {| mBucketStartNs := startNs; mBucketEndNs := endNs;
                      mAggregatedAtoms := aggregateAtoms cfg atoms |} ])
    | None => past !! dim
    end.
Proof.
  revert dim.
  apply (map_fold_weak_ind
           (fun r (m : gmap MetricDimensionKey (list GaugeAtom)) =>
              forall dim,
                r !! dim
                = match m !! dim with
                  | Some atoms =>
                      Some (default [] (past !! dim)
                            ++ [ {| mBucketStartNs := startNs; mBucketEndNs := endNs;
                                    mAggregatedAtoms := aggregateAtoms cfg atoms |} ])
                  | None => past !! dim
                  end)).
  - intros dim. rewrite lookup_empty. reflexivity.
  - intros key atoms m r Hfresh IH dim. unfold pushPastBucket. cbv zeta.
    destruct (decide (key = dim)) as [->|Hne].
    + rewrite !lookup_insert_eq. rewrite IH, Hfresh. reflexivity.
    + rewrite !lookup_insert_ne by exact Hne. apply IH.
Qed.

End Aggregation.

(** C2. [flushCurrentBucketLocked] closes the bucket at
    [min(eventTimeNs, fullBucketEndNs)]. If the bucket is at least
    [minBucketSizeNs] long, every dimension of the current sliced bucket
    gets one more bucket at the back of its list in [mPastBuckets], with
    these bounds and with the atoms of the dimension grouped by
    [AtomDimensionKey] into timestamp lists, and [mSkippedBuckets] is
    untouched. Otherwise [mPastBuckets] is untouched, and only an active
    producer appends a skipped bucket, with these bounds and a
    BUCKET_TOO_SMALL drop event at the event time (the drop event is left
    out when the drop events are at their cap). So one flush never adds to
    both. *)
Theorem flushCurrentBucketLocked_spec (cfg : Config) (p : Producer)
    (eventTimeNs nextBucketStartTimeNs : Z) :
  let startNs := mCurrentBucketStartTimeNs p in
  let endNs := Z.min eventTimeNs (getCurrentBucketEndTimeNs cfg p) in
  let q := flushCurrentBucketLocked cfg p eventTimeNs nextBucketStartTimeNs in
  (mMinBucketSizeNs cfg <= Int64.sub endNs startNs ->
   (forall dim,
      mPastBuckets q !! dim
      = match mCurrentSlicedBucket p !! dim with
        | Some atoms =>
            Some (default [] (mPastBuckets p !! dim)
                  ++ [ {| mBucketStartNs := startNs; mBucketEndNs := endNs;
                          mAggregatedAtoms := aggregateAtoms cfg atoms |} ])
        | None => mPastBuckets p !! dim
        end)
   /\ mSkippedBuckets q = mSkippedBuckets p)
  /\ (Int64.sub endNs startNs < mMinBucketSizeNs cfg ->
      mPastBuckets q = mPastBuckets p
      /\ mSkippedBuckets q
         = if mIsActive p
           then mSkippedBuckets p
                ++ [ {| bucketStartTimeNs := startNs;
                        bucketEndTimeNs := endNs;
                        dropEvents :=
                          dropEvents (mCurrentSkippedBucket p)
                          ++ (if maxDropEventsReached p then []
                              else [ {| reason := BUCKET_TOO_SMALL;
                                        dropTimeNs := eventTimeNs |} ]) |} ]
           else mSkippedBuckets p)
  /\ (forall atoms key,
        aggregateAtoms cfg atoms !! key
        = match timestampsOf cfg key atoms with [] => None | ts => Some ts end)
  /\ (mPastBuckets q = mPastBuckets p \/ mSkippedBuckets q = mSkippedBuckets p).
Proof.
  intros startNs endNs q.
  assert (Hend : (if eventTimeNs <? getCurrentBucketEndTimeNs cfg p
                  then eventTimeNs else getCurrentBucketEndTimeNs cfg p) = endNs).
  { subst endNs. destruct (Z.ltb_spec eventTimeNs (getCurrentBucketEndTimeNs cfg p)); lia. }
  assert (Hlarge :
    mMinBucketSizeNs cfg <= Int64.sub endNs startNs ->
    mPastBuckets q
    = map_fold (pushPastBucket cfg startNs endNs) (mPastBuckets p) (mCurrentSlicedBucket p)
    /\ mSkippedBuckets q = mSkippedBuckets p).
  { intros Hle. apply Z.leb_le in Hle. subst q.
    unfold flushCurrentBucketLocked. cbv zeta. rewrite Hend. fold startNs.
    rewrite Hle.
    destruct (0 <? _)%nat; [destruct (getCurrentBucketEndTimeNs cfg p <? _)|];
      split; reflexivity. }
  assert (Hsmall :
    Int64.sub endNs startNs < mMinBucketSizeNs cfg ->
    mPastBuckets q = mPastBuckets p
    /\ mSkippedBuckets q
       = if mIsActive p
         then mSkippedBuckets p
              ++ [ {| bucketStartTimeNs := startNs;
                      bucketEndTimeNs := endNs;
                      dropEvents :=
                        dropEvents (mCurrentSkippedBucket p)
                        ++ (if maxDropEventsReached p then []
                            else [ {| reason := BUCKET_TOO_SMALL;
                                      dropTimeNs := eventTimeNs |} ]) |} ]
         else mSkippedBuckets p).
  { intros Hlt. apply Z.leb_gt in Hlt. subst q.
    unfold flushCurrentBucketLocked. cbv zeta. rewrite Hend. fold startNs.
    rewrite Hlt. unfold buildDropEvent.
    destruct (maxDropEventsReached p); destruct (mIsActive p);
      (destruct (0 <? _)%nat; [destruct (getCurrentBucketEndTimeNs cfg p <? _)|]);
      rewrite ?app_nil_r; split; reflexivity. }
  split; [|split; [exact Hsmall|split]].
  - intros Hle. destruct (Hlarge Hle) as [Hpast Hskipped].
    split; [|exact Hskipped].
    intros dim. rewrite Hpast. apply pushPastBucket_fold_lookup.
  - intros atoms key. apply aggregateAtoms_lookup.
  - destruct (Z.le_gt_cases (mMinBucketSizeNs cfg) (Int64.sub endNs startNs)) as [Hle|Hlt].
    + right. apply (Hlarge Hle).
    + left. apply (Hsmall Hlt).
Qed.

Lemma flushCurrentBucketLocked_spec_witness :
  let p :=
    run Sample.minSizeConfig Sample.collaborators
        [OnMatchedLogEvent (Sample.event 1 1 (INT 5))] Sample.fresh in
  mPastBuckets (flushCurrentBucketLocked Sample.minSizeConfig p 12 10) !! Sample.dimension 1
  = Some [ {| mBucketStartNs := 0; mBucketEndNs := 10;
              mAggregatedAtoms := {[ (100, [ ((100, 1), INT 1); ((100, 2), INT 5) ]) := [1] ]} |} ]
  /\ mSkippedBuckets (flushCurrentBucketLocked Sample.minSizeConfig p 3 3)
     = [ {| bucketStartTimeNs := 0; bucketEndTimeNs := 3;
            dropEvents := [ {| reason := BUCKET_TOO_SMALL; dropTimeNs := 3 |} ] |} ].
Proof.
  intros p.
  destruct (flushCurrentBucketLocked_spec Sample.minSizeConfig p 12 10) as [Hlarge _].
  destruct (flushCurrentBucketLocked_spec Sample.minSizeConfig p 3 3) as [_ [Hsmall _]].
  split.
  - destruct Hlarge as [Hpast _]; [vm_compute; discriminate|].
    rewrite Hpast. vm_compute. reflexivity.
  - destruct Hsmall as [_ Hskipped]; [vm_compute; reflexivity|].
    rewrite Hskipped. vm_compute. reflexivity.
Defined.

(** ** C6: late events *)

(** C6. An event whose elapsed timestamp lies strictly before the start of
    the current bucket changes nothing: the append path returns the
    producer it was given, for every dimension key and condition, and so
    does the delivery of the event through [onMatchedLogEvent]. In
    particular the current sliced bucket, the past and skipped buckets and
    the bucket number and start time are as before. *)
Theorem late_event_leaves_state_unchanged (cfg : Config) (env : Collaborators)
    (p : Producer) (event : LogEvent) :
  GetElapsedTimestampNs event < mCurrentBucketStartTimeNs p ->
  (forall eventKey condition,
     onMatchedLogEventInternalLocked cfg env (pullAndMatchEventsLocked cfg env)
       p eventKey condition event = p)
  /\ perform cfg env p (OnMatchedLogEvent event) = p.
Proof.
  intros Hlate. apply Z.ltb_lt in Hlate.
  assert (Hinternal : forall eventKey condition,
            onMatchedLogEventInternalLocked cfg env (pullAndMatchEventsLocked cfg env)
              p eventKey condition event = p).
  { intros eventKey condition. unfold onMatchedLogEventInternalLocked.
    destruct (negb condition); [reflexivity|].
    destruct (_ && _); [reflexivity|].
    cbv zeta. rewrite Hlate. reflexivity. }
  split; [exact Hinternal|].
  cbn [perform]. unfold onMatchedLogEventLocked.
  destruct (negb (mIsActive p)); [reflexivity|]. cbv zeta.
  induction (dimensionKeysOf env event) as [|eventKey keys IH]; [reflexivity|].
  cbn [fold_left]. rewrite Hinternal. exact IH.
Qed.

Lemma late_event_leaves_state_unchanged_witness :
  let p := flushIfNeededLocked Sample.pushConfig Sample.fresh 100 in
  mCurrentBucketStartTimeNs p = 100
  /\ perform Sample.pushConfig Sample.collaborators p
       (OnMatchedLogEvent (Sample.event 50 1 (INT 5))) = p.
Proof.
  intros p. split; [vm_compute; reflexivity|].
  apply (late_event_leaves_state_unchanged Sample.pushConfig Sample.collaborators
           p (Sample.event 50 1 (INT 5))).
  vm_compute. reflexivity.
Defined.

(** ** C10: dropData and clearPastBuckets *)

(** C10. [dropDataLocked] flushes at the drop time and then clears the
    past buckets only: the skipped buckets are those the flush left,
    including one it may just have added, and the dimension guardrail flag
    is the one the producer had. [clearPastBucketsLocked] flushes and
    clears the past buckets and the skipped buckets. *)
Theorem dropData_keeps_skipped_buckets (cfg : Config) (p : Producer) (timeNs : Z) :
  let flushed := flushIfNeededLocked cfg p timeNs in
  (mPastBuckets (dropDataLocked cfg p timeNs) = ∅
   /\ mSkippedBuckets (dropDataLocked cfg p timeNs) = mSkippedBuckets flushed
   /\ mDimensionGuardrailHit (dropDataLocked cfg p timeNs) = mDimensionGuardrailHit p
   /\ dropDataLocked cfg p timeNs
      = set_mPastBuckets ∅ (note (noteBucketDropped (mMetricId cfg)) flushed))
  /\ (mPastBuckets (clearPastBucketsLocked cfg p timeNs) = ∅
      /\ mSkippedBuckets (clearPastBucketsLocked cfg p timeNs) = []
      /\ mDimensionGuardrailHit (clearPastBucketsLocked cfg p timeNs)
         = mDimensionGuardrailHit p
      /\ clearPastBucketsLocked cfg p timeNs
         = set_mSkippedBuckets [] (set_mPastBuckets ∅ flushed)).
Proof.
  intros flushed. unfold dropDataLocked, clearPastBucketsLocked. fold flushed.
  pose proof (flushIfNeededLocked_mDimensionGuardrailHit cfg p timeNs) as Hflag.
  fold flushed in Hflag.
  repeat split; try reflexivity; cbn; exact Hflag.
Qed.

(** A too-small bucket closed by the flush of [dropDataLocked] stays in
    the skipped buckets, while [clearPastBucketsLocked] removes it. *)
Example dropData_keeps_fresh_skipped_bucket :
  let cfg :=
    {| mMetricId := 7; mTimeBaseNs := 0; mBucketSizeNs := 10; mMinBucketSizeNs := 20;
       mWhatMatcherIndex := 0; mPullTagId := -1; mTriggerAtomId := -1; mAtomId := 100;
       mSamplingType := FIRST_N_SAMPLES; isRandomNSamples := true;
       mMaxPullDelayNs := 50;
       mDimensionSoftLimit := 1; mDimensionHardLimit := 2;
       mGaugeAtomsPerDimensionLimit := 10;
       mSamplingPercentage := 100; mFieldMatchers := []; mDimensionsInWhat := [];
       mShouldUseNestedDimensions := false; mConditionSliced := false |} in
  mSkippedBuckets (dropDataLocked cfg Sample.fresh 12)
  = [ {| bucketStartTimeNs := 0; bucketEndTimeNs := 10;
         dropEvents := [ {| reason := BUCKET_TOO_SMALL; dropTimeNs := 12 |} ] |} ]
  /\ mSkippedBuckets (clearPastBucketsLocked cfg Sample.fresh 12) = [].
Proof. vm_compute. split; reflexivity. Qed.

(** ** C9: erasing data on a dump *)

Section DumpFacts.

Context (cfg : Config).

Lemma flushedForDump_mDimensionGuardrailHit p dumpTimeNs include :
  mDimensionGuardrailHit (flushedForDump cfg p dumpTimeNs include)
  = mDimensionGuardrailHit p.
Proof.
  unfold flushedForDump, flushLocked. destruct include.
  - rewrite flushCurrentBucketLocked_mDimensionGuardrailHit.
    apply flushIfNeededLocked_mDimensionGuardrailHit.
  - apply flushIfNeededLocked_mDimensionGuardrailHit.
Qed.

Lemma nothingToReport_true p :
  nothingToReport p = true <-> mPastBuckets p = ∅ /\ mSkippedBuckets p = [].
Proof.
  unfold nothingToReport. rewrite andb_true_iff, !bool_decide_eq_true. reflexivity.
Qed.

End DumpFacts.

(** C9, as the code has it. After a dump with [erase_data = true] the past
    buckets and the skipped buckets are empty. The dimension guardrail
    flag is cleared when the flushed producer had a past or a skipped
    bucket to report; when it had none, the dump returns before it erases
    and the flag keeps its value. *)
Theorem onDumpReport_erase_data (cfg : Config) (p : Producer) (dumpTimeNs : Z)
    (include_current_partial_bucket : bool) :
  let flushed := flushedForDump cfg p dumpTimeNs include_current_partial_bucket in
  let q := fst (onDumpReportLocked cfg p dumpTimeNs include_current_partial_bucket true) in
  mPastBuckets q = ∅
  /\ mSkippedBuckets q = []
  /\ (nothingToReport flushed = false -> mDimensionGuardrailHit q = false)
  /\ (nothingToReport flushed = true ->
      mDimensionGuardrailHit q = mDimensionGuardrailHit p /\ q = flushed).
Proof.
  intros flushed q. subst q. unfold onDumpReportLocked.
  change (if include_current_partial_bucket
          then flushLocked cfg p dumpTimeNs
          else flushIfNeededLocked cfg p dumpTimeNs) with flushed.
  cbv zeta. fold (nothingToReport flushed).
  destruct (nothingToReport flushed) eqn:Hnothing; cbn [fst].
  - apply nothingToReport_true in Hnothing as [Hpast Hskipped].
    repeat split; try assumption; try discriminate.
    apply flushedForDump_mDimensionGuardrailHit.
  - repeat split; try reflexivity; discriminate.
Qed.

Lemma onDumpReport_erase_data_witness :
  let p :=
    run Sample.pushConfig Sample.collaborators
        [ OnMatchedLogEvent (Sample.event 1 1 (INT 5));
          OnMatchedLogEvent (Sample.event 2 2 (INT 5));
          OnMatchedLogEvent (Sample.event 3 3 (INT 5)) ] Sample.fresh in
  mDimensionGuardrailHit p = true
  /\ mDimensionGuardrailHit (fst (onDumpReportLocked Sample.pushConfig p 12 false true))
     = false.
Proof.
  intros p. split; [vm_compute; reflexivity|].
  destruct (onDumpReport_erase_data Sample.pushConfig p 12 false) as (_ & _ & Hclear & _).
  apply Hclear. vm_compute. reflexivity.
Defined.

(** The claim as stated fails: a producer that hit the guardrail in its
    current bucket and is dumped, with [erase_data = true], before that
    bucket ends has nothing to report, and its flag stays raised. *)
Lemma onDumpReport_erase_keeps_flag_counterexample :
  let p :=
    run Sample.pushConfig Sample.collaborators
        [ OnMatchedLogEvent (Sample.event 1 1 (INT 5));
          OnMatchedLogEvent (Sample.event 2 2 (INT 5));
          OnMatchedLogEvent (Sample.event 3 3 (INT 5)) ] Sample.fresh in
  let q := fst (onDumpReportLocked Sample.pushConfig p 5 false true) in
  ~ (mPastBuckets q = ∅ /\ mSkippedBuckets q = [] /\ mDimensionGuardrailHit q = false).
Proof.
  intros p q (_ & _ & Hflag).
  assert (Htrue : mDimensionGuardrailHit q = true) by (vm_compute; reflexivity).
  rewrite Htrue in Hflag. exact (diff_true_false Hflag).
Qed.

(** ** C5: pulls that come back too late *)

Section PullFacts.

Context (cfg : Config) (env : Collaborators).

(** The defining equation of [pullAndMatchEventsLocked] at the outermost
    call: the pulls nested in it run with the fuel that is left. *)
Lemma pullAndMatchEventsLocked_unfold p timestampNs :
  pullAndMatchEventsLocked cfg env p timestampNs
  = pullAndMatchEventsBody cfg env
      (pullAndMatchEventsFuel cfg env (length (pullerAnswers (world p))))
      p timestampNs.
Proof. reflexivity. Qed.

End PullFacts.

(** C5. When the latency observed after a successful pull exceeds
    [maxPullDelayNs], [pullAndMatchEventsLocked] appends none of the atoms
    of the answer: the producer is as before except that the pull was
    made and the delay and the exceed event are recorded in the statistics
    sink. [onDataPulled] does the same with the latency measured from the
    original pull time, and it leaves the producer untouched when the
    result is not a success or the batch is empty. *)
Theorem pull_too_late_discards (cfg : Config) (env : Collaborators) (p : Producer) :
  (forall timestampNs answer rest,
     triggerPuller cfg p = true ->
     pullerAnswers (world p) = answer :: rest ->
     pullSucceeded answer = true ->
     mMaxPullDelayNs cfg < Int64.sub (elapsedRealtimeAfterPull answer) timestampNs ->
     let q := pullAndMatchEventsLocked cfg env p timestampNs in
     q = set_world
           {| statsdStats :=
                statsdStats (world p)
                ++ [ notePullDelay (mPullTagId cfg)
                       (Int64.sub (elapsedRealtimeAfterPull answer) timestampNs);
                     notePullExceedMaxDelay (mPullTagId cfg) ];
              anomalyCalls := anomalyCalls (world p);
              pullerCalls := pullerCalls (world p) ++ [ (mPullTagId cfg, timestampNs) ];
              pullerAnswers := rest |} p
     /\ mCurrentSlicedBucket q = mCurrentSlicedBucket p)
  /\ (forall allData originalPullTimeNs elapsedRealtimeNs,
        allData <> [] ->
        mMaxPullDelayNs cfg < Int64.sub elapsedRealtimeNs originalPullTimeNs ->
        let q := onDataPulled cfg env p allData PULL_RESULT_SUCCESS
                   originalPullTimeNs elapsedRealtimeNs in
        q = set_world
              {| statsdStats :=
                   statsdStats (world p)
                   ++ [ notePullDelay (mPullTagId cfg)
                          (Int64.sub elapsedRealtimeNs originalPullTimeNs);
                        notePullExceedMaxDelay (mPullTagId cfg) ];
                 anomalyCalls := anomalyCalls (world p);
                 pullerCalls := pullerCalls (world p);
                 pullerAnswers := pullerAnswers (world p) |} p
        /\ mCurrentSlicedBucket q = mCurrentSlicedBucket p)
  /\ (forall allData pullResult originalPullTimeNs elapsedRealtimeNs,
        pullResult <> PULL_RESULT_SUCCESS \/ allData = [] ->
        onDataPulled cfg env p allData pullResult originalPullTimeNs elapsedRealtimeNs = p).
Proof.
  split; [|split].
  - intros timestampNs answer rest Htrigger Hanswers Hok Hlate q.
    assert (Hq : q = set_world
           {| statsdStats :=
                statsdStats (world p)
                ++ [ notePullDelay (mPullTagId cfg)
                       (Int64.sub (elapsedRealtimeAfterPull answer) timestampNs);
                     notePullExceedMaxDelay (mPullTagId cfg) ];
              anomalyCalls := anomalyCalls (world p);
              pullerCalls := pullerCalls (world p) ++ [ (mPullTagId cfg, timestampNs) ];
              pullerAnswers := rest |} p).
    { subst q. rewrite pullAndMatchEventsLocked_unfold.
      unfold pullAndMatchEventsBody. rewrite Htrigger. cbn [negb].
      unfold Pull. rewrite Hanswers. rewrite Hok. cbn [negb]. cbv zeta.
      apply Z.ltb_lt in Hlate. rewrite Hlate.
      unfold note, set_world. cbn. rewrite <- app_assoc. reflexivity. }
    split; [exact Hq|]. rewrite Hq. reflexivity.
  - intros allData originalPullTimeNs elapsedRealtimeNs Hdata Hlate q.
    assert (Hq : q = set_world
              {| statsdStats :=
                   statsdStats (world p)
                   ++ [ notePullDelay (mPullTagId cfg)
                          (Int64.sub elapsedRealtimeNs originalPullTimeNs);
                        notePullExceedMaxDelay (mPullTagId cfg) ];
                 anomalyCalls := anomalyCalls (world p);
                 pullerCalls := pullerCalls (world p);
                 pullerAnswers := pullerAnswers (world p) |} p).
    { subst q. unfold onDataPulled. cbn [isPullSuccess negb orb].
      destruct allData as [|data allData]; [congruence|]. cbn [length Nat.eqb].
      cbv zeta. apply Z.ltb_lt in Hlate. rewrite Hlate.
      unfold note, set_world. cbn. rewrite <- app_assoc. reflexivity. }
    split; [exact Hq|]. rewrite Hq. reflexivity.
  - intros allData pullResult originalPullTimeNs elapsedRealtimeNs Hdiscard.
    unfold onDataPulled.
    destruct Hdiscard as [Hresult| ->].
    + destruct pullResult; [congruence| |]; reflexivity.
    + rewrite orb_true_r. reflexivity.
Qed.

Lemma pull_too_late_discards_witness :
  let answer :=
    {| pullSucceeded := true;
       pulledData := [ Sample.event 75 1 (INT 5) ];
       elapsedRealtimeAfterPull := 75 |} in
  let p :=
    set_world {| statsdStats := []; anomalyCalls := []; pullerCalls := [];
                 pullerAnswers := [ answer ] |} Sample.fresh in
  (mCurrentSlicedBucket
     (pullAndMatchEventsLocked Sample.pullConfig Sample.collaborators p 5) = ∅
   /\ statsdStats
        (world (pullAndMatchEventsLocked Sample.pullConfig Sample.collaborators p 5))
      = [ notePullDelay 200 70; notePullExceedMaxDelay 200 ])
  /\ statsdStats
       (world (onDataPulled Sample.pullConfig Sample.collaborators p
                 [ Sample.event 75 1 (INT 5) ] PULL_RESULT_SUCCESS 5 75))
     = [ notePullDelay 200 70; notePullExceedMaxDelay 200 ]
  /\ onDataPulled Sample.pullConfig Sample.collaborators p
       [ Sample.event 75 1 (INT 5) ] PULL_RESULT_FAIL 5 6 = p.
Proof.
  intros answer p.
  destruct (pull_too_late_discards Sample.pullConfig Sample.collaborators p)
    as (Hsync & Hasync & Hdiscard).
  split; [|split].
  - destruct (Hsync 5 answer []) as [Hq Hbucket];
      [vm_compute; reflexivity | reflexivity | reflexivity | vm_compute; reflexivity |].
    split; [rewrite Hbucket; reflexivity|].
    rewrite Hq. vm_compute. reflexivity.
  - destruct (Hasync [ Sample.event 75 1 (INT 5) ] 5 75) as [Hq _];
      [discriminate | vm_compute; reflexivity |].
    rewrite Hq. vm_compute. reflexivity.
  - apply Hdiscard. left. discriminate.
Defined.

(** ** C7: bucket numbers and bucket times in the report *)

Section ReportFacts.

Context (cfg : Config).

Lemma hasField_app fieldId (items items' : list ProtoItem) :
  hasField fieldId (items ++ items') = hasField fieldId items || hasField fieldId items'.
Proof. unfold hasField. apply existsb_app. Qed.

(** The aggregated atoms are all written under their own field number. *)
Lemma hasField_aggregated_atoms fieldId (entries : list (AtomDimensionKey * list Z)) :
  fieldId <> FIELD_ID_AGGREGATED_ATOM ->
  hasField fieldId (map (writeAggregatedAtom cfg) entries) = false.
Proof.
  intros Hid. induction entries as [|[key timestamps] entries IH]; [reflexivity|].
  cbn [map hasField existsb writeAggregatedAtom fieldIdOf].
  rewrite bool_decide_eq_false_2 by congruence.
  exact IH.
Qed.

(** What the dump writes when it has something to report. *)
Lemma onDumpReportLocked_gauge_metrics p dumpTimeNs include erase_data :
  let flushed := flushedForDump cfg p dumpTimeNs include in
  nothingToReport flushed = false ->
  In (message FIELD_ID_GAUGE_METRICS
        (map (writeSkippedBucket) (mSkippedBuckets flushed)
         ++ map (writeData cfg) (map_to_list (mPastBuckets flushed))))
     (snd (onDumpReportLocked cfg p dumpTimeNs include erase_data)).
Proof.
  intros flushed Hsome. unfold onDumpReportLocked.
  change (if include then flushLocked cfg p dumpTimeNs
          else flushIfNeededLocked cfg p dumpTimeNs) with flushed.
  cbv zeta. fold (nothingToReport flushed). rewrite Hsome. cbn [snd].
  rewrite !in_app_iff. do 4 right. left. reflexivity.
Qed.

End ReportFacts.

(** C7. In the report, every past bucket of the flushed producer is
    written as a bucket-info message inside the data message of its
    dimension. If the bucket's end minus its start equals the bucket size,
    the message carries the bucket number
    [(endNs - timeBaseNs) / bucketSizeNs - 1] and neither a start nor an
    end time; if not, it carries the start and the end in milliseconds and
    no bucket number. *)
Theorem report_bucket_num_or_times (cfg : Config) (p : Producer) (dumpTimeNs : Z)
    (include_current_partial_bucket erase_data : bool)
    (dim : MetricDimensionKey) (buckets : list GaugeBucket) (bucket : GaugeBucket) :
  let flushed := flushedForDump cfg p dumpTimeNs include_current_partial_bucket in
  let protoOutput :=
    snd (onDumpReportLocked cfg p dumpTimeNs include_current_partial_bucket erase_data) in
  mPastBuckets flushed !! dim = Some buckets ->
  In bucket buckets ->
  exists metrics data info,
    In (message FIELD_ID_GAUGE_METRICS metrics) protoOutput
    /\ In (message FIELD_ID_DATA data) metrics
    /\ message FIELD_ID_DATA data = writeData cfg (dim, buckets)
    /\ In (message FIELD_ID_BUCKET_INFO info) data
    /\ message FIELD_ID_BUCKET_INFO info = writeBucketInfo cfg bucket
    /\ (Int64.sub (mBucketEndNs bucket) (mBucketStartNs bucket) = mBucketSizeNs cfg ->
        In (write_int64 FIELD_ID_BUCKET_NUM
              (Int64.sub (Int64.div (Int64.sub (mBucketEndNs bucket) (mTimeBaseNs cfg))
                                    (mBucketSizeNs cfg)) 1)) info
        /\ hasField FIELD_ID_START_BUCKET_ELAPSED_MILLIS info = false
        /\ hasField FIELD_ID_END_BUCKET_ELAPSED_MILLIS info = false)
    /\ (Int64.sub (mBucketEndNs bucket) (mBucketStartNs bucket) <> mBucketSizeNs cfg ->
        In (write_int64 FIELD_ID_START_BUCKET_ELAPSED_MILLIS
              (NanoToMillis (mBucketStartNs bucket))) info
        /\ In (write_int64 FIELD_ID_END_BUCKET_ELAPSED_MILLIS
                 (NanoToMillis (mBucketEndNs bucket))) info
        /\ hasField FIELD_ID_BUCKET_NUM info = false).
Proof.
  intros flushed protoOutput Hlookup Hbucket.
  assert (Hsome : nothingToReport flushed = false).
  { destruct (nothingToReport flushed) eqn:Hnothing; [|reflexivity].
    apply nothingToReport_true in Hnothing as [Hpast _].
    rewrite Hpast, lookup_empty in Hlookup. discriminate. }
  pose proof (onDumpReportLocked_gauge_metrics cfg p dumpTimeNs
                include_current_partial_bucket erase_data Hsome) as Hmetrics.
  fold flushed in Hmetrics. fold protoOutput in Hmetrics.
  eexists _, _, _.
  split; [exact Hmetrics|].
  split.
  { apply in_app_iff. right.
    apply (in_map (writeData cfg) _ (dim, buckets)).
    apply list_elem_of_In, elem_of_map_to_list. exact Hlookup. }
  split; [reflexivity|].
  split.
  { right. apply (in_map (writeBucketInfo cfg) _ bucket). exact Hbucket. }
  split; [reflexivity|].
  split.
  - intros Hfull. apply Z.eqb_eq in Hfull. rewrite Hfull. cbn [negb].
    split; [left; reflexivity|].
    rewrite !hasField_app, !hasField_aggregated_atoms by discriminate.
    split; reflexivity.
  - intros Hpartial. apply Z.eqb_neq in Hpartial. rewrite Hpartial. cbn [negb].
    split; [left; reflexivity|].
    split; [right; left; reflexivity|].
    rewrite !hasField_app, !hasField_aggregated_atoms by discriminate.
    reflexivity.
Qed.

Lemma report_bucket_num_or_times_witness :
  let p :=
    run Sample.pushConfig Sample.collaborators
        [ OnMatchedLogEvent (Sample.event 1 1 (INT 5));
          OnMatchedLogEvent (Sample.event 11 1 (INT 5)) ] Sample.fresh in
  let atomKey : AtomDimensionKey := (100, [ ((100, 1), INT 1); ((100, 2), INT 5) ]) in
  let full :=
    {| mBucketStartNs := 0; mBucketEndNs := 10; mAggregatedAtoms := {[ atomKey := [1] ]} |} in
  let partial :=
    {| mBucketStartNs := 10; mBucketEndNs := 15; mAggregatedAtoms := {[ atomKey := [11] ]} |} in
  (exists info,
     message FIELD_ID_BUCKET_INFO info = writeBucketInfo Sample.pushConfig full
     /\ In (write_int64 FIELD_ID_BUCKET_NUM 0) info
     /\ hasField FIELD_ID_START_BUCKET_ELAPSED_MILLIS info = false)
  /\ (exists info,
        message FIELD_ID_BUCKET_INFO info = writeBucketInfo Sample.pushConfig partial
        /\ In (write_int64 FIELD_ID_END_BUCKET_ELAPSED_MILLIS (NanoToMillis 15)) info
        /\ hasField FIELD_ID_BUCKET_NUM info = false).
Proof.
  intros p atomKey full partial.
  assert (Hlookup : mPastBuckets (flushedForDump Sample.pushConfig p 15 true)
                      !! Sample.dimension 1 = Some [full; partial])
    by (vm_compute; reflexivity).
  split.
  - destruct (report_bucket_num_or_times Sample.pushConfig p 15 true false
                (Sample.dimension 1) [full; partial] full Hlookup)
      as (metrics & data & info & _ & _ & _ & _ & Hinfo & Hfull & _);
      [left; reflexivity|].
    exists info. split; [exact Hinfo|].
    destruct Hfull as (Hnum & Hstart & _); [vm_compute; reflexivity|].
    split; [exact Hnum | exact Hstart].
  - destruct (report_bucket_num_or_times Sample.pushConfig p 15 true false
                (Sample.dimension 1) [full; partial] partial Hlookup)
      as (metrics & data & info & _ & _ & _ & _ & Hinfo & _ & Hpartial);
      [right; left; reflexivity|].
    exists info. split; [exact Hinfo|].
    destruct Hpartial as (_ & Hend & Hnum); [vm_compute; discriminate|].
    split; [exact Hend | exact Hnum].
Defined.

(** ** C8: the anomaly hook of the append path *)

Section AppendFacts.

Context (cfg : Config) (env : Collaborators).

Lemma hitGuardRailLocked_frame p newKey :
  let q := snd (hitGuardRailLocked cfg p newKey) in
  mCurrentSlicedBucket q = mCurrentSlicedBucket p
  /\ mAnomalyTrackers q = mAnomalyTrackers p
  /\ mCurrentBucketNum q = mCurrentBucketNum p
  /\ anomalyCalls (world q) = anomalyCalls (world p)
  /\ pullerAnswers (world q) = pullerAnswers (world p)
  /\ mPastBuckets q = mPastBuckets p
  /\ mSkippedBuckets q = mSkippedBuckets p
  /\ mCurrentSkippedBucket q = mCurrentSkippedBucket p.
Proof.
  unfold hitGuardRailLocked.
  destruct (decide _); [repeat split|].
  destruct (_ <=? _)%nat; [|repeat split].
  destruct (_ <? _)%nat; repeat split.
Qed.

(** The state after an event that reaches the append. *)
Lemma onMatchedLogEventInternalLocked_append pullAndMatch p eventKey condition event :
  reachesAppend cfg env p eventKey condition event = true ->
  let p1 := flushIfNeededLocked cfg p (GetElapsedTimestampNs event) in
  let p2 := snd (hitGuardRailLocked cfg p1 eventKey) in
  let gaugeAtom :=
    {| mFields := getGaugeFields cfg env event;
       mElapsedTimestampNs := truncateTimestampIfNecessary env event |} in
  let p4 :=
    set_mCurrentSlicedBucket
      (<[eventKey := default [] (mCurrentSlicedBucket p1 !! eventKey) ++ [gaugeAtom]]>
         (mCurrentSlicedBucket p1)) p2 in
  onMatchedLogEventInternalLocked cfg env pullAndMatch p eventKey condition event
  = tellTrackers
      (anomalyCallsOnAppend cfg p4 (GetElapsedTimestampNs event) eventKey gaugeAtom) p4.
Proof.
  unfold reachesAppend, reachesGuardrail. cbv zeta.
  rewrite !andb_true_iff, !negb_true_iff.
  intros ((((((Hcond & Hsample) & Hlate) & Htrigger) & Hone) & Hhit) & Hlimit).
  unfold onMatchedLogEventInternalLocked.
  rewrite Hcond. cbn [negb]. rewrite Hsample. cbv zeta.
  rewrite Hlate, Htrigger, Hone.
  pose proof (hitGuardRailLocked_frame
                (flushIfNeededLocked cfg p (GetElapsedTimestampNs event)) eventKey)
    as (Hcur & _).
  destruct (hitGuardRailLocked cfg _ eventKey) as [hit p2] eqn:Hguard.
  cbn [fst snd] in *. subst hit.
  rewrite Hcur. rewrite Hlimit.
  cbn [mCurrentSlicedBucket set_mCurrentSlicedBucket].
  rewrite insert_insert_eq. reflexivity.
Qed.

(** The state after an event the guardrail refuses. *)
Lemma onMatchedLogEventInternalLocked_rejected pullAndMatch p eventKey condition event :
  reachesGuardrail cfg env p eventKey condition event = true ->
  let p1 := flushIfNeededLocked cfg p (GetElapsedTimestampNs event) in
  fst (hitGuardRailLocked cfg p1 eventKey) = true ->
  onMatchedLogEventInternalLocked cfg env pullAndMatch p eventKey condition event
  = snd (hitGuardRailLocked cfg p1 eventKey).
Proof.
  unfold reachesGuardrail. cbv zeta.
  rewrite !andb_true_iff, !negb_true_iff.
  intros ((((Hcond & Hsample) & Hlate) & Htrigger) & Hone) Hhit.
  unfold onMatchedLogEventInternalLocked.
  rewrite Hcond. cbn [negb]. rewrite Hsample. cbv zeta.
  rewrite Hlate, Htrigger, Hone.
  destruct (hitGuardRailLocked cfg _ eventKey) as [hit p2].
  cbn [fst snd] in *. subst hit. reflexivity.
Qed.

End AppendFacts.

(** C8, as the code has it. When an event reaches the append, its gauge
    atom goes to the back of the list of its dimension, and the anomaly
    trackers are called if and only if some tracker is attached and the
    atom has exactly one field, of whatever type: then every tracker is
    called once with the event time, the bucket number, the metric id, the
    dimension, and the integer value of the field when the field is an INT
    or a LONG and 0 when it is not. *)
Theorem anomaly_trackers_informed (cfg : Config) (env : Collaborators)
    (p : Producer) (eventKey : MetricDimensionKey) (condition : bool)
    (event : LogEvent) :
  reachesAppend cfg env p eventKey condition event = true ->
  let p1 := flushIfNeededLocked cfg p (GetElapsedTimestampNs event) in
  let q :=
    onMatchedLogEventInternalLocked cfg env (pullAndMatchEventsLocked cfg env)
      p eventKey condition event in
  let fields := getGaugeFields cfg env event in
  mCurrentSlicedBucket q !! eventKey
  = Some (default [] (mCurrentSlicedBucket p1 !! eventKey)
          ++ [ {| mFields := fields;
                  mElapsedTimestampNs := truncateTimestampIfNecessary env event |} ])
  /\ anomalyCalls (world q)
     = anomalyCalls (world p1)
       ++ match fields with
          | [fv] =>
              map (fun tracker =>
                     detectAndDeclareAnomaly tracker (GetElapsedTimestampNs event)
                       (mCurrentBucketNum p1) (mMetricId cfg) eventKey
                       (match mValue fv with
                        | INT int_value => int_value
                        | LONG long_value => long_value
                        | _ => 0
                        end))
                  (seq 0 (mAnomalyTrackers p))
          | _ => []
          end
  /\ (anomalyCalls (world q) <> anomalyCalls (world p1)
      <-> (0 < mAnomalyTrackers p)%nat /\ length fields = 1%nat).
Proof.
  intros Hreach p1 q fields.
  pose proof (onMatchedLogEventInternalLocked_append cfg env
                (pullAndMatchEventsLocked cfg env) p eventKey condition event Hreach) as Hq.
  cbv zeta in Hq. fold p1 fields q in Hq.
  pose proof (hitGuardRailLocked_frame cfg p1 eventKey)
    as (_ & Htrackers & Hnum & Hcalls & _).
  cbv zeta in Htrackers, Hnum, Hcalls.
  pose proof (flushIfNeededLocked_mAnomalyTrackers cfg p (GetElapsedTimestampNs event))
    as Htrackers1.
  fold p1 in Htrackers1.
  set (calls := match fields with
                | [fv] =>
                    map (fun tracker =>
                           detectAndDeclareAnomaly tracker (GetElapsedTimestampNs event)
                             (mCurrentBucketNum p1) (mMetricId cfg) eventKey
                             (match mValue fv with
                              | INT int_value => int_value
                              | LONG long_value => long_value
                              | _ => 0
                              end))
                        (seq 0 (mAnomalyTrackers p))
                | _ => []
                end).
  assert (Hcallsq : anomalyCalls (world q) = anomalyCalls (world p1) ++ calls).
  { rewrite Hq.
    cbn [tellTrackers set_world world anomalyCalls set_mCurrentSlicedBucket].
    rewrite Hcalls. f_equal.
    unfold anomalyCallsOnAppend.
    cbn [mAnomalyTrackers set_mCurrentSlicedBucket mCurrentBucketNum mFields].
    rewrite Htrackers, Htrackers1, Hnum. subst calls.
    destruct (0 <? mAnomalyTrackers p)%nat eqn:Hattached.
    - destruct fields as [|fv [|fv' fields']]; reflexivity.
    - apply Nat.ltb_ge in Hattached.
      assert (Hzero : mAnomalyTrackers p = 0%nat) by lia. rewrite Hzero.
      destruct fields as [|fv [|fv' fields']]; reflexivity. }
  split; [|split; [exact Hcallsq|]].
  - rewrite Hq. cbn [tellTrackers set_world mCurrentSlicedBucket set_mCurrentSlicedBucket].
    apply lookup_insert_eq.
  - rewrite Hcallsq. subst calls. split.
    + intros Hchanged.
      destruct fields as [|fv [|fv' fields']];
        try (rewrite app_nil_r in Hchanged; congruence).
      destruct (mAnomalyTrackers p) as [|n];
        [cbn in Hchanged; rewrite app_nil_r in Hchanged; congruence|].
      split; [lia | reflexivity].
    + intros [Hattached Hone].
      destruct fields as [|fv [|fv' fields']]; try discriminate.
      destruct (mAnomalyTrackers p) as [|n]; [lia|].
      cbn [seq map]. intros Heq.
      apply (f_equal (@length AnomalyCall)) in Heq.
      rewrite length_app in Heq. cbn [length] in Heq. lia.
Qed.

Lemma anomaly_trackers_informed_witness :
  let p := addAnomalyTracker Sample.fresh in
  let q :=
    onMatchedLogEventInternalLocked Sample.slicedConfig Sample.collaborators
      (pullAndMatchEventsLocked Sample.slicedConfig Sample.collaborators)
      p (Sample.dimension 1) true (Sample.event 1 1 (LONG 5)) in
  mCurrentSlicedBucket q !! Sample.dimension 1
  = Some [ {| mFields := [ ((100, 2), LONG 5) ]; mElapsedTimestampNs := 1 |} ]
  /\ anomalyCalls (world q) = [ detectAndDeclareAnomaly 0 1 0 7 (Sample.dimension 1) 5 ].
Proof.
  intros p q.
  destruct (anomaly_trackers_informed Sample.slicedConfig Sample.collaborators
              p (Sample.dimension 1) true (Sample.event 1 1 (LONG 5)))
    as (Hbucket & Hcalls & _); [vm_compute; reflexivity|].
  split.
  - etransitivity; [exact Hbucket|]. vm_compute. reflexivity.
  - etransitivity; [exact Hcalls|]. vm_compute. reflexivity.
Defined.

(** The claim as stated fails: an atom whose only field is a string has
    no numeric field, and the attached tracker is called all the same,
    with the value 0. *)
Lemma anomaly_tracker_informed_without_numeric_field_counterexample :
  let p := addAnomalyTracker Sample.fresh in
  let q :=
    onMatchedLogEventInternalLocked Sample.slicedConfig Sample.collaborators
      (pullAndMatchEventsLocked Sample.slicedConfig Sample.collaborators)
      p (Sample.dimension 1) true (Sample.event 1 1 (STRING "a")) in
  mCurrentSlicedBucket q !! Sample.dimension 1
  = Some [ {| mFields := [ ((100, 2), STRING "a") ]; mElapsedTimestampNs := 1 |} ]
  /\ anomalyCalls (world q) = [ detectAndDeclareAnomaly 0 1 0 7 (Sample.dimension 1) 0 ]
  /\ ~ (anomalyCalls (world q) <> anomalyCalls (world p)
        <-> length (numericFields [ ((100, 2), STRING "a") ]) = 1%nat).
Proof.
  intros p q.
  assert (Hcalls : anomalyCalls (world q)
                   = [ detectAndDeclareAnomaly 0 1 0 7 (Sample.dimension 1) 0 ])
    by (vm_compute; reflexivity).
  split; [vm_compute; reflexivity|]. split; [exact Hcalls|].
  intros [Hinformed _].
  assert (Hnone : length (numericFields [ ((100, 2), STRING "a") ]) = 0%nat) by reflexivity.
  rewrite Hnone in Hinformed.
  assert (Hneq : anomalyCalls (world q) <> anomalyCalls (world p)).
  { rewrite Hcalls. discriminate. }
  specialize (Hinformed Hneq). discriminate.
Qed.

(** ** How the current sliced bucket evolves

    Every operation changes the current sliced bucket by resetting it or
    by touching the list of one dimension behind the guards of the append
    path, none adds to the answers the puller has left, and none writes
    the accumulator of the current skipped bucket except to reset it. The
    invariants of the bucket and the termination of the nested pulls
    follow from this. *)

Section Evolution.

Context (cfg : Config) (env : Collaborators).

Lemma follows_refl p : follows cfg p p.
Proof. split; [apply rtc_refl | split; [lia | left; reflexivity]]. Qed.

Lemma follows_trans p q r : follows cfg p q -> follows cfg q r -> follows cfg p r.
Proof.
  intros (Hpq & Hlen & Hacc) (Hqr & Hlen' & Hacc'). split; [|split; [lia|]].
  - eapply rtc_trans; eassumption.
  - destruct Hacc' as [Hsame|Hreset]; [|right; exact Hreset].
    rewrite Hsame. exact Hacc.
Qed.

Lemma follows_same p q :
  mCurrentSlicedBucket q = mCurrentSlicedBucket p ->
  pullerAnswers (world q) = pullerAnswers (world p) ->
  mCurrentSkippedBucket q = mCurrentSkippedBucket p ->
  follows cfg p q.
Proof.
  intros Hcur Hanswers Hacc. unfold follows, answersLeft.
  rewrite Hcur, Hanswers. split; [apply rtc_refl | split; [lia | left; exact Hacc]].
Qed.

Lemma follows_fold {A} (step : Producer -> A -> Producer) (l : list A) p :
  (forall q x, follows cfg q (step q x)) -> follows cfg p (fold_left step l p).
Proof.
  intros Hstep. revert p. induction l as [|x l IH]; intros p; [apply follows_refl|].
  cbn [fold_left]. eapply follows_trans; [apply Hstep | apply IH].
Qed.

Lemma follows_flushCurrentBucketLocked p eventTimeNs nextNs :
  follows cfg p (flushCurrentBucketLocked cfg p eventTimeNs nextNs).
Proof.
  split; [|split].
  - rewrite flushCurrentBucketLocked_mCurrentSlicedBucket.
    apply rtc_once, bucket_reset.
  - unfold answersLeft. rewrite flushCurrentBucketLocked_pullerAnswers. lia.
  - right. reflexivity.
Qed.

Lemma follows_flushIfNeededLocked p eventTimeNs :
  follows cfg p (flushIfNeededLocked cfg p eventTimeNs).
Proof.
  split; [|split].
  - rewrite flushIfNeededLocked_mCurrentSlicedBucket.
    destruct (_ <? _); [apply rtc_refl | apply rtc_once, bucket_reset].
  - unfold answersLeft. rewrite flushIfNeededLocked_pullerAnswers. lia.
  - unfold flushIfNeededLocked.
    destruct (_ <? _); [left | right]; reflexivity.
Qed.

Lemma follows_flushLocked p eventTimeNs : follows cfg p (flushLocked cfg p eventTimeNs).
Proof.
  unfold flushLocked. eapply follows_trans;
    [apply follows_flushIfNeededLocked | apply follows_flushCurrentBucketLocked].
Qed.

(** What a refusal of the guardrail means for the bucket. *)
Lemma hitGuardRailLocked_false p newKey :
  fst (hitGuardRailLocked cfg p newKey) = false ->
  mCurrentSlicedBucket p !! newKey = None ->
  (size (mCurrentSlicedBucket p) < mDimensionSoftLimit cfg)%nat
  \/ (size (mCurrentSlicedBucket p) + 1 <= mDimensionHardLimit cfg)%nat.
Proof.
  unfold hitGuardRailLocked. intros Hhit Hfresh.
  destruct (decide _) as [Hin|_].
  { rewrite Hfresh in Hin. destruct Hin; discriminate. }
  destruct (Nat.leb_spec (mDimensionSoftLimit cfg) (size (mCurrentSlicedBucket p)));
    [|left; lia].
  destruct (Nat.ltb_spec (mDimensionHardLimit cfg) (size (mCurrentSlicedBucket p) + 1));
    [discriminate | right; lia].
Qed.

(** The append path, with any pull that respects [follows]. *)
Lemma follows_onMatchedLogEventInternalLocked pullAndMatch p eventKey condition event :
  (forall q t, follows cfg q (pullAndMatch q t)) ->
  follows cfg p (onMatchedLogEventInternalLocked cfg env pullAndMatch
               p eventKey condition event).
Proof.
  intros Hpull. unfold onMatchedLogEventInternalLocked.
  destruct (negb condition); [apply follows_refl|].
  destruct (_ && _); [apply follows_refl|]. cbv zeta.
  destruct (_ <? _); [apply follows_refl|].
  eapply follows_trans; [apply (follows_flushIfNeededLocked p)|].
  set (p1 := flushIfNeededLocked cfg p (GetElapsedTimestampNs event)).
  destruct (_ =? _); [apply Hpull|].
  destruct (bool_decide (is_Some (mCurrentSlicedBucket p1 !! eventKey))
            && isRandomOneSample (mSamplingType cfg)) eqn:Hone;
    [apply follows_refl|].
  pose proof (hitGuardRailLocked_frame cfg p1 eventKey)
    as (Hcur & _ & _ & _ & Hans & _ & _ & Hacc).
  pose proof (hitGuardRailLocked_false p1 eventKey) as Hguard.
  destruct (hitGuardRailLocked cfg p1 eventKey) as [hit p2].
  cbn [fst snd] in *.
  destruct hit; [apply follows_same; assumption|].
  assert (Hrandom : is_Some (mCurrentSlicedBucket p1 !! eventKey) ->
                    mSamplingType cfg <> RANDOM_ONE_SAMPLE).
  { intros Hin Hsampling. rewrite Hsampling in Hone.
    rewrite bool_decide_eq_true_2 in Hone by exact Hin. discriminate. }
  rewrite Hcur.
  destruct (_ <=? _)%nat eqn:Hlimit.
  - split; [|split].
    + cbn [mCurrentSlicedBucket set_mCurrentSlicedBucket].
      apply rtc_once.
      rewrite <- (app_nil_r (default [] (mCurrentSlicedBucket p1 !! eventKey))) at 1.
      apply bucket_touch; [auto | exact Hrandom | left; reflexivity].
    + unfold answersLeft. cbn [world set_mCurrentSlicedBucket].
      rewrite Hans. exact (Nat.le_refl _).
    + left. exact Hacc.
  - split; [|split].
    + cbn [mCurrentSlicedBucket set_mCurrentSlicedBucket tellTrackers set_world].
      rewrite insert_insert_eq.
      apply rtc_once, bucket_touch; [auto | exact Hrandom |].
      right. eexists. split; [reflexivity|].
      apply Nat.leb_gt in Hlimit. exact Hlimit.
    + unfold answersLeft.
      cbn [world set_mCurrentSlicedBucket tellTrackers set_world pullerAnswers].
      rewrite Hans. exact (Nat.le_refl _).
    + left. exact Hacc.
Qed.

Lemma follows_onMatchedLogEventLocked pullAndMatch p event :
  (forall q t, follows cfg q (pullAndMatch q t)) ->
  follows cfg p (onMatchedLogEventLocked cfg env pullAndMatch p event).
Proof.
  intros Hpull. unfold onMatchedLogEventLocked.
  destruct (negb (mIsActive p)); [apply follows_refl|]. cbv zeta.
  apply follows_fold. intros q eventKey.
  apply follows_onMatchedLogEventInternalLocked, Hpull.
Qed.

Lemma follows_matchAndAppend pullAndMatch stamp allData p :
  (forall q t, follows cfg q (pullAndMatch q t)) ->
  follows cfg p (matchAndAppend cfg env pullAndMatch stamp allData p).
Proof.
  intros Hpull. unfold matchAndAppend. apply follows_fold. intros q data.
  destruct (matchLogEvent env data (mWhatMatcherIndex cfg)) as [[] transformed];
    try apply follows_refl.
  apply follows_onMatchedLogEventLocked, Hpull.
Qed.

(** A pull keeps the bucket and consumes an answer when it gets one. *)
Lemma Pull_frame pullTagId timestampNs p :
  let '(answer, q) := Pull pullTagId timestampNs p in
  mCurrentSlicedBucket q = mCurrentSlicedBucket p
  /\ mCurrentSkippedBucket q = mCurrentSkippedBucket p
  /\ match answer with
     | Some _ => S (answersLeft q) = answersLeft p
     | None => answersLeft q = answersLeft p
     end.
Proof.
  unfold Pull, answersLeft. cbv zeta.
  destruct (pullerAnswers (world p)) as [|a rest] eqn:Hanswers;
    cbn; rewrite ?Hanswers; repeat split; reflexivity.
Qed.

Lemma follows_pullAndMatchEventsBody self p timestampNs :
  (forall q t, follows cfg q (self q t)) ->
  follows cfg p (pullAndMatchEventsBody cfg env self p timestampNs).
Proof.
  intros Hself. unfold pullAndMatchEventsBody.
  destruct (negb (triggerPuller cfg p)); [apply follows_refl|].
  pose proof (Pull_frame (mPullTagId cfg) timestampNs p) as Hpull.
  destruct (Pull (mPullTagId cfg) timestampNs p) as [[answer|] p1];
    destruct Hpull as (Hcur & Hacc & Hleft).
  - assert (Hp1 : follows cfg p p1).
    { split; [rewrite Hcur; apply rtc_refl | split; [lia | left; exact Hacc]]. }
    destruct (negb (pullSucceeded answer)); [exact Hp1|]. cbv zeta.
    eapply follows_trans; [exact Hp1|].
    destruct (_ <? _); [apply follows_same; reflexivity|].
    eapply follows_trans; [|apply follows_matchAndAppend, Hself].
    apply follows_same; reflexivity.
  - split; [rewrite Hcur; apply rtc_refl | split; [lia | left; exact Hacc]].
Qed.

Lemma follows_pullAndMatchEventsFuel fuel p timestampNs :
  follows cfg p (pullAndMatchEventsFuel cfg env fuel p timestampNs).
Proof.
  revert p timestampNs. induction fuel as [|fuel IH]; intros p timestampNs.
  - apply follows_refl.
  - cbn [pullAndMatchEventsFuel]. apply follows_pullAndMatchEventsBody, IH.
Qed.

Lemma follows_pullAndMatchEventsLocked p timestampNs :
  follows cfg p (pullAndMatchEventsLocked cfg env p timestampNs).
Proof. apply follows_pullAndMatchEventsFuel. Qed.

Lemma follows_perform p op : follows cfg p (perform cfg env p op).
Proof.
  destruct op; cbn [perform].
  - apply follows_onMatchedLogEventLocked. intros q t.
    apply follows_pullAndMatchEventsLocked.
  - unfold onConditionChangedLocked. cbv zeta.
    set (p1 := set_mCondition _ p).
    assert (Hp1 : follows cfg p p1) by (apply follows_same; reflexivity).
    destruct (negb _); [exact Hp1|].
    eapply follows_trans; [exact Hp1|].
    eapply follows_trans; [apply follows_flushIfNeededLocked|].
    destruct (_ && _); [apply follows_pullAndMatchEventsLocked | apply follows_refl].
  - unfold onSlicedConditionMayChangeLocked. cbv zeta.
    set (p1 := set_mCondition _ p).
    assert (Hp1 : follows cfg p p1) by (apply follows_same; reflexivity).
    destruct (negb _); [exact Hp1|].
    eapply follows_trans; [exact Hp1|].
    eapply follows_trans; [apply follows_flushIfNeededLocked|].
    destruct (_ && _); [apply follows_pullAndMatchEventsLocked | apply follows_refl].
  - unfold onDataPulled. destruct (_ || _); [apply follows_refl|]. cbv zeta.
    destruct (_ <? _); [apply follows_same; reflexivity|].
    eapply follows_trans; [|apply follows_matchAndAppend; intros q t;
                             apply follows_pullAndMatchEventsLocked].
    apply follows_same; reflexivity.
  - unfold onDumpReportLocked. cbv zeta.
    fold (flushedForDump cfg p dumpTimeNs include_current_partial_bucket).
    assert (Hflushed : follows cfg p (flushedForDump cfg p dumpTimeNs
                                    include_current_partial_bucket)).
    { unfold flushedForDump. destruct include_current_partial_bucket;
        [apply follows_flushLocked | apply follows_flushIfNeededLocked]. }
    destruct (_ && _); cbn [fst]; [exact Hflushed|].
    destruct erase_data; [|exact Hflushed].
    eapply follows_trans; [exact Hflushed | apply follows_same; reflexivity].
  - unfold clearPastBucketsLocked.
    eapply follows_trans; [apply follows_flushIfNeededLocked|].
    apply follows_same; reflexivity.
  - unfold dropDataLocked.
    eapply follows_trans; [apply follows_flushIfNeededLocked|].
    apply follows_same; reflexivity.
  - unfold prepareFirstBucketLocked.
    destruct (_ && _); [apply follows_pullAndMatchEventsLocked | apply follows_refl].
  - unfold onActiveStateChangedLocked. cbv zeta.
    assert (Hfirst : follows cfg p (if negb isActive then flushLocked cfg p eventTimeNs else p)).
    { destruct (negb isActive); [apply follows_flushLocked | apply follows_refl]. }
    destruct (negb (isTrue _)); [exact Hfirst|].
    destruct (_ && _); [|exact Hfirst].
    eapply follows_trans; [exact Hfirst | apply follows_pullAndMatchEventsLocked].
  - apply follows_same; reflexivity.
  - apply follows_flushLocked.
  - apply follows_same; reflexivity.
Qed.

Lemma follows_run ops p : follows cfg p (run cfg env ops p).
Proof. unfold run. apply follows_fold. intros q op. apply follows_perform. Qed.

End Evolution.

(** ** The nested pulls terminate

    The fuel of [pullAndMatchEventsLocked] never runs out: with more fuel
    than answers left the result does not depend on the fuel, so the
    function satisfies the recursive equation of the source. *)

Section Termination.

Context (cfg : Config) (env : Collaborators).

Lemma fold_left_agree {A} (step step' : Producer -> A -> Producer)
    (l : list A) (p : Producer) (bound : nat) :
  (forall q x, follows cfg q (step q x)) ->
  (forall q x, (answersLeft q <= bound)%nat -> step q x = step' q x) ->
  (answersLeft p <= bound)%nat ->
  fold_left step l p = fold_left step' l p.
Proof.
  intros Hfollows Hagree. revert p.
  induction l as [|x l IH]; intros p Hbound; [reflexivity|].
  cbn [fold_left]. rewrite <- (Hagree p x Hbound). apply IH.
  destruct (Hfollows p x) as (_ & Hleft & _). lia.
Qed.

Lemma onMatchedLogEventInternalLocked_agree f g p eventKey condition event bound :
  (forall q t, (answersLeft q <= bound)%nat -> f q t = g q t) ->
  (answersLeft p <= bound)%nat ->
  onMatchedLogEventInternalLocked cfg env f p eventKey condition event
  = onMatchedLogEventInternalLocked cfg env g p eventKey condition event.
Proof.
  intros Hagree Hbound. unfold onMatchedLogEventInternalLocked.
  destruct (negb condition); [reflexivity|].
  destruct (_ && _); [reflexivity|]. cbv zeta.
  destruct (_ <? _); [reflexivity|].
  destruct (_ =? _); [|reflexivity].
  apply Hagree. unfold answersLeft in *.
  rewrite flushIfNeededLocked_pullerAnswers. exact Hbound.
Qed.

Lemma onMatchedLogEventLocked_agree f g p event bound :
  (forall q t, follows cfg q (f q t)) ->
  (forall q t, (answersLeft q <= bound)%nat -> f q t = g q t) ->
  (answersLeft p <= bound)%nat ->
  onMatchedLogEventLocked cfg env f p event = onMatchedLogEventLocked cfg env g p event.
Proof.
  intros Hfollows Hagree Hbound. unfold onMatchedLogEventLocked.
  destruct (negb (mIsActive p)); [reflexivity|]. cbv zeta.
  apply (fold_left_agree _ _ _ _ bound); [| |exact Hbound].
  - intros q eventKey.
    apply follows_onMatchedLogEventInternalLocked, Hfollows.
  - intros q eventKey Hq.
    apply (onMatchedLogEventInternalLocked_agree _ _ _ _ _ _ bound); assumption.
Qed.

Lemma matchAndAppend_agree f g stamp allData p bound :
  (forall q t, follows cfg q (f q t)) ->
  (forall q t, (answersLeft q <= bound)%nat -> f q t = g q t) ->
  (answersLeft p <= bound)%nat ->
  matchAndAppend cfg env f stamp allData p = matchAndAppend cfg env g stamp allData p.
Proof.
  intros Hfollows Hagree Hbound. unfold matchAndAppend.
  apply (fold_left_agree _ _ _ _ bound); [| |exact Hbound].
  - intros q data.
    destruct (matchLogEvent env data (mWhatMatcherIndex cfg)) as [[] transformed];
      try apply follows_refl.
    apply follows_onMatchedLogEventLocked, Hfollows.
  - intros q data Hq.
    destruct (matchLogEvent env data (mWhatMatcherIndex cfg)) as [[] transformed];
      try reflexivity.
    apply (onMatchedLogEventLocked_agree _ _ _ _ bound); assumption.
Qed.

Lemma pullAndMatchEventsBody_agree f g p timestampNs :
  (forall q t, follows cfg q (f q t)) ->
  (forall q t, (answersLeft q < answersLeft p)%nat -> f q t = g q t) ->
  pullAndMatchEventsBody cfg env f p timestampNs
  = pullAndMatchEventsBody cfg env g p timestampNs.
Proof.
  intros Hfollows Hagree. unfold pullAndMatchEventsBody.
  destruct (negb (triggerPuller cfg p)); [reflexivity|].
  pose proof (Pull_frame (mPullTagId cfg) timestampNs p) as Hpull.
  destruct (Pull (mPullTagId cfg) timestampNs p) as [[answer|] p1];
    [|reflexivity].
  destruct Hpull as (_ & _ & Hleft).
  destruct (negb (pullSucceeded answer)); [reflexivity|]. cbv zeta.
  destruct (_ <? _); [reflexivity|].
  apply (matchAndAppend_agree _ _ _ _ _ (answersLeft p1)).
  - exact Hfollows.
  - intros q t Hq. apply Hagree. lia.
  - unfold answersLeft. cbn. lia.
Qed.

Lemma pullAndMatchEventsFuel_enough fuel fuel' p timestampNs :
  (answersLeft p < fuel)%nat ->
  (answersLeft p < fuel')%nat ->
  pullAndMatchEventsFuel cfg env fuel p timestampNs
  = pullAndMatchEventsFuel cfg env fuel' p timestampNs.
Proof.
  revert fuel' p timestampNs.
  induction fuel as [|fuel IH]; intros fuel' p timestampNs Hfuel Hfuel'; [lia|].
  destruct fuel' as [|fuel']; [lia|].
  cbn [pullAndMatchEventsFuel].
  apply pullAndMatchEventsBody_agree.
  - intros q t. apply follows_pullAndMatchEventsFuel.
  - intros q t Hq. apply IH; lia.
Qed.

(** The recursive equation of [pullAndMatchEventsLocked]: the pulls that
    the appended data triggers are calls of the function itself. *)
Lemma pullAndMatchEventsLocked_equation p timestampNs :
  pullAndMatchEventsLocked cfg env p timestampNs
  = pullAndMatchEventsBody cfg env (pullAndMatchEventsLocked cfg env) p timestampNs.
Proof.
  rewrite pullAndMatchEventsLocked_unfold.
  apply pullAndMatchEventsBody_agree.
  - intros q t. apply follows_pullAndMatchEventsFuel.
  - intros q t Hq. unfold pullAndMatchEventsLocked.
    apply pullAndMatchEventsFuel_enough; unfold answersLeft in *; lia.
Qed.

End Termination.

(** ** Invariants of the current sliced bucket *)

Section BucketInvariants.

Context (cfg : Config) (env : Collaborators).

Lemma bucketStep_size (m m' : gmap MetricDimensionKey (list GaugeAtom)) :
  bucketStep cfg m m' ->
  (size m <= dimensionBound cfg)%nat -> (size m' <= dimensionBound cfg)%nat.
Proof.
  unfold dimensionBound.
  intros [m0 | m0 key extra Hguard _ _] Hsize.
  - rewrite map_size_empty. lia.
  - destruct (m0 !! key) as [atoms|] eqn:Hkey.
    + rewrite map_size_insert_Some by (rewrite Hkey; eexists; reflexivity).
      exact Hsize.
    + rewrite map_size_insert_None by exact Hkey.
      destruct (Hguard eq_refl); lia.
Qed.

Lemma rtc_bucketStep_size (m m' : gmap MetricDimensionKey (list GaugeAtom)) :
  rtc (bucketStep cfg) m m' ->
  (size m <= dimensionBound cfg)%nat -> (size m' <= dimensionBound cfg)%nat.
Proof.
  induction 1 as [|m1 m2 m3 Hstep _ IH]; [trivial|].
  intros Hsize. apply IH. eapply bucketStep_size; eassumption.
Qed.

Lemma bucketStep_oneAtom (m m' : gmap MetricDimensionKey (list GaugeAtom)) :
  mSamplingType cfg = RANDOM_ONE_SAMPLE ->
  bucketStep cfg m m' -> oneAtomPerDimension m -> oneAtomPerDimension m'.
Proof.
  intros Hsampling [m0 | m0 key extra _ Hrandom Hextra] Hone key' atoms' Hlookup.
  - rewrite lookup_empty in Hlookup. discriminate.
  - destruct (decide (key = key')) as [<-|Hne].
    + rewrite lookup_insert_eq in Hlookup. injection Hlookup as <-.
      destruct (m0 !! key) as [atoms|] eqn:Hkey.
      { exfalso. apply Hrandom; [eexists; reflexivity | exact Hsampling]. }
      cbn [default option.from_option app].
      destruct Hextra as [-> | (atom & -> & _)]; cbn [length]; lia.
    + rewrite lookup_insert_ne in Hlookup by exact Hne.
      eapply Hone; eassumption.
Qed.

Lemma rtc_bucketStep_oneAtom (m m' : gmap MetricDimensionKey (list GaugeAtom)) :
  mSamplingType cfg = RANDOM_ONE_SAMPLE ->
  rtc (bucketStep cfg) m m' -> oneAtomPerDimension m -> oneAtomPerDimension m'.
Proof.
  intros Hsampling. induction 1 as [|m1 m2 m3 Hstep _ IH]; [trivial|].
  intros Hone. apply IH. eapply bucketStep_oneAtom; eassumption.
Qed.

Lemma bucketStep_atomLimit (m m' : gmap MetricDimensionKey (list GaugeAtom)) :
  bucketStep cfg m m' -> withinAtomLimit cfg m -> withinAtomLimit cfg m'.
Proof.
  intros [m0 | m0 key extra _ _ Hextra] Hlimit key' atoms' Hlookup.
  - rewrite lookup_empty in Hlookup. discriminate.
  - destruct (decide (key = key')) as [<-|Hne].
    + rewrite lookup_insert_eq in Hlookup. injection Hlookup as <-.
      destruct Hextra as [-> | (atom & -> & Hroom)].
      * rewrite app_nil_r.
        destruct (m0 !! key) as [atoms|] eqn:Hkey; cbn; [|lia].
        eapply Hlimit; eassumption.
      * rewrite length_app. cbn [length]. lia.
    + rewrite lookup_insert_ne in Hlookup by exact Hne.
      eapply Hlimit; eassumption.
Qed.

Lemma run_withinAtomLimit ops p :
  withinAtomLimit cfg (mCurrentSlicedBucket p) ->
  withinAtomLimit cfg (mCurrentSlicedBucket (run cfg env ops p)).
Proof.
  destruct (follows_run cfg env ops p) as [Hrtc _].
  induction Hrtc as [|m1 m2 m3 Hstep _ IH]; [trivial|].
  intros Hlimit. apply IH. eapply bucketStep_atomLimit; eassumption.
Qed.

(** The accumulator of the current skipped bucket is only written by
    [flushCurrentBucketLocked], which resets it before it returns: once
    reset it is reset after every sequence of operations, and the cap on
    its drop events is never reached. *)
Lemma run_mCurrentSkippedBucket ops p :
  mCurrentSkippedBucket p = SkippedBucket_reset ->
  mCurrentSkippedBucket (run cfg env ops p) = SkippedBucket_reset
  /\ maxDropEventsReached (run cfg env ops p) = false.
Proof.
  intros Hreset.
  assert (Hafter : mCurrentSkippedBucket (run cfg env ops p) = SkippedBucket_reset).
  { destruct (follows_run cfg env ops p) as (_ & _ & [Hsame|Hrun]);
      [rewrite Hsame; exact Hreset | exact Hrun]. }
  split; [exact Hafter|].
  unfold maxDropEventsReached. rewrite Hafter. reflexivity.
Qed.

(** When the guardrail says yes. *)
Lemma hitGuardRailLocked_true p newKey :
  fst (hitGuardRailLocked cfg p newKey) = true
  <-> mCurrentSlicedBucket p !! newKey = None
      /\ (mDimensionSoftLimit cfg <= size (mCurrentSlicedBucket p))%nat
      /\ (mDimensionHardLimit cfg < size (mCurrentSlicedBucket p) + 1)%nat.
Proof.
  unfold hitGuardRailLocked.
  destruct (decide (is_Some (mCurrentSlicedBucket p !! newKey))) as [Hin|Hout].
  { cbn [fst]. split; [discriminate|].
    intros (Hfresh & _). rewrite Hfresh in Hin. destruct Hin; discriminate. }
  assert (Hfresh : mCurrentSlicedBucket p !! newKey = None).
  { destruct (mCurrentSlicedBucket p !! newKey) eqn:Hkey; [|reflexivity].
    exfalso. apply Hout. eexists; reflexivity. }
  destruct (Nat.leb_spec (mDimensionSoftLimit cfg) (size (mCurrentSlicedBucket p)));
    [|cbn [fst]; split; [discriminate | lia]].
  destruct (Nat.ltb_spec (mDimensionHardLimit cfg) (size (mCurrentSlicedBucket p) + 1));
    cbn [fst]; split; try discriminate; try lia; auto.
Qed.

Lemma hitGuardRailLocked_latches p newKey :
  fst (hitGuardRailLocked cfg p newKey) = true ->
  mDimensionGuardrailHit (snd (hitGuardRailLocked cfg p newKey)) = true.
Proof.
  unfold hitGuardRailLocked.
  destruct (decide _); [discriminate|].
  destruct (_ <=? _)%nat; [|discriminate].
  destruct (_ <? _)%nat; [reflexivity | discriminate].
Qed.

End BucketInvariants.

(** ** C3: the dimension guardrail *)

(** C3, as the code has it. The hard limit is tested only once the soft
    limit is reached: [hitGuardRailLocked] returns true exactly when the
    key is not in the current sliced bucket, the bucket has reached
    [dimensionSoftLimit] keys and one more key would exceed
    [dimensionHardLimit]. In that case the dimension-guardrail-hit flag of
    the report is raised, the bucket is left as it is, and an event that
    got as far as the guardrail is rejected. Hence, over every sequence of
    operations, the current sliced bucket holds at most
    [max(dimensionSoftLimit, dimensionHardLimit)] keys, which is
    [dimensionHardLimit] when the soft limit does not exceed the hard
    one. *)
Theorem dimension_guardrail (cfg : Config) (env : Collaborators) :
  (forall ops p,
     (size (mCurrentSlicedBucket p)
      <= Nat.max (mDimensionSoftLimit cfg) (mDimensionHardLimit cfg))%nat ->
     (size (mCurrentSlicedBucket (run cfg env ops p))
      <= Nat.max (mDimensionSoftLimit cfg) (mDimensionHardLimit cfg))%nat)
  /\ (forall p newKey,
        fst (hitGuardRailLocked cfg p newKey) = true
        <-> mCurrentSlicedBucket p !! newKey = None
            /\ (mDimensionSoftLimit cfg <= size (mCurrentSlicedBucket p))%nat
            /\ (mDimensionHardLimit cfg < size (mCurrentSlicedBucket p) + 1)%nat)
  /\ (forall p newKey,
        fst (hitGuardRailLocked cfg p newKey) = true ->
        mDimensionGuardrailHit (snd (hitGuardRailLocked cfg p newKey)) = true
        /\ mCurrentSlicedBucket (snd (hitGuardRailLocked cfg p newKey))
           = mCurrentSlicedBucket p)
  /\ (forall p eventKey condition event,
        let p1 := flushIfNeededLocked cfg p (GetElapsedTimestampNs event) in
        let q :=
          onMatchedLogEventInternalLocked cfg env (pullAndMatchEventsLocked cfg env)
            p eventKey condition event in
        reachesGuardrail cfg env p eventKey condition event = true ->
        fst (hitGuardRailLocked cfg p1 eventKey) = true ->
        mCurrentSlicedBucket q = mCurrentSlicedBucket p1
        /\ mCurrentSlicedBucket q !! eventKey = None
        /\ mDimensionGuardrailHit q = true).
Proof.
  split; [|split; [|split]].
  - intros ops p Hsize.
    destruct (follows_run cfg env ops p) as [Hrtc _].
    exact (rtc_bucketStep_size cfg _ _ Hrtc Hsize).
  - intros p newKey. apply hitGuardRailLocked_true.
  - intros p newKey Hhit. split.
    + apply hitGuardRailLocked_latches. exact Hhit.
    + apply hitGuardRailLocked_frame.
  - intros p eventKey condition event p1 q Hreach Hhit.
    subst q.
    rewrite (onMatchedLogEventInternalLocked_rejected cfg env _ _ _ _ _ Hreach Hhit).
    fold p1.
    pose proof (hitGuardRailLocked_frame cfg p1 eventKey) as (Hcur & _).
    cbv zeta in Hcur. rewrite Hcur.
    split; [reflexivity|]. split.
    + apply hitGuardRailLocked_true in Hhit. apply Hhit.
    + apply hitGuardRailLocked_latches. exact Hhit.
Qed.

(** With the soft limit at or below the hard limit, as the limits of the
    statistics sink are, the bound is the hard limit and the guardrail
    answers yes exactly when one more key would exceed it. *)
Corollary dimension_guardrail_soft_below_hard (cfg : Config) (env : Collaborators) :
  (mDimensionSoftLimit cfg <= mDimensionHardLimit cfg)%nat ->
  (forall ops p,
     (size (mCurrentSlicedBucket p) <= mDimensionHardLimit cfg)%nat ->
     (size (mCurrentSlicedBucket (run cfg env ops p)) <= mDimensionHardLimit cfg)%nat)
  /\ (forall p newKey,
        fst (hitGuardRailLocked cfg p newKey) = true
        <-> mCurrentSlicedBucket p !! newKey = None
            /\ (mDimensionHardLimit cfg < size (mCurrentSlicedBucket p) + 1)%nat).
Proof.
  intros Hlimits.
  assert (Hmax : dimensionBound cfg = mDimensionHardLimit cfg)
    by (unfold dimensionBound; lia).
  split.
  { intros ops p Hsize. rewrite <- Hmax in *.
    destruct (follows_run cfg env ops p) as [Hrtc _].
    exact (rtc_bucketStep_size cfg _ _ Hrtc Hsize). }
  intros p newKey. rewrite hitGuardRailLocked_true. split.
  - intros (Hfresh & _ & Hhard). split; assumption.
  - intros (Hfresh & Hhard). repeat split; [assumption | lia | assumption].
Qed.

Lemma dimension_guardrail_witness :
  let p2 :=
    run Sample.pushConfig Sample.collaborators
        [ OnMatchedLogEvent (Sample.event 1 1 (INT 5));
          OnMatchedLogEvent (Sample.event 2 2 (INT 5)) ] Sample.fresh in
  (size (mCurrentSlicedBucket
           (run Sample.pushConfig Sample.collaborators
                [ OnMatchedLogEvent (Sample.event 1 1 (INT 5));
                  OnMatchedLogEvent (Sample.event 2 2 (INT 5));
                  OnMatchedLogEvent (Sample.event 3 3 (INT 5)) ] Sample.fresh))
   <= 2)%nat
  /\ mDimensionGuardrailHit
       (onMatchedLogEventInternalLocked Sample.pushConfig Sample.collaborators
          (pullAndMatchEventsLocked Sample.pushConfig Sample.collaborators)
          p2 (Sample.dimension 3) true (Sample.event 3 3 (INT 5))) = true.
Proof.
  intros p2.
  destruct (dimension_guardrail Sample.pushConfig Sample.collaborators)
    as (Hbound & _ & _ & Hreject).
  split.
  - apply (Hbound _ Sample.fresh). vm_compute. lia.
  - destruct (Hreject p2 (Sample.dimension 3) true (Sample.event 3 3 (INT 5)))
      as (_ & _ & Hflag);
      [vm_compute; reflexivity | vm_compute; reflexivity | exact Hflag].
Defined.

(** The claim as stated fails for a producer whose soft limit (3) lies
    above its hard limit (1): with one key in the bucket a second key
    would exceed the hard limit, yet the guardrail lets it in, and the
    bucket then holds two keys. *)
Lemma dimension_guardrail_soft_above_hard_counterexample :
  let cfg := Sample.softAboveHardConfig in
  let p :=
    run cfg Sample.collaborators
        [ OnMatchedLogEvent (Sample.event 1 1 (INT 5)) ] Sample.fresh in
  let q :=
    run cfg Sample.collaborators
        [ OnMatchedLogEvent (Sample.event 1 1 (INT 5));
          OnMatchedLogEvent (Sample.event 2 2 (INT 5)) ] Sample.fresh in
  ~ (fst (hitGuardRailLocked cfg p (Sample.dimension 2)) = true
     <-> mCurrentSlicedBucket p !! Sample.dimension 2 = None
         /\ (mDimensionHardLimit cfg < size (mCurrentSlicedBucket p) + 1)%nat)
  /\ ~ (size (mCurrentSlicedBucket q) <= mDimensionHardLimit cfg)%nat.
Proof.
  intros cfg p q.
  assert (Hhit : fst (hitGuardRailLocked cfg p (Sample.dimension 2)) = false)
    by (vm_compute; reflexivity).
  assert (Hfresh : mCurrentSlicedBucket p !! Sample.dimension 2 = None)
    by (vm_compute; reflexivity).
  assert (Hsizep : size (mCurrentSlicedBucket p) = 1%nat) by (vm_compute; reflexivity).
  assert (Hsizeq : size (mCurrentSlicedBucket q) = 2%nat) by (vm_compute; reflexivity).
  assert (Hhard : mDimensionHardLimit cfg = 1%nat) by reflexivity.
  split.
  - intros [_ Hback]. rewrite Hhit, Hsizep, Hhard in Hback.
    assert (Habsurd : false = true) by (apply Hback; split; [exact Hfresh | lia]).
    exact (diff_false_true Habsurd).
  - rewrite Hsizeq, Hhard. clear. lia.
Qed.

(** ** C4: one random sample per bucket *)

(** C4. Under RANDOM_ONE_SAMPLE every dimension of the current sliced
    bucket holds at most one gauge atom, over every sequence of
    operations. [pullAndMatchEventsLocked] calls the puller only when the
    current sliced bucket is empty; when it is not empty the call returns
    the producer unchanged, and so does any number of such calls: no atom
    is appended. *)
Theorem random_one_sample (cfg : Config) (env : Collaborators) :
  mSamplingType cfg = RANDOM_ONE_SAMPLE ->
  (forall ops p,
     (forall key atoms,
        mCurrentSlicedBucket p !! key = Some atoms -> (length atoms <= 1)%nat) ->
     forall key atoms,
       mCurrentSlicedBucket (run cfg env ops p) !! key = Some atoms ->
       (length atoms <= 1)%nat)
  /\ (forall p timestampNs,
        pullerCalls (world (pullAndMatchEventsLocked cfg env p timestampNs))
        <> pullerCalls (world p) ->
        mCurrentSlicedBucket p = ∅)
  /\ (forall p timestampNs,
        mCurrentSlicedBucket p <> ∅ ->
        pullAndMatchEventsLocked cfg env p timestampNs = p)
  /\ (forall p timestamps,
        mCurrentSlicedBucket p <> ∅ ->
        fold_left (pullAndMatchEventsLocked cfg env) timestamps p = p).
Proof.
  intros Hsampling.
  assert (Hidle : forall p timestampNs,
            mCurrentSlicedBucket p <> ∅ ->
            pullAndMatchEventsLocked cfg env p timestampNs = p).
  { intros p timestampNs Hnonempty.
    rewrite pullAndMatchEventsLocked_unfold. unfold pullAndMatchEventsBody.
    unfold triggerPuller. rewrite Hsampling.
    rewrite bool_decide_eq_false_2 by exact Hnonempty. reflexivity. }
  split; [|split; [|split]].
  - intros ops p Hone.
    destruct (follows_run cfg env ops p) as [Hrtc _].
    exact (rtc_bucketStep_oneAtom cfg _ _ Hsampling Hrtc Hone).
  - intros p timestampNs Hcalled.
    destruct (decide (mCurrentSlicedBucket p = ∅)) as [Hempty|Hnonempty];
      [exact Hempty|].
    rewrite (Hidle p timestampNs Hnonempty) in Hcalled. congruence.
  - exact Hidle.
  - intros p timestamps Hnonempty.
    induction timestamps as [|timestampNs timestamps IH]; [reflexivity|].
    cbn [fold_left]. rewrite (Hidle p timestampNs Hnonempty). exact IH.
Qed.

Lemma random_one_sample_witness :
  let answer timeNs :=
    {| pullSucceeded := true;
       pulledData := [ Sample.event timeNs 1 (INT 5) ];
       elapsedRealtimeAfterPull := timeNs |} in
  let start :=
    set_world {| statsdStats := []; anomalyCalls := []; pullerCalls := [];
                 pullerAnswers := [ answer 5; answer 20 ] |} Sample.fresh in
  let p := pullAndMatchEventsLocked Sample.pullConfig Sample.collaborators start 5 in
  mCurrentSlicedBucket p !! Sample.dimension 1
  = Some [ {| mFields := [ ((100, 1), INT 1); ((100, 2), INT 5) ];
              mElapsedTimestampNs := 5 |} ]
  /\ fold_left (pullAndMatchEventsLocked Sample.pullConfig Sample.collaborators)
               [ 20; 21; 22 ] p = p
  /\ pullerAnswers (world p) = [ answer 20 ].
Proof.
  intros answer start p.
  destruct (random_one_sample Sample.pullConfig Sample.collaborators eq_refl)
    as (_ & _ & _ & Hidle).
  split; [vm_compute; reflexivity|]. split; [|vm_compute; reflexivity].
  apply Hidle. intros Hempty.
  assert (Hlookup : mCurrentSlicedBucket p !! Sample.dimension 1 = None)
    by (rewrite Hempty; apply lookup_empty).
  assert (Hsome : mCurrentSlicedBucket p !! Sample.dimension 1
                  = Some [ {| mFields := [ ((100, 1), INT 1); ((100, 2), INT 5) ];
                              mElapsedTimestampNs := 5 |} ])
    by (vm_compute; reflexivity).
  rewrite Hsome in Hlookup. clear -Hlookup. discriminate.
Defined.

(** * Further properties *)

(** ** Bucket arithmetic without overflow *)

Section BucketArithmetic.

Context (cfg : Config).

Lemma getCurrentBucketEndTimeNs_exact p :
  0 < mBucketSizeNs cfg ->
  0 <= mTimeBaseNs cfg ->
  0 <= mCurrentBucketNum p ->
  mTimeBaseNs cfg + (mCurrentBucketNum p + 1) * mBucketSizeNs cfg < Int64.half ->
  getCurrentBucketEndTimeNs cfg p
  = mTimeBaseNs cfg + (mCurrentBucketNum p + 1) * mBucketSizeNs cfg.
Proof.
  intros Hsize Hbase Hnum Hend. unfold getCurrentBucketEndTimeNs.
  assert (Hhalf : Int64.half = 2 ^ 63) by reflexivity.
  assert (Hone : mCurrentBucketNum p + 1
                 <= (mCurrentBucketNum p + 1) * mBucketSizeNs cfg) by nia.
  rewrite (Int64_add_exact (mCurrentBucketNum p) 1)
    by (unfold Int64.in_range; lia).
  rewrite Int64_mul_exact by (unfold Int64.in_range; lia).
  apply Int64_add_exact. unfold Int64.in_range. lia.
Qed.

(** After a flush within [int64_t] the event time lies before the end of
    the current bucket, and the bucket values are those of the
    integers. *)
Lemma flushIfNeededLocked_within p eventTimeNs :
  withinInt64 cfg p eventTimeNs ->
  let endNs := mTimeBaseNs cfg + (mCurrentBucketNum p + 1) * mBucketSizeNs cfg in
  let q := flushIfNeededLocked cfg p eventTimeNs in
  eventTimeNs < getCurrentBucketEndTimeNs cfg q
  /\ getCurrentBucketEndTimeNs cfg q
     = mTimeBaseNs cfg + (mCurrentBucketNum q + 1) * mBucketSizeNs cfg
  /\ mCurrentBucketNum p <= mCurrentBucketNum q
  /\ (eventTimeNs < endNs -> q = p)
  /\ (endNs <= eventTimeNs ->
      mCurrentBucketNum q
      = mCurrentBucketNum p + 1 + (eventTimeNs - endNs) / mBucketSizeNs cfg
      /\ mCurrentBucketStartTimeNs q
         = mTimeBaseNs cfg + mCurrentBucketNum q * mBucketSizeNs cfg
      /\ mCurrentBucketStartTimeNs q <= eventTimeNs).
Proof.
  intros (Hsize & Hbase & Hnum & Hend & Hmax) endNs q.
  pose proof (getCurrentBucketEndTimeNs_exact p Hsize Hbase Hnum Hend) as HendE.
  fold endNs in HendE.
  destruct (Z.lt_ge_cases eventTimeNs endNs) as [Hearly|Hlate].
  - assert (Hq : q = p).
    { subst q. unfold flushIfNeededLocked. rewrite HendE.
      apply Z.ltb_lt in Hearly. rewrite Hearly. reflexivity. }
    rewrite Hq, HendE. repeat split; try lia; try reflexivity.
  - pose proof (flushIfNeededLocked_exact cfg p eventTimeNs Hsize Hbase Hnum Hmax Hlate)
      as (Hqnum & Hqstart & Hin).
    fold q endNs in Hqnum, Hqstart, Hin.
    set (d := (eventTimeNs - endNs) / mBucketSizeNs cfg) in *.
    assert (Hd0 : 0 <= d) by (apply Z.div_pos; lia).
    assert (Hstart : mCurrentBucketStartTimeNs q
                     = mTimeBaseNs cfg + mCurrentBucketNum q * mBucketSizeNs cfg).
    { rewrite Hqstart, Hqnum. subst endNs. lia. }
    assert (HendQ : getCurrentBucketEndTimeNs cfg q
                    = mTimeBaseNs cfg + (mCurrentBucketNum q + 1) * mBucketSizeNs cfg).
    { apply getCurrentBucketEndTimeNs_exact; try assumption; [lia|].
      assert (Hshape : mTimeBaseNs cfg + (mCurrentBucketNum q + 1) * mBucketSizeNs cfg
                       = mCurrentBucketStartTimeNs q + mBucketSizeNs cfg)
        by (rewrite Hstart; lia).
      lia. }
    repeat split; try lia.
Qed.

(** A flush at a time that is not later than the last one does nothing. *)
Lemma flushIfNeededLocked_again p eventTimeNs earlierNs :
  withinInt64 cfg p eventTimeNs ->
  earlierNs <= eventTimeNs ->
  flushIfNeededLocked cfg (flushIfNeededLocked cfg p eventTimeNs) earlierNs
  = flushIfNeededLocked cfg p eventTimeNs.
Proof.
  intros Hwithin Hle.
  destruct (flushIfNeededLocked_within p eventTimeNs Hwithin) as (Hbefore & _).
  unfold flushIfNeededLocked at 1.
  assert (Hcmp : (earlierNs
                  <? getCurrentBucketEndTimeNs cfg (flushIfNeededLocked cfg p eventTimeNs))
                 = true) by (apply Z.ltb_lt; lia).
  rewrite Hcmp. reflexivity.
Qed.

Lemma getBucketNumFromEndTimeNs_exact p :
  0 < mBucketSizeNs cfg ->
  0 <= mTimeBaseNs cfg ->
  0 <= mCurrentBucketNum p ->
  mTimeBaseNs cfg + (mCurrentBucketNum p + 1) * mBucketSizeNs cfg < Int64.half ->
  getBucketNumFromEndTimeNs cfg (getCurrentBucketEndTimeNs cfg p) = mCurrentBucketNum p.
Proof.
  intros Hsize Hbase Hnum Hend.
  rewrite (getCurrentBucketEndTimeNs_exact p Hsize Hbase Hnum Hend).
  unfold getBucketNumFromEndTimeNs.
  assert (Hhalf : Int64.half = 2 ^ 63) by reflexivity.
  assert (Hone : mCurrentBucketNum p + 1
                 <= (mCurrentBucketNum p + 1) * mBucketSizeNs cfg) by nia.
  rewrite (Int64_sub_exact
             (mTimeBaseNs cfg + (mCurrentBucketNum p + 1) * mBucketSizeNs cfg)
             (mTimeBaseNs cfg))
    by (unfold Int64.in_range; lia).
  replace (mTimeBaseNs cfg + (mCurrentBucketNum p + 1) * mBucketSizeNs cfg
           - mTimeBaseNs cfg)
    with ((mCurrentBucketNum p + 1) * mBucketSizeNs cfg) by lia.
  rewrite Int64_div_exact; rewrite Z.quot_mul by lia;
    [|unfold Int64.in_range; lia].
  rewrite Int64_sub_exact by (unfold Int64.in_range; lia). lia.
Qed.

End BucketArithmetic.

(** X1. Within [int64_t], after [flushIfNeededLocked] the event time lies
    in the current bucket: it is before the end of the bucket, which is
    [timeBaseNs + (bucketNum + 1) * bucketSizeNs], and when the flush
    advanced the bucket, the bucket starts on the grid, at
    [timeBaseNs + bucketNum * bucketSizeNs], not after the event, and the
    bucket number is the number of whole buckets between the time base
    and the event. *)
Theorem flush_enters_bucket_of_event (cfg : Config) (p : Producer) (eventTimeNs : Z) :
  withinInt64 cfg p eventTimeNs ->
  let q := flushIfNeededLocked cfg p eventTimeNs in
  eventTimeNs < getCurrentBucketEndTimeNs cfg q
  /\ getCurrentBucketEndTimeNs cfg q
     = mTimeBaseNs cfg + (mCurrentBucketNum q + 1) * mBucketSizeNs cfg
  /\ (getCurrentBucketEndTimeNs cfg p <= eventTimeNs ->
      mCurrentBucketNum q = (eventTimeNs - mTimeBaseNs cfg) / mBucketSizeNs cfg
      /\ mCurrentBucketStartTimeNs q
         = mTimeBaseNs cfg + mCurrentBucketNum q * mBucketSizeNs cfg
      /\ mCurrentBucketStartTimeNs q <= eventTimeNs).
Proof.
  intros Hwithin q.
  destruct (flushIfNeededLocked_within cfg p eventTimeNs Hwithin)
    as (Hbefore & Hend & _ & _ & Hlate).
  fold q in Hbefore, Hend, Hlate.
  split; [exact Hbefore|]. split; [exact Hend|].
  intros Hflush.
  destruct Hwithin as (Hsize & Hbase & Hnum & HendP & Hmax).
  rewrite (getCurrentBucketEndTimeNs_exact cfg p Hsize Hbase Hnum HendP) in Hflush.
  destruct (Hlate Hflush) as (Hqnum & Hqstart & Hle).
  split; [|split; assumption].
  rewrite Hqnum.
  set (n := mCurrentBucketNum p) in *. set (B := mBucketSizeNs cfg) in *.
  set (T := mTimeBaseNs cfg) in *.
  replace (eventTimeNs - T) with (eventTimeNs - (T + (n + 1) * B) + (n + 1) * B) by lia.
  rewrite Z.div_add by lia. lia.
Qed.

Lemma flush_enters_bucket_of_event_witness :
  let q := flushIfNeededLocked Sample.pushConfig Sample.fresh 25 in
  25 < getCurrentBucketEndTimeNs Sample.pushConfig q
  /\ mCurrentBucketNum q = 2
  /\ mCurrentBucketStartTimeNs q = 20.
Proof.
  intros q.
  destruct (flush_enters_bucket_of_event Sample.pushConfig Sample.fresh 25)
    as (Hbefore & _ & Hflush).
  { unfold withinInt64, Int64.half. simpl. lia. }
  split; [exact Hbefore|].
  destruct Hflush as (Hnum & Hstart & _); [vm_compute; discriminate|].
  fold q in Hnum, Hstart.
  split; [rewrite Hnum; reflexivity|].
  rewrite Hstart, Hnum. reflexivity.
Defined.

(** X2. Within [int64_t], once the producer was flushed at some time, a
    flush at the same or an earlier time changes nothing: events that
    arrive out of order never close a bucket. *)
Theorem flush_at_earlier_time_is_noop (cfg : Config) (p : Producer)
    (eventTimeNs earlierNs : Z) :
  withinInt64 cfg p eventTimeNs ->
  earlierNs <= eventTimeNs ->
  flushIfNeededLocked cfg (flushIfNeededLocked cfg p eventTimeNs) earlierNs
  = flushIfNeededLocked cfg p eventTimeNs.
Proof. apply flushIfNeededLocked_again. Qed.

Lemma flush_at_earlier_time_is_noop_witness :
  flushIfNeededLocked Sample.pushConfig
    (flushIfNeededLocked Sample.pushConfig Sample.fresh 25) 21
  = flushIfNeededLocked Sample.pushConfig Sample.fresh 25.
Proof.
  apply (flush_at_earlier_time_is_noop Sample.pushConfig Sample.fresh 25 21).
  - unfold withinInt64, Int64.half. simpl. lia.
  - lia.
Defined.

(** X3. Within [int64_t], [getBucketNumFromEndTimeNs] inverts
    [getCurrentBucketEndTimeNs]: the number computed from the end of the
    current bucket is the bucket number of the producer. So a bucket that
    ends with the current bucket and is one bucket long is reported under
    the producer's bucket number. *)
Theorem bucket_num_of_bucket_end (cfg : Config) (p : Producer) :
  0 < mBucketSizeNs cfg ->
  0 <= mTimeBaseNs cfg ->
  0 <= mCurrentBucketNum p ->
  mTimeBaseNs cfg + (mCurrentBucketNum p + 1) * mBucketSizeNs cfg < Int64.half ->
  getBucketNumFromEndTimeNs cfg (getCurrentBucketEndTimeNs cfg p) = mCurrentBucketNum p
  /\ (forall bucket,
        mBucketEndNs bucket = getCurrentBucketEndTimeNs cfg p ->
        Int64.sub (mBucketEndNs bucket) (mBucketStartNs bucket) = mBucketSizeNs cfg ->
        exists info,
          writeBucketInfo cfg bucket = message FIELD_ID_BUCKET_INFO info
          /\ In (write_int64 FIELD_ID_BUCKET_NUM (mCurrentBucketNum p)) info).
Proof.
  intros Hsize Hbase Hnum Hend.
  pose proof (getBucketNumFromEndTimeNs_exact cfg p Hsize Hbase Hnum Hend) as Hround.
  split; [exact Hround|].
  intros bucket HbucketEnd Hfull.
  unfold writeBucketInfo. apply Z.eqb_eq in Hfull. rewrite Hfull. cbn [negb].
  eexists. split; [reflexivity|].
  left. rewrite HbucketEnd, Hround. reflexivity.
Qed.

Lemma bucket_num_of_bucket_end_witness :
  let p := flushIfNeededLocked Sample.pushConfig Sample.fresh 25 in
  getBucketNumFromEndTimeNs Sample.pushConfig
    (getCurrentBucketEndTimeNs Sample.pushConfig p) = 2.
Proof.
  intros p.
  destruct (bucket_num_of_bucket_end Sample.pushConfig p) as [Hround _].
  - vm_compute. reflexivity.
  - vm_compute. discriminate.
  - vm_compute. discriminate.
  - vm_compute. reflexivity.
  - rewrite Hround. vm_compute. reflexivity.
Defined.

(** ** What the operations keep of the closed buckets *)

Section KeepsData.

Context (cfg : Config) (env : Collaborators).

(** The closed buckets after [flushCurrentBucketLocked]. *)
Lemma flushCurrentBucketLocked_buckets p eventTimeNs nextNs :
  let startNs := mCurrentBucketStartTimeNs p in
  let endNs :=
    if eventTimeNs <? getCurrentBucketEndTimeNs cfg p
    then eventTimeNs else getCurrentBucketEndTimeNs cfg p in
  let q := flushCurrentBucketLocked cfg p eventTimeNs nextNs in
  mCurrentSkippedBucket q = SkippedBucket_reset
  /\ mDimensionGuardrailHit q = mDimensionGuardrailHit p
  /\ if mMinBucketSizeNs cfg <=? Int64.sub endNs startNs
     then mPastBuckets q
          = map_fold (pushPastBucket cfg startNs endNs) (mPastBuckets p)
                     (mCurrentSlicedBucket p)
          /\ mSkippedBuckets q = mSkippedBuckets p
     else mPastBuckets q = mPastBuckets p
          /\ mSkippedBuckets q
             = if mIsActive p
               then mSkippedBuckets p
                    ++ [ {| bucketStartTimeNs := startNs;
                            bucketEndTimeNs := endNs;
                            dropEvents :=
                              if maxDropEventsReached p
                              then dropEvents (mCurrentSkippedBucket p)
                              else dropEvents (mCurrentSkippedBucket p)
                                   ++ [ buildDropEvent eventTimeNs BUCKET_TOO_SMALL ] |} ]
               else mSkippedBuckets p.
Proof.
  intros startNs endNs q.
  split; [reflexivity|].
  split; [apply flushCurrentBucketLocked_mDimensionGuardrailHit|].
  subst q. unfold flushCurrentBucketLocked. cbv zeta.
  fold startNs. fold endNs.
  destruct (mMinBucketSizeNs cfg <=? Int64.sub endNs startNs).
  - destruct (0 <? _)%nat; [destruct (getCurrentBucketEndTimeNs cfg p <? _)|];
      split; reflexivity.
  - destruct (mIsActive p);
      (destruct (0 <? _)%nat; [destruct (getCurrentBucketEndTimeNs cfg p <? _)|]);
      split; reflexivity.
Qed.

Lemma keepsData_refl p : keepsData cfg p p.
Proof.
  split; [intros dim; reflexivity|]. split; [reflexivity|]. split; auto.
Qed.

Lemma keepsData_trans p q r :
  keepsData cfg p q -> keepsData cfg q r -> keepsData cfg p r.
Proof.
  intros (Hpast & Hskipped & Hflag & Hsorted) (Hpast' & Hskipped' & Hflag' & Hsorted').
  split; [|split; [|split]]; auto.
  - intros dim. etransitivity; [apply Hpast | apply Hpast'].
  - etransitivity; eassumption.
Qed.

Lemma keepsData_frame p q :
  mPastBuckets q = mPastBuckets p ->
  mSkippedBuckets q = mSkippedBuckets p ->
  mCurrentSkippedBucket q = mCurrentSkippedBucket p ->
  (mDimensionGuardrailHit p = true -> mDimensionGuardrailHit q = true) ->
  keepsData cfg p q.
Proof.
  intros Hpast Hskipped Hacc Hflag. unfold keepsData, bucketsSorted.
  rewrite Hpast, Hskipped, Hacc.
  split; [intros dim; reflexivity|]. split; [reflexivity|]. split; auto.
Qed.

Lemma keepsData_fold {A} (step : Producer -> A -> Producer) (l : list A) p :
  (forall q x, keepsData cfg q (step q x)) -> keepsData cfg p (fold_left step l p).
Proof.
  intros Hstep. revert p. induction l as [|x l IH]; intros p; [apply keepsData_refl|].
  cbn [fold_left]. eapply keepsData_trans; [apply Hstep | apply IH].
Qed.

Lemma keepsData_flushCurrentBucketLocked p eventTimeNs nextNs :
  keepsData cfg p (flushCurrentBucketLocked cfg p eventTimeNs nextNs).
Proof.
  pose proof (flushCurrentBucketLocked_buckets p eventTimeNs nextNs) as Hq.
  cbv zeta in Hq.
  set (q := flushCurrentBucketLocked cfg p eventTimeNs nextNs) in *.
  set (startNs := mCurrentBucketStartTimeNs p) in *.
  set (endNs := if eventTimeNs <? getCurrentBucketEndTimeNs cfg p
                then eventTimeNs else getCurrentBucketEndTimeNs cfg p) in *.
  destruct Hq as (Hacc & Hflag & Hbuckets).
  destruct (Z.leb_spec (mMinBucketSizeNs cfg) (Int64.sub endNs startNs)) as [Hlarge|Hsmall];
    destruct Hbuckets as [Hpast Hskipped].
  - assert (Hlookup : forall dim,
              mPastBuckets q !! dim
              = match mCurrentSlicedBucket p !! dim with
                | Some atoms =>
                    Some (default [] (mPastBuckets p !! dim)
                          ++ [ {| mBucketStartNs := startNs; mBucketEndNs := endNs;
                                  mAggregatedAtoms := aggregateAtoms cfg atoms |} ])
                | None => mPastBuckets p !! dim
                end).
    { intros dim. rewrite Hpast. apply pushPastBucket_fold_lookup. }
    split; [|split; [|split]].
    + intros dim. rewrite Hlookup.
      destruct (mCurrentSlicedBucket p !! dim); [|reflexivity].
      cbn [default option.from_option]. eexists. reflexivity.
    + rewrite Hskipped. reflexivity.
    + rewrite Hflag. auto.
    + intros (_ & Hsk & Hpa). split; [exact Hacc|]. split.
      * rewrite Hskipped. exact Hsk.
      * intros dim buckets. rewrite Hlookup.
        destruct (mCurrentSlicedBucket p !! dim) as [atoms|]; [|apply Hpa].
        intros [= <-]. apply Forall_app. split.
        { destruct (mPastBuckets p !! dim) as [old|] eqn:Hold; cbn;
            [eapply Hpa; exact Hold | constructor]. }
        constructor; [|constructor]. exact Hlarge.
  - split; [|split; [|split]].
    + intros dim. rewrite Hpast. reflexivity.
    + rewrite Hskipped. destruct (mIsActive p); [|reflexivity].
      eexists. reflexivity.
    + rewrite Hflag. auto.
    + intros (HaccP & Hsk & Hpa). split; [exact Hacc|]. split.
      * rewrite Hskipped. destruct (mIsActive p); [|exact Hsk].
        apply Forall_app. split; [exact Hsk|].
        constructor; [|constructor].
        split; [exact Hsmall|].
        unfold maxDropEventsReached. rewrite HaccP. cbn.
        eexists. reflexivity.
      * rewrite Hpast. exact Hpa.
Qed.

Lemma keepsData_flushIfNeededLocked p eventTimeNs :
  keepsData cfg p (flushIfNeededLocked cfg p eventTimeNs).
Proof.
  rewrite flushIfNeededLocked_unfold. cbv zeta.
  destruct (_ <? _); [apply keepsData_refl|].
  eapply keepsData_trans; [apply keepsData_flushCurrentBucketLocked|].
  apply keepsData_frame; auto.
Qed.

Lemma keepsData_flushLocked p eventTimeNs :
  keepsData cfg p (flushLocked cfg p eventTimeNs).
Proof.
  unfold flushLocked. eapply keepsData_trans;
    [apply keepsData_flushIfNeededLocked | apply keepsData_flushCurrentBucketLocked].
Qed.

Lemma hitGuardRailLocked_flag p newKey :
  mDimensionGuardrailHit p = true ->
  mDimensionGuardrailHit (snd (hitGuardRailLocked cfg p newKey)) = true.
Proof.
  intros Hflag. unfold hitGuardRailLocked.
  destruct (decide _); [exact Hflag|].
  destruct (_ <=? _)%nat; [|exact Hflag].
  destruct (_ <? _)%nat; [reflexivity | exact Hflag].
Qed.

Lemma keepsData_onMatchedLogEventInternalLocked pullAndMatch p eventKey condition event :
  (forall q t, keepsData cfg q (pullAndMatch q t)) ->
  keepsData cfg p (onMatchedLogEventInternalLocked cfg env pullAndMatch
                     p eventKey condition event).
Proof.
  intros Hpull. unfold onMatchedLogEventInternalLocked.
  destruct (negb condition); [apply keepsData_refl|].
  destruct (_ && _); [apply keepsData_refl|]. cbv zeta.
  destruct (_ <? _); [apply keepsData_refl|].
  eapply keepsData_trans; [apply (keepsData_flushIfNeededLocked p)|].
  destruct (_ =? _); [apply Hpull|].
  destruct (_ && _); [apply keepsData_refl|].
  pose proof (hitGuardRailLocked_frame cfg
                (flushIfNeededLocked cfg p (GetElapsedTimestampNs event)) eventKey)
    as (_ & _ & _ & _ & _ & Hpast & Hskipped & Hacc).
  pose proof (hitGuardRailLocked_flag
                (flushIfNeededLocked cfg p (GetElapsedTimestampNs event)) eventKey)
    as Hflag.
  destruct (hitGuardRailLocked cfg _ eventKey) as [hit p2].
  cbn [fst snd] in *.
  destruct hit; [apply keepsData_frame; assumption|].
  destruct (_ <=? _)%nat; apply keepsData_frame; assumption.
Qed.

Lemma keepsData_onMatchedLogEventLocked pullAndMatch p event :
  (forall q t, keepsData cfg q (pullAndMatch q t)) ->
  keepsData cfg p (onMatchedLogEventLocked cfg env pullAndMatch p event).
Proof.
  intros Hpull. unfold onMatchedLogEventLocked.
  destruct (negb (mIsActive p)); [apply keepsData_refl|]. cbv zeta.
  apply keepsData_fold. intros q eventKey.
  apply keepsData_onMatchedLogEventInternalLocked, Hpull.
Qed.

Lemma keepsData_matchAndAppend pullAndMatch stamp allData p :
  (forall q t, keepsData cfg q (pullAndMatch q t)) ->
  keepsData cfg p (matchAndAppend cfg env pullAndMatch stamp allData p).
Proof.
  intros Hpull. unfold matchAndAppend. apply keepsData_fold. intros q data.
  destruct (matchLogEvent env data (mWhatMatcherIndex cfg)) as [[] transformed];
    try apply keepsData_refl.
  apply keepsData_onMatchedLogEventLocked, Hpull.
Qed.

Lemma keepsData_Pull pullTagId timestampNs p :
  keepsData cfg p (snd (Pull pullTagId timestampNs p)).
Proof.
  unfold Pull. cbv zeta.
  destruct (pullerAnswers (world p)); apply keepsData_frame; auto.
Qed.

Lemma keepsData_pullAndMatchEventsBody self p timestampNs :
  (forall q t, keepsData cfg q (self q t)) ->
  keepsData cfg p (pullAndMatchEventsBody cfg env self p timestampNs).
Proof.
  intros Hself. unfold pullAndMatchEventsBody.
  destruct (negb (triggerPuller cfg p)); [apply keepsData_refl|].
  pose proof (keepsData_Pull (mPullTagId cfg) timestampNs p) as Hpull.
  destruct (Pull (mPullTagId cfg) timestampNs p) as [[answer|] p1];
    cbn [snd] in Hpull; [|exact Hpull].
  destruct (negb (pullSucceeded answer)); [exact Hpull|]. cbv zeta.
  eapply keepsData_trans; [exact Hpull|].
  destruct (_ <? _); [apply keepsData_frame; auto|].
  eapply keepsData_trans; [|apply keepsData_matchAndAppend, Hself].
  apply keepsData_frame; auto.
Qed.

Lemma keepsData_pullAndMatchEventsLocked p timestampNs :
  keepsData cfg p (pullAndMatchEventsLocked cfg env p timestampNs).
Proof.
  unfold pullAndMatchEventsLocked.
  generalize (S (length (pullerAnswers (world p)))). intros fuel.
  revert p timestampNs. induction fuel as [|fuel IH]; intros p timestampNs.
  - apply keepsData_refl.
  - cbn [pullAndMatchEventsFuel]. apply keepsData_pullAndMatchEventsBody, IH.
Qed.

(** Every operation that does not clear buckets keeps the data. *)
Lemma keepsData_perform p op :
  clearsBuckets op = false -> keepsData cfg p (perform cfg env p op).
Proof.
  destruct op; cbn [perform clearsBuckets]; intros Hop; try discriminate.
  - apply keepsData_onMatchedLogEventLocked. intros q t.
    apply keepsData_pullAndMatchEventsLocked.
  - unfold onConditionChangedLocked. cbv zeta.
    set (p1 := set_mCondition _ p).
    assert (Hp1 : keepsData cfg p p1) by (apply keepsData_frame; auto).
    destruct (negb _); [exact Hp1|].
    eapply keepsData_trans; [exact Hp1|].
    eapply keepsData_trans; [apply keepsData_flushIfNeededLocked|].
    destruct (_ && _);
      [apply keepsData_pullAndMatchEventsLocked | apply keepsData_refl].
  - unfold onSlicedConditionMayChangeLocked. cbv zeta.
    set (p1 := set_mCondition _ p).
    assert (Hp1 : keepsData cfg p p1) by (apply keepsData_frame; auto).
    destruct (negb _); [exact Hp1|].
    eapply keepsData_trans; [exact Hp1|].
    eapply keepsData_trans; [apply keepsData_flushIfNeededLocked|].
    destruct (_ && _);
      [apply keepsData_pullAndMatchEventsLocked | apply keepsData_refl].
  - unfold onDataPulled. destruct (_ || _); [apply keepsData_refl|]. cbv zeta.
    destruct (_ <? _); [apply keepsData_frame; auto|].
    eapply keepsData_trans; [|apply keepsData_matchAndAppend; intros q t;
                               apply keepsData_pullAndMatchEventsLocked].
    apply keepsData_frame; auto.
  - destruct erase_data; [discriminate|].
    unfold onDumpReportLocked. cbv zeta.
    fold (flushedForDump cfg p dumpTimeNs include_current_partial_bucket).
    assert (Hflushed : keepsData cfg p (flushedForDump cfg p dumpTimeNs
                                          include_current_partial_bucket)).
    { unfold flushedForDump. destruct include_current_partial_bucket;
        [apply keepsData_flushLocked | apply keepsData_flushIfNeededLocked]. }
    destruct (_ && _); exact Hflushed.
  - unfold prepareFirstBucketLocked.
    destruct (_ && _);
      [apply keepsData_pullAndMatchEventsLocked | apply keepsData_refl].
  - unfold onActiveStateChangedLocked. cbv zeta.
    assert (Hfirst : keepsData cfg p
                       (if negb isActive then flushLocked cfg p eventTimeNs else p)).
    { destruct (negb isActive); [apply keepsData_flushLocked | apply keepsData_refl]. }
    destruct (negb (isTrue _)); [exact Hfirst|].
    destruct (_ && _); [|exact Hfirst].
    eapply keepsData_trans; [exact Hfirst | apply keepsData_pullAndMatchEventsLocked].
  - apply keepsData_frame; auto.
  - apply keepsData_flushLocked.
  - apply keepsData_frame; auto.
Qed.

(** The operations that clear buckets still keep them sorted, and all
    but the erasing dump keep the guardrail flag. *)
Lemma perform_bucketsSorted p op :
  bucketsSorted cfg p -> bucketsSorted cfg (perform cfg env p op).
Proof.
  intros Hsorted.
  destruct (clearsBuckets op) eqn:Hop.
  - assert (Hcleared : forall q,
              bucketsSorted cfg q ->
              bucketsSorted cfg (set_mSkippedBuckets [] (set_mPastBuckets ∅ q))
              /\ bucketsSorted cfg (set_mPastBuckets ∅ q)).
    { intros q (Hacc & Hsk & Hpa). split; (split; [exact Hacc|]); split.
      - constructor.
      - intros dim buckets. cbn. rewrite lookup_empty. discriminate.
      - exact Hsk.
      - intros dim buckets. cbn. rewrite lookup_empty. discriminate. }
    destruct op; cbn [clearsBuckets] in Hop; try discriminate; cbn [perform].
    + destruct erase_data; [|discriminate].
      unfold onDumpReportLocked. cbv zeta.
      fold (flushedForDump cfg p dumpTimeNs include_current_partial_bucket).
      assert (Hflushed : bucketsSorted cfg (flushedForDump cfg p dumpTimeNs
                                              include_current_partial_bucket)).
      { unfold flushedForDump. destruct include_current_partial_bucket;
          [apply (keepsData_flushLocked p) | apply (keepsData_flushIfNeededLocked p)];
          exact Hsorted. }
      destruct (_ && _); cbn [fst]; [exact Hflushed|].
      apply (Hcleared _ Hflushed).
    + unfold clearPastBucketsLocked.
      apply Hcleared. apply (keepsData_flushIfNeededLocked p). exact Hsorted.
    + unfold dropDataLocked.
      match goal with
      | |- bucketsSorted cfg (set_mPastBuckets ∅ (note ?c ?q)) =>
          apply (Hcleared (note c q));
          change (bucketsSorted cfg q)
      end.
      apply (keepsData_flushIfNeededLocked p). exact Hsorted.
  - apply (keepsData_perform p op Hop). exact Hsorted.
Qed.

Lemma perform_flag p op :
  erasesOnDump op = false ->
  mDimensionGuardrailHit p = true ->
  mDimensionGuardrailHit (perform cfg env p op) = true.
Proof.
  intros Herase Hflag.
  destruct (clearsBuckets op) eqn:Hop.
  - destruct op; cbn [clearsBuckets erasesOnDump] in Hop, Herase;
      try discriminate; cbn [perform].
    + destruct erase_data; discriminate.
    + unfold clearPastBucketsLocked. cbn.
      rewrite flushIfNeededLocked_mDimensionGuardrailHit. exact Hflag.
    + unfold dropDataLocked. cbn.
      rewrite flushIfNeededLocked_mDimensionGuardrailHit. exact Hflag.
  - apply (keepsData_perform p op Hop). exact Hflag.
Qed.

Lemma run_keepsData ops p :
  Forall (fun op => clearsBuckets op = false) ops ->
  keepsData cfg p (run cfg env ops p).
Proof.
  intros Hops. revert p. unfold run.
  induction Hops as [|op ops Hop _ IH]; intros p; [apply keepsData_refl|].
  cbn [fold_left]. eapply keepsData_trans; [apply keepsData_perform, Hop | apply IH].
Qed.

Lemma run_bucketsSorted ops p :
  bucketsSorted cfg p -> bucketsSorted cfg (run cfg env ops p).
Proof.
  revert p. unfold run. induction ops as [|op ops IH]; intros p Hsorted; [exact Hsorted|].
  cbn [fold_left]. apply IH, perform_bucketsSorted, Hsorted.
Qed.

Lemma run_flag ops p :
  Forall (fun op => erasesOnDump op = false) ops ->
  mDimensionGuardrailHit p = true ->
  mDimensionGuardrailHit (run cfg env ops p) = true.
Proof.
  intros Hops. revert p. unfold run.
  induction Hops as [|op ops Hop _ IH]; intros p Hflag; [exact Hflag|].
  cbn [fold_left]. apply IH, perform_flag; assumption.
Qed.

End KeepsData.

(** X7. No dimension of the current sliced bucket ever holds more gauge
    atoms than [mGaugeAtomsPerDimensionLimit]: if that holds of a producer,
    it holds after every sequence of operations. *)
Theorem atoms_per_dimension_capped (cfg : Config) (env : Collaborators)
    (ops : list Operation) (p : Producer) :
  (forall key atoms,
     mCurrentSlicedBucket p !! key = Some atoms ->
     (length atoms <= mGaugeAtomsPerDimensionLimit cfg)%nat) ->
  forall key atoms,
    mCurrentSlicedBucket (run cfg env ops p) !! key = Some atoms ->
    (length atoms <= mGaugeAtomsPerDimensionLimit cfg)%nat.
Proof. intros Hlimit. exact (run_withinAtomLimit cfg env ops p Hlimit). Qed.

Lemma atoms_per_dimension_capped_witness :
  let ops :=
    [ OnMatchedLogEvent (Sample.event 1 1 (INT 5));
      OnMatchedLogEvent (Sample.event 2 1 (INT 6));
      OnMatchedLogEvent (Sample.event 3 1 (INT 7)) ] in
  exists atoms,
    mCurrentSlicedBucket (run Sample.pushConfig Sample.collaborators ops Sample.fresh)
      !! Sample.dimension 1 = Some atoms
    /\ (length atoms <= 10)%nat.
Proof.
  intros ops.
  set (atoms :=
         [ {| mFields := [ ((100, 1), INT 1); ((100, 2), INT 5) ];
              mElapsedTimestampNs := 1 |};
           {| mFields := [ ((100, 1), INT 1); ((100, 2), INT 6) ];
              mElapsedTimestampNs := 2 |};
           {| mFields := [ ((100, 1), INT 1); ((100, 2), INT 7) ];
              mElapsedTimestampNs := 3 |} ]).
  assert (Hlookup :
            mCurrentSlicedBucket
              (run Sample.pushConfig Sample.collaborators ops Sample.fresh)
              !! Sample.dimension 1 = Some atoms)
    by (vm_compute; reflexivity).
  exists atoms. split; [exact Hlookup|].
  apply (atoms_per_dimension_capped Sample.pushConfig Sample.collaborators ops
           Sample.fresh) with (key := Sample.dimension 1); [|exact Hlookup].
  intros key atoms' Hempty. discriminate Hempty.
Defined.

(** X8. The closed buckets stay sorted by their length over every
    sequence of operations: every past bucket is at least
    [mMinBucketSizeNs] long, and every skipped bucket is shorter and
    carries exactly one drop event, of reason BUCKET_TOO_SMALL. *)
Theorem closed_buckets_sorted_by_length (cfg : Config) (env : Collaborators)
    (ops : list Operation) (p : Producer) :
  bucketsSorted cfg p ->
  let q := run cfg env ops p in
  (forall dim buckets bucket,
     mPastBuckets q !! dim = Some buckets ->
     In bucket buckets ->
     mMinBucketSizeNs cfg <= Int64.sub (mBucketEndNs bucket) (mBucketStartNs bucket))
  /\ (forall skipped,
        In skipped (mSkippedBuckets q) ->
        Int64.sub (bucketEndTimeNs skipped) (bucketStartTimeNs skipped)
        < mMinBucketSizeNs cfg
        /\ exists timeNs,
             dropEvents skipped
             = [ {| reason := BUCKET_TOO_SMALL; dropTimeNs := timeNs |} ])
  /\ mCurrentSkippedBucket q = SkippedBucket_reset.
Proof.
  intros Hsorted q.
  destruct (run_bucketsSorted cfg env ops p Hsorted) as (Hacc & Hsk & Hpa).
  fold q in Hacc, Hsk, Hpa.
  split; [|split; [|exact Hacc]].
  - intros dim buckets bucket Hlookup Hin.
    pose proof (Hpa dim buckets Hlookup) as Hall.
    rewrite List.Forall_forall in Hall. exact (Hall bucket Hin).
  - intros skipped Hin.
    rewrite List.Forall_forall in Hsk. exact (Hsk skipped Hin).
Qed.

Lemma closed_buckets_sorted_by_length_witness :
  let q :=
    run Sample.minSizeConfig Sample.collaborators
        [ OnMatchedLogEvent (Sample.event 1 1 (INT 5));
          FlushPartial 3;
          OnMatchedLogEvent (Sample.event 4 1 (INT 6));
          OnMatchedLogEvent (Sample.event 13 1 (INT 7)) ] Sample.fresh in
  mSkippedBuckets q
  = [ {| bucketStartTimeNs := 0; bucketEndTimeNs := 3;
         dropEvents := [ {| reason := BUCKET_TOO_SMALL; dropTimeNs := 3 |} ] |} ]
  /\ forall skipped,
       In skipped (mSkippedBuckets q) ->
       Int64.sub (bucketEndTimeNs skipped) (bucketStartTimeNs skipped) < 5.
Proof.
  intros q. split; [vm_compute; reflexivity|].
  intros skipped Hin.
  destruct (closed_buckets_sorted_by_length Sample.minSizeConfig Sample.collaborators
              [ OnMatchedLogEvent (Sample.event 1 1 (INT 5));
                FlushPartial 3;
                OnMatchedLogEvent (Sample.event 4 1 (INT 6));
                OnMatchedLogEvent (Sample.event 13 1 (INT 7)) ] Sample.fresh)
    as (_ & Hskipped & _).
  - split; [reflexivity|]. split; [constructor|].
    intros dim buckets Hempty. discriminate Hempty.
  - exact (proj1 (Hskipped skipped Hin)).
Defined.

(** X9. The dimension guardrail flag is latched: once raised it stays
    raised over every sequence of operations that contains no dump with
    [erase_data = true], across flushes, dropped data and cleared
    buckets. *)
Theorem guardrail_flag_stays_raised (cfg : Config) (env : Collaborators)
    (ops : list Operation) (p : Producer) :
  Forall (fun op => erasesOnDump op = false) ops ->
  mDimensionGuardrailHit p = true ->
  mDimensionGuardrailHit (run cfg env ops p) = true.
Proof. apply run_flag. Qed.

Lemma guardrail_flag_stays_raised_witness :
  let p :=
    run Sample.pushConfig Sample.collaborators
        [ OnMatchedLogEvent (Sample.event 1 1 (INT 5));
          OnMatchedLogEvent (Sample.event 2 2 (INT 5));
          OnMatchedLogEvent (Sample.event 3 3 (INT 5)) ] Sample.fresh in
  mDimensionGuardrailHit
    (run Sample.pushConfig Sample.collaborators
         [ OnMatchedLogEvent (Sample.event 14 1 (INT 5));
           DropData 30;
           ClearPastBuckets 35;
           OnDumpReport 40 true false ] p) = true.
Proof.
  intros p.
  apply (guardrail_flag_stays_raised Sample.pushConfig Sample.collaborators).
  - repeat constructor.
  - vm_compute. reflexivity.
Defined.

(** X10. Closed buckets are never changed or removed by an operation
    other than [clearPastBuckets], [dropData] and a dump with
    [erase_data = true]: over every sequence of the other operations, the
    past buckets of every dimension and the skipped buckets are extended
    at the back only. *)
Theorem closed_buckets_only_appended (cfg : Config) (env : Collaborators)
    (ops : list Operation) (p : Producer) :
  Forall (fun op => clearsBuckets op = false) ops ->
  let q := run cfg env ops p in
  (forall dim, exists added,
     default [] (mPastBuckets q !! dim) = default [] (mPastBuckets p !! dim) ++ added)
  /\ exists added, mSkippedBuckets q = mSkippedBuckets p ++ added.
Proof.
  intros Hops q.
  destruct (run_keepsData cfg env ops p Hops) as (Hpast & Hskipped & _).
  split; [intros dim; exact (Hpast dim) | exact Hskipped].
Qed.

Lemma closed_buckets_only_appended_witness :
  let p :=
    run Sample.pushConfig Sample.collaborators
        [ OnMatchedLogEvent (Sample.event 1 1 (INT 5));
          OnMatchedLogEvent (Sample.event 11 1 (INT 6)) ] Sample.fresh in
  let q :=
    run Sample.pushConfig Sample.collaborators
        [ OnMatchedLogEvent (Sample.event 21 1 (INT 7));
          OnDumpReport 25 true false ] p in
  exists added,
    default [] (mPastBuckets q !! Sample.dimension 1)
    = default [] (mPastBuckets p !! Sample.dimension 1) ++ added.
Proof.
  intros p q.
  destruct (closed_buckets_only_appended Sample.pushConfig Sample.collaborators
              [ OnMatchedLogEvent (Sample.event 21 1 (INT 7));
                OnDumpReport 25 true false ] p) as [Hpast _].
  - repeat constructor.
  - exact (Hpast (Sample.dimension 1)).
Defined.

(** ** The aggregation of a flush *)

Section AggregationCount.

Context (cfg : Config).

Lemma timestampCount_insert (m : gmap AtomDimensionKey (list Z))
    (key : AtomDimensionKey) (timestamps : list Z) :
  (timestampCount (<[key := timestamps]> m) + length (default [] (m !! key))
   = timestampCount m + length timestamps)%nat.
Proof.
  unfold timestampCount.
  destruct (m !! key) as [old|] eqn:Hkey; cbn [default option.from_option].
  - rewrite <- (insert_delete_eq m key timestamps).
    rewrite map_fold_insert_L; [|intros; lia|apply lookup_delete_eq].
    rewrite (map_fold_delete_L _ _ key old m); [|intros; lia|exact Hkey].
    unfold id. lia.
  - rewrite map_fold_insert_L; [cbn [length]; lia|intros; lia|exact Hkey].
Qed.

Lemma timestampCount_fold (atoms : list GaugeAtom) (m : gmap AtomDimensionKey (list Z)) :
  timestampCount (fold_left (aggregateAtom cfg) atoms m)
  = (timestampCount m + length atoms)%nat.
Proof.
  revert m. induction atoms as [|atom atoms IH]; intros m; [cbn; lia|].
  cbn [fold_left length]. rewrite IH. unfold aggregateAtom at 1. cbv zeta.
  pose proof (timestampCount_insert m (mAtomId cfg, mFields atom)
                (default [] (m !! (mAtomId cfg, mFields atom))
                 ++ [mElapsedTimestampNs atom])) as Hinsert.
  rewrite length_app in Hinsert. cbn [length] in Hinsert.
  set (count := timestampCount (insert _ _ m)) in *.
  set (older := length (default [] _)) in *.
  clearbody count older. revert Hinsert.
  generalize (timestampCount m), (length atoms). clear. intros total rest. lia.
Qed.

Lemma min_as_conditional (a b : Z) : (if a <? b then a else b) = Z.min a b.
Proof. destruct (Z.ltb_spec a b); lia. Qed.

End AggregationCount.

(** X6. The aggregation of a flush loses no atom and invents none: the
    timestamps of the aggregated atoms of a dimension are as many as the
    gauge atoms the dimension had, every atom's timestamp is filed under
    the key made of its field values, and a bucket that is large enough is
    pushed with such an aggregation for every dimension of the current
    sliced bucket. *)
Theorem flush_loses_no_atom (cfg : Config) :
  (forall atoms, timestampCount (aggregateAtoms cfg atoms) = length atoms)
  /\ (forall atoms atom,
        In atom atoms ->
        exists timestamps,
          aggregateAtoms cfg atoms !! (mAtomId cfg, mFields atom) = Some timestamps
          /\ In (mElapsedTimestampNs atom) timestamps)
  /\ (forall p eventTimeNs nextNs dim atoms,
        mMinBucketSizeNs cfg
        <= Int64.sub (Z.min eventTimeNs (getCurrentBucketEndTimeNs cfg p))
                     (mCurrentBucketStartTimeNs p) ->
        mCurrentSlicedBucket p !! dim = Some atoms ->
        exists bucket,
          mPastBuckets (flushCurrentBucketLocked cfg p eventTimeNs nextNs) !! dim
          = Some (default [] (mPastBuckets p !! dim) ++ [bucket])
          /\ timestampCount (mAggregatedAtoms bucket) = length atoms).
Proof.
  assert (Hcount : forall atoms, timestampCount (aggregateAtoms cfg atoms) = length atoms).
  { intros atoms. unfold aggregateAtoms. rewrite timestampCount_fold.
    unfold timestampCount. rewrite map_fold_empty. reflexivity. }
  split; [exact Hcount|]. split.
  - intros atoms atom Hin.
    rewrite aggregateAtoms_lookup.
    assert (Hts : In (mElapsedTimestampNs atom)
                     (timestampsOf cfg (mAtomId cfg, mFields atom) atoms)).
    { unfold timestampsOf. apply in_map. apply filter_In. split; [exact Hin|].
      apply bool_decide_eq_true_2. reflexivity. }
    destruct (timestampsOf cfg (mAtomId cfg, mFields atom) atoms) as [|t ts];
      [destruct Hts|].
    eexists. split; [reflexivity | exact Hts].
  - intros p eventTimeNs nextNs dim atoms Hlarge Hdim.
    pose proof (flushCurrentBucketLocked_buckets cfg p eventTimeNs nextNs)
      as (_ & _ & Hbuckets).
    cbv zeta in Hbuckets. rewrite min_as_conditional in Hbuckets.
    apply Z.leb_le in Hlarge. rewrite Hlarge in Hbuckets.
    destruct Hbuckets as [Hpast _].
    rewrite Hpast, pushPastBucket_fold_lookup, Hdim.
    eexists. split; [reflexivity|]. apply Hcount.
Qed.

Lemma flush_loses_no_atom_witness :
  let atoms :=
    [ {| mFields := [ ((100, 2), INT 5) ]; mElapsedTimestampNs := 1 |};
      {| mFields := [ ((100, 2), INT 6) ]; mElapsedTimestampNs := 2 |};
      {| mFields := [ ((100, 2), INT 5) ]; mElapsedTimestampNs := 3 |} ] in
  timestampCount (aggregateAtoms Sample.pushConfig atoms) = 3%nat
  /\ exists timestamps,
       aggregateAtoms Sample.pushConfig atoms !! (100, [ ((100, 2), INT 5) ])
       = Some timestamps
       /\ In 3 timestamps.
Proof.
  intros atoms.
  destruct (flush_loses_no_atom Sample.pushConfig) as (Hcount & Hfiled & _).
  split; [exact (Hcount atoms)|].
  apply (Hfiled atoms {| mFields := [ ((100, 2), INT 5) ]; mElapsedTimestampNs := 3 |}).
  right. right. left. reflexivity.
Defined.

(** ** The memory the producer accounts for *)

Section ByteSize.

Context (cfg : Config) (env : Collaborators).

Lemma byteSizeLocked_no_past_buckets sizeofFieldValue p :
  mPastBuckets p = ∅ -> byteSizeLocked sizeofFieldValue p = 0%nat.
Proof. intros Hempty. unfold byteSizeLocked. rewrite Hempty. apply map_fold_empty. Qed.

(** An event that is not a trigger and falls into the current bucket
    closes no bucket. *)
Lemma onMatchedLogEventInternalLocked_in_bucket pullAndMatch p eventKey condition event :
  GetElapsedTimestampNs event < getCurrentBucketEndTimeNs cfg p ->
  mTriggerAtomId cfg <> GetTagId event ->
  let q :=
    onMatchedLogEventInternalLocked cfg env pullAndMatch p eventKey condition event in
  mPastBuckets q = mPastBuckets p
  /\ mSkippedBuckets q = mSkippedBuckets p
  /\ mCurrentBucketNum q = mCurrentBucketNum p
  /\ mCurrentBucketStartTimeNs q = mCurrentBucketStartTimeNs p.
Proof.
  intros Hin Htrigger. cbv zeta. unfold onMatchedLogEventInternalLocked.
  destruct (negb condition); [repeat split|].
  destruct (_ && _); [repeat split|]. cbv zeta.
  destruct (_ <? _); [repeat split|].
  assert (Hflush : flushIfNeededLocked cfg p (GetElapsedTimestampNs event) = p).
  { unfold flushIfNeededLocked. apply Z.ltb_lt in Hin. rewrite Hin. reflexivity. }
  rewrite Hflush.
  apply Z.eqb_neq in Htrigger. rewrite Htrigger.
  destruct (_ && _); [repeat split|].
  destruct (decide (is_Some (mCurrentSlicedBucket p !! eventKey))) as [Hsome|Hnone];
    unfold hitGuardRailLocked;
    [rewrite (decide_True _ _ Hsome) | rewrite (decide_False _ _ Hnone)].
  - destruct (_ <=? _)%nat; repeat split.
  - destruct (mDimensionSoftLimit cfg <=? _)%nat;
      [destruct (mDimensionHardLimit cfg <? _)%nat|];
      try (repeat split; fail);
      destruct (_ <=? _)%nat; repeat split.
Qed.

End ByteSize.

(** X5. [byteSizeLocked] accounts for closed buckets only. It is 0 for a
    producer without past buckets, whatever its current bucket holds, so
    it is 0 right after [dropData] and [clearPastBuckets]; and an event
    that is not a trigger and falls into the current bucket leaves it
    unchanged, although the event's atom is stored. *)
Theorem byteSize_counts_closed_buckets_only (cfg : Config) (env : Collaborators)
    (sizeofFieldValue : nat) (p : Producer) :
  (mPastBuckets p = ∅ -> byteSizeLocked sizeofFieldValue p = 0%nat)
  /\ (forall timeNs,
        byteSizeLocked sizeofFieldValue (dropDataLocked cfg p timeNs) = 0%nat
        /\ byteSizeLocked sizeofFieldValue (clearPastBucketsLocked cfg p timeNs) = 0%nat)
  /\ (forall eventKey condition event,
        GetElapsedTimestampNs event < getCurrentBucketEndTimeNs cfg p ->
        mTriggerAtomId cfg <> GetTagId event ->
        byteSizeLocked sizeofFieldValue
          (onMatchedLogEventInternalLocked cfg env (pullAndMatchEventsLocked cfg env)
             p eventKey condition event)
        = byteSizeLocked sizeofFieldValue p).
Proof.
  split; [apply byteSizeLocked_no_past_buckets|]. split.
  - intros timeNs. split; apply byteSizeLocked_no_past_buckets; reflexivity.
  - intros eventKey condition event Hin Htrigger.
    destruct (onMatchedLogEventInternalLocked_in_bucket cfg env
                (pullAndMatchEventsLocked cfg env) p eventKey condition event
                Hin Htrigger) as (Hpast & _).
    unfold byteSizeLocked. rewrite Hpast. reflexivity.
Qed.

Lemma byteSize_counts_closed_buckets_only_witness :
  let p :=
    run Sample.pushConfig Sample.collaborators
        [ OnMatchedLogEvent (Sample.event 1 1 (INT 5));
          OnMatchedLogEvent (Sample.event 11 1 (INT 6)) ] Sample.fresh in
  byteSizeLocked 24 p = 56%nat
  /\ byteSizeLocked 24
       (onMatchedLogEventInternalLocked Sample.pushConfig Sample.collaborators
          (pullAndMatchEventsLocked Sample.pushConfig Sample.collaborators)
          p (Sample.dimension 2) true (Sample.event 12 2 (INT 7)))
     = 56%nat
  /\ byteSizeLocked 24 (dropDataLocked Sample.pushConfig p 12) = 0%nat.
Proof.
  intros p.
  assert (Hsize : byteSizeLocked 24 p = 56%nat) by (vm_compute; reflexivity).
  destruct (byteSize_counts_closed_buckets_only Sample.pushConfig Sample.collaborators 24 p)
    as (_ & Hcleared & Hkept).
  split; [exact Hsize|]. split.
  - rewrite Hkept; [exact Hsize | vm_compute; reflexivity | vm_compute; discriminate].
  - exact (proj1 (Hcleared 12)).
Defined.

(** ** Pulls that fail *)

(** X11. A pull that fails appends nothing and records no delay:
    whether the puller has no answer or answers with a failure,
    [pullAndMatchEventsLocked] leaves the producer as it is, apart from
    the call made to the puller. Under a sampling type that is none of
    the three the producer knows, the puller is not even called. *)
Theorem failed_pull_appends_nothing (cfg : Config) (env : Collaborators)
    (p : Producer) (timestampNs : Z) :
  (triggerPuller cfg p = true ->
   (pullerAnswers (world p) = []
    \/ exists answer rest,
         pullerAnswers (world p) = answer :: rest /\ pullSucceeded answer = false) ->
   pullAndMatchEventsLocked cfg env p timestampNs
   = set_world
       {| statsdStats := statsdStats (world p);
          anomalyCalls := anomalyCalls (world p);
          pullerCalls := pullerCalls (world p) ++ [ (mPullTagId cfg, timestampNs) ];
          pullerAnswers := tail (pullerAnswers (world p)) |} p)
  /\ (mSamplingType cfg = OTHER_SAMPLING_TYPE ->
      pullAndMatchEventsLocked cfg env p timestampNs = p).
Proof.
  split.
  - intros Htrigger Hfail.
    rewrite pullAndMatchEventsLocked_unfold. unfold pullAndMatchEventsBody.
    rewrite Htrigger. cbn [negb]. unfold Pull. cbv zeta.
    destruct Hfail as [Hnone | (answer & rest & Hanswers & Hfailed)].
    + rewrite Hnone. reflexivity.
    + rewrite Hanswers, Hfailed. reflexivity.
  - intros Hsampling.
    rewrite pullAndMatchEventsLocked_unfold. unfold pullAndMatchEventsBody, triggerPuller.
    rewrite Hsampling. reflexivity.
Qed.

Lemma failed_pull_appends_nothing_witness :
  let answer :=
    {| pullSucceeded := false;
       pulledData := [ Sample.event 5 1 (INT 5) ];
       elapsedRealtimeAfterPull := 6 |} in
  let p :=
    set_world {| statsdStats := []; anomalyCalls := []; pullerCalls := [];
                 pullerAnswers := [ answer ] |} Sample.fresh in
  let q := pullAndMatchEventsLocked Sample.pullConfig Sample.collaborators p 5 in
  mCurrentSlicedBucket q = ∅
  /\ statsdStats (world q) = []
  /\ pullerCalls (world q) = [ (200, 5) ].
Proof.
  intros answer p q.
  destruct (failed_pull_appends_nothing Sample.pullConfig Sample.collaborators p 5)
    as [Hfailed _].
  subst q. rewrite Hfailed.
  - repeat split.
  - vm_compute. reflexivity.
  - right. exists answer, []. split; reflexivity.
Defined.

(** ** The per-dimension limit *)

Section AtomLimit.

Context (cfg : Config) (env : Collaborators).

Lemma set_mCurrentSlicedBucket_same p :
  set_mCurrentSlicedBucket (mCurrentSlicedBucket p) p = p.
Proof. destruct p. reflexivity. Qed.

Lemma hitGuardRailLocked_present p newKey :
  is_Some (mCurrentSlicedBucket p !! newKey) ->
  hitGuardRailLocked cfg p newKey = (false, p).
Proof.
  intros Hsome. unfold hitGuardRailLocked. rewrite (decide_True _ _ Hsome). reflexivity.
Qed.

End AtomLimit.

(** X14. An event for a dimension whose list of gauge atoms is at
    [mGaugeAtomsPerDimensionLimit] is dropped without a trace: the
    producer is exactly the one the flush at the event time leaves. With
    a limit of 0, an event for a new dimension that the guardrail lets
    in still creates the dimension, with no atom. *)
Theorem atom_over_limit_is_dropped (cfg : Config) (env : Collaborators)
    (p : Producer) (eventKey : MetricDimensionKey) (condition : bool)
    (event : LogEvent) :
  let p1 := flushIfNeededLocked cfg p (GetElapsedTimestampNs event) in
  let q :=
    onMatchedLogEventInternalLocked cfg env (pullAndMatchEventsLocked cfg env)
      p eventKey condition event in
  reachesGuardrail cfg env p eventKey condition event = true ->
  (forall atoms,
     mCurrentSlicedBucket p1 !! eventKey = Some atoms ->
     (mGaugeAtomsPerDimensionLimit cfg <= length atoms)%nat ->
     q = p1)
  /\ (mCurrentSlicedBucket p1 !! eventKey = None ->
      fst (hitGuardRailLocked cfg p1 eventKey) = false ->
      mGaugeAtomsPerDimensionLimit cfg = 0%nat ->
      mCurrentSlicedBucket q = <[eventKey := []]> (mCurrentSlicedBucket p1)).
Proof.
  intros p1 q Hreach.
  unfold reachesGuardrail in Hreach. cbv zeta in Hreach. fold p1 in Hreach.
  rewrite !andb_true_iff, !negb_true_iff in Hreach.
  destruct Hreach as ((((Hcond & Hsample) & Hlate) & Htrigger) & Hone).
  assert (Hq : q = let '(hit, p2) := hitGuardRailLocked cfg p1 eventKey in
                   if hit then p2
                   else
                     let atoms := default [] (mCurrentSlicedBucket p2 !! eventKey) in
                     let p3 :=
                       set_mCurrentSlicedBucket
                         (<[eventKey := atoms]> (mCurrentSlicedBucket p2)) p2 in
                     if (mGaugeAtomsPerDimensionLimit cfg <=? length atoms)%nat then p3
                     else
                       let gaugeAtom :=
                         {| mFields := getGaugeFields cfg env event;
                            mElapsedTimestampNs := truncateTimestampIfNecessary env event |} in
                       let p4 :=
                         set_mCurrentSlicedBucket
                           (<[eventKey := atoms ++ [gaugeAtom]]> (mCurrentSlicedBucket p3))
                           p3 in
                       tellTrackers
                         (anomalyCallsOnAppend cfg p4 (GetElapsedTimestampNs event)
                            eventKey gaugeAtom) p4).
  { subst q. unfold onMatchedLogEventInternalLocked.
    rewrite Hcond. cbn [negb]. rewrite Hsample. cbv zeta.
    rewrite Hlate, Htrigger. fold p1. rewrite Hone. reflexivity. }
  split.
  - intros atoms Hpresent Hfull.
    rewrite Hq, hitGuardRailLocked_present by (rewrite Hpresent; eexists; reflexivity).
    cbv zeta. rewrite Hpresent. cbn [default option.from_option]. unfold id.
    apply Nat.leb_le in Hfull. rewrite Hfull.
    rewrite insert_id by exact Hpresent.
    apply set_mCurrentSlicedBucket_same.
  - intros Habsent Hguard Hzero.
    pose proof (hitGuardRailLocked_frame cfg p1 eventKey) as (Hcur & _).
    cbv zeta in Hcur.
    rewrite Hq. destruct (hitGuardRailLocked cfg p1 eventKey) as [hit p2].
    cbn [fst snd] in *. subst hit. cbv zeta.
    rewrite Hcur, Habsent, Hzero. reflexivity.
Qed.

Lemma atom_over_limit_is_dropped_witness :
  let cfg :=
    {| mMetricId := 7; mTimeBaseNs := 0; mBucketSizeNs := 10; mMinBucketSizeNs := 0;
       mWhatMatcherIndex := 0; mPullTagId := -1; mTriggerAtomId := -1; mAtomId := 100;
       mSamplingType := FIRST_N_SAMPLES; isRandomNSamples := true;
       mMaxPullDelayNs := 50;
       mDimensionSoftLimit := 500; mDimensionHardLimit := 800;
       mGaugeAtomsPerDimensionLimit := 2;
       mSamplingPercentage := 100; mFieldMatchers := []; mDimensionsInWhat := [];
       mShouldUseNestedDimensions := false; mConditionSliced := false |} in
  let p :=
    run cfg Sample.collaborators
        [ OnMatchedLogEvent (Sample.event 1 1 (INT 5));
          OnMatchedLogEvent (Sample.event 2 1 (INT 6)) ] Sample.fresh in
  onMatchedLogEventInternalLocked cfg Sample.collaborators
    (pullAndMatchEventsLocked cfg Sample.collaborators)
    p (Sample.dimension 1) true (Sample.event 3 1 (INT 7))
  = p.
Proof.
  intros cfg p.
  destruct (atom_over_limit_is_dropped cfg Sample.collaborators
              p (Sample.dimension 1) true (Sample.event 3 1 (INT 7)))
    as [Hdropped _]; [vm_compute; reflexivity|].
  rewrite (Hdropped
             [ {| mFields := [ ((100, 1), INT 1); ((100, 2), INT 5) ];
                  mElapsedTimestampNs := 1 |};
               {| mFields := [ ((100, 1), INT 1); ((100, 2), INT 6) ];
                  mElapsedTimestampNs := 2 |} ]).
  - vm_compute. reflexivity.
  - vm_compute. reflexivity.
  - cbn. lia.
Defined.

(** ** Forced splits of the current bucket *)

Section Splits.

Context (cfg : Config).



(** [flushIfNeededLocked] on a producer whose current bucket is empty
    adds no past bucket. *)
Lemma flushIfNeededLocked_empty_bucket (p : Producer) (eventTimeNs : Z) :
  mCurrentSlicedBucket p = ∅ ->
  mPastBuckets (flushIfNeededLocked cfg p eventTimeNs) = mPastBuckets p.
Proof.
  intros Hempty. rewrite flushIfNeededLocked_unfold. cbv zeta.
  destruct (eventTimeNs <? getCurrentBucketEndTimeNs cfg p); [reflexivity|].
  match goal with
  | |- mPastBuckets (set_mCurrentBucketNum _ (flushCurrentBucketLocked _ _ _ ?next)) = _ =>
      pose proof (flushCurrentBucketLocked_buckets cfg p eventTimeNs next)
        as (_ & _ & Hbuckets)
  end.
  cbv zeta in Hbuckets.
  destruct (mMinBucketSizeNs cfg <=? _); destruct Hbuckets as [Hpast _].
  - change (mPastBuckets (set_mCurrentBucketNum ?n ?q)) with (mPastBuckets q).
    rewrite Hpast, Hempty. apply map_fold_empty.
  - exact Hpast.
Qed.

End Splits.



(** X4. The constructor and the destructor. Within [int64_t], the
    producer the constructor builds has an empty current bucket that
    starts at [startTimeNs] and ends after it, its guardrail flag is
    false, and it has the past buckets the base class gave it. The
    constructor registers with the puller manager exactly when the
    destructor unregisters, for the same atom; the first pull is asked
    for the end of the bucket of [startTimeNs], later than
    [startTimeNs], and then every [mBucketSizeNs]. *)
Theorem constructor_opens_partial_bucket (cfg : Config) (base : Producer)
    (startTimeNs : Z) :
  withinInt64 cfg base startTimeNs ->
  let p := fst (GaugeMetricProducer_constructor cfg base startTimeNs) in
  let registered := snd (GaugeMetricProducer_constructor cfg base startTimeNs) in
  mCurrentSlicedBucket p = ∅
  /\ mCurrentBucketStartTimeNs p = startTimeNs
  /\ startTimeNs < getCurrentBucketEndTimeNs cfg p
  /\ mDimensionGuardrailHit p = false
  /\ mPastBuckets p = mPastBuckets base
  /\ (registered = [] <-> GaugeMetricProducer_destructor cfg = [])
  /\ (forall call,
        In call registered ->
        call = RegisterReceiver (mPullTagId cfg) (getCurrentBucketEndTimeNs cfg p)
                 (mBucketSizeNs cfg)
        /\ GaugeMetricProducer_destructor cfg = [ UnRegisterReceiver (mPullTagId cfg) ]).
Proof.
  intros Hwithin p registered.
  set (p0 := set_mCurrentSlicedBucketForAnomaly ∅
               (set_mCurrentSlicedBucket ∅ (set_mDimensionGuardrailHit false base))).
  set (p1 := flushIfNeededLocked cfg p0 startTimeNs).
  assert (Hp : p = set_mCurrentBucketStartTimeNs startTimeNs p1) by reflexivity.
  assert (Hend : getCurrentBucketEndTimeNs cfg p = getCurrentBucketEndTimeNs cfg p1)
    by reflexivity.
  destruct (flushIfNeededLocked_within cfg p0 startTimeNs Hwithin) as (Hbefore & _).
  fold p1 in Hbefore.
  split.
  { rewrite Hp.
    change (mCurrentSlicedBucket (set_mCurrentBucketStartTimeNs startTimeNs p1))
      with (mCurrentSlicedBucket p1).
    unfold p1. rewrite flushIfNeededLocked_mCurrentSlicedBucket.
    destruct (startTimeNs <? _); reflexivity. }
  split; [reflexivity|].
  split; [rewrite Hend; exact Hbefore|].
  split.
  { rewrite Hp.
    change (mDimensionGuardrailHit (set_mCurrentBucketStartTimeNs startTimeNs p1))
      with (mDimensionGuardrailHit p1).
    unfold p1. rewrite flushIfNeededLocked_mDimensionGuardrailHit. reflexivity. }
  split.
  { rewrite Hp.
    change (mPastBuckets (set_mCurrentBucketStartTimeNs startTimeNs p1))
      with (mPastBuckets p1).
    unfold p1. rewrite flushIfNeededLocked_empty_bucket by reflexivity. reflexivity. }
  assert (Hregistered :
            registered
            = if mIsPulled cfg && isRandomNSamples cfg
              then [ RegisterReceiver (mPullTagId cfg) (getCurrentBucketEndTimeNs cfg p1)
                       (mBucketSizeNs cfg) ]
              else []) by reflexivity.
  rewrite Hregistered, Hend. unfold GaugeMetricProducer_destructor.
  destruct (mIsPulled cfg && isRandomNSamples cfg).
  - split; [split; intros Hnil; discriminate Hnil|].
    intros call [<-|[]]. split; reflexivity.
  - split; [split; reflexivity|]. intros call [].
Qed.

Lemma constructor_opens_partial_bucket_witness :
  let p := fst (GaugeMetricProducer_constructor Sample.pullConfig Sample.fresh 25) in
  mCurrentBucketStartTimeNs p = 25
  /\ 25 < getCurrentBucketEndTimeNs Sample.pullConfig p.
Proof.
  intros p.
  destruct (constructor_opens_partial_bucket Sample.pullConfig Sample.fresh 25)
    as (_ & Hstart & Hbefore & _).
  { unfold withinInt64, Int64.half. vm_compute. repeat split; congruence. }
  split; [exact Hstart | exact Hbefore].
Defined.

(** ** The anomaly trackers at a flush *)

Section AnomalyAtFlush.

Context (cfg : Config).


End AnomalyAtFlush.


(** ** Dumps, one after the other *)

Section DumpTwice.

Context (cfg : Config).

Lemma flushIfNeededLocked_mIsActive (p : Producer) (eventTimeNs : Z) :
  mIsActive (flushIfNeededLocked cfg p eventTimeNs) = mIsActive p.
Proof.
  rewrite flushIfNeededLocked_unfold. cbv zeta.
  destruct (eventTimeNs <? _); [reflexivity|].
  exact (flushCurrentBucketLocked_mIsActive cfg _ _ _).
Qed.

(** A dump whose flush does nothing and that finds no closed bucket
    writes the identifier and the active state only. *)
Lemma onDumpReportLocked_nothing (p : Producer) (dumpTimeNs : Z) (erase_data : bool) :
  flushIfNeededLocked cfg p dumpTimeNs = p ->
  mPastBuckets p = ∅ ->
  mSkippedBuckets p = [] ->
  onDumpReportLocked cfg p dumpTimeNs false erase_data
  = (p, [ write_int64 FIELD_ID_ID (mMetricId cfg);
          write_bool FIELD_ID_IS_ACTIVE (mIsActive p) ]).
Proof.
  intros Hflush Hpast Hskipped. unfold onDumpReportLocked. cbv zeta.
  rewrite Hflush, Hpast, Hskipped.
  rewrite !bool_decide_eq_true_2 by reflexivity. reflexivity.
Qed.

End DumpTwice.

(** X15. A dump that neither erases nor includes the partial bucket can
    be repeated: within [int64_t], a second such dump at the same or an
    earlier time leaves the producer as the first left it and writes the
    same report. *)
Theorem dump_without_erase_is_repeatable (cfg : Config) (p : Producer)
    (dumpTimeNs earlierNs : Z) :
  withinInt64 cfg p dumpTimeNs ->
  earlierNs <= dumpTimeNs ->
  onDumpReportLocked cfg (fst (onDumpReportLocked cfg p dumpTimeNs false false))
    earlierNs false false
  = onDumpReportLocked cfg p dumpTimeNs false false.
Proof.
  intros Hwithin Hearlier.
  assert (Hfirst : fst (onDumpReportLocked cfg p dumpTimeNs false false)
                   = flushIfNeededLocked cfg p dumpTimeNs).
  { unfold onDumpReportLocked. cbv zeta. destruct (_ && _); reflexivity. }
  rewrite Hfirst. unfold onDumpReportLocked at 1. cbv zeta.
  rewrite (flushIfNeededLocked_again cfg p dumpTimeNs earlierNs Hwithin Hearlier).
  reflexivity.
Qed.

Lemma dump_without_erase_is_repeatable_witness :
  let p := run Sample.pushConfig Sample.collaborators
               [ OnMatchedLogEvent (Sample.event 3 1 (INT 5)) ] Sample.fresh in
  onDumpReportLocked Sample.pushConfig
    (fst (onDumpReportLocked Sample.pushConfig p 25 false false)) 21 false false
  = onDumpReportLocked Sample.pushConfig p 25 false false.
Proof.
  intros p.
  apply (dump_without_erase_is_repeatable Sample.pushConfig p 25 21).
  - unfold withinInt64, Int64.half. vm_compute. repeat split; congruence.
  - lia.
Defined.

(** X16. After a dump that erases, nothing is left to report: within
    [int64_t], a dump at the same or an earlier time that does not
    include the partial bucket writes the identifier of the metric and
    its active state, nothing else, and changes nothing. *)
Theorem dump_after_erase_reports_nothing (cfg : Config) (p : Producer)
    (dumpTimeNs earlierNs : Z) (include_current_partial_bucket erase_again : bool) :
  withinInt64 cfg p dumpTimeNs ->
  earlierNs <= dumpTimeNs ->
  let erased :=
    fst (onDumpReportLocked cfg p dumpTimeNs include_current_partial_bucket true) in
  onDumpReportLocked cfg erased earlierNs false erase_again
  = (erased, [ write_int64 FIELD_ID_ID (mMetricId cfg);
               write_bool FIELD_ID_IS_ACTIVE (mIsActive p) ]).
Proof.
  intros Hwithin Hearlier erased.
  set (flushed := flushedForDump cfg p dumpTimeNs include_current_partial_bucket).
  assert (Herased : erased
                    = if nothingToReport flushed then flushed
                      else set_mDimensionGuardrailHit false
                             (set_mSkippedBuckets [] (set_mPastBuckets ∅ flushed))).
  { subst erased. unfold onDumpReportLocked. cbv zeta.
    change (if include_current_partial_bucket then flushLocked cfg p dumpTimeNs
            else flushIfNeededLocked cfg p dumpTimeNs) with flushed.
    fold (nothingToReport flushed). destruct (nothingToReport flushed); reflexivity. }
  destruct (flushIfNeededLocked_within cfg p dumpTimeNs Hwithin) as (Hbefore & _).
  assert (Hnum : mCurrentBucketNum erased
                 = mCurrentBucketNum (flushIfNeededLocked cfg p dumpTimeNs)).
  { rewrite Herased.
    assert (Hflushed : mCurrentBucketNum flushed
                       = mCurrentBucketNum (flushIfNeededLocked cfg p dumpTimeNs)).
    { subst flushed. unfold flushedForDump, flushLocked.
      destruct include_current_partial_bucket; [|reflexivity].
      apply flushCurrentBucketLocked_mCurrentBucketNum. }
    destruct (nothingToReport flushed); exact Hflushed. }
  assert (Hactive : mIsActive erased = mIsActive p).
  { rewrite Herased.
    assert (Hflushed : mIsActive flushed = mIsActive p).
    { subst flushed. unfold flushedForDump, flushLocked.
      destruct include_current_partial_bucket.
      - rewrite flushCurrentBucketLocked_mIsActive. apply flushIfNeededLocked_mIsActive.
      - apply flushIfNeededLocked_mIsActive. }
    destruct (nothingToReport flushed); exact Hflushed. }
  assert (Hempty : mPastBuckets erased = ∅ /\ mSkippedBuckets erased = []).
  { rewrite Herased. destruct (nothingToReport flushed) eqn:Hnothing.
    - apply nothingToReport_true. exact Hnothing.
    - split; reflexivity. }
  assert (Hnoop : flushIfNeededLocked cfg erased earlierNs = erased).
  { unfold flushIfNeededLocked, getCurrentBucketEndTimeNs. rewrite Hnum.
    fold (getCurrentBucketEndTimeNs cfg (flushIfNeededLocked cfg p dumpTimeNs)).
    assert (Hcmp : (earlierNs
                    <? getCurrentBucketEndTimeNs cfg
                         (flushIfNeededLocked cfg p dumpTimeNs)) = true)
      by (apply Z.ltb_lt; lia).
    rewrite Hcmp. reflexivity. }
  rewrite <- Hactive.
  apply onDumpReportLocked_nothing; [exact Hnoop | apply Hempty | apply Hempty].
Qed.

Lemma dump_after_erase_reports_nothing_witness :
  let p := run Sample.pushConfig Sample.collaborators
               [ OnMatchedLogEvent (Sample.event 3 1 (INT 5)) ] Sample.fresh in
  snd (onDumpReportLocked Sample.pushConfig
         (fst (onDumpReportLocked Sample.pushConfig p 25 true true)) 25 false false)
  = [ write_int64 FIELD_ID_ID 7; write_bool FIELD_ID_IS_ACTIVE true ].
Proof.
  intros p.
  rewrite (dump_after_erase_reports_nothing Sample.pushConfig p 25 25 true false).
  - reflexivity.
  - unfold withinInt64, Int64.half. vm_compute. repeat split; congruence.
  - lia.
Defined.

(** ** The gauge fields *)

(** X18. [getGaugeFields] trims the dimensions from the fields of an
    atom: the loops that erase, dimension after dimension, the fields
    that match it keep exactly the fields that match no dimension of
    [mDimensionsInWhat], in their order. So no gauge field of an atom
    matches a dimension, and a candidate field that matches none is
    kept. *)
Theorem gauge_fields_match_no_dimension (cfg : Config) (env : Collaborators)
    (event : LogEvent) :
  let candidates :=
    if (0 <? length (mFieldMatchers cfg))%nat
    then filterGaugeValues env (mFieldMatchers cfg) (getValues event)
    else getValues event in
  getGaugeFields cfg env event
  = List.filter
      (fun it =>
         forallb (fun field => negb (matches env (mField it) field))
                 (mDimensionsInWhat cfg))
      candidates
  /\ (forall fv field,
        In fv (getGaugeFields cfg env event) ->
        In field (mDimensionsInWhat cfg) ->
        matches env (mField fv) field = false)
  /\ (forall fv,
        In fv candidates ->
        (forall field,
           In field (mDimensionsInWhat cfg) -> matches env (mField fv) field = false) ->
        In fv (getGaugeFields cfg env event)).
Proof.
  intros candidates.
  assert (Hclosed :
            getGaugeFields cfg env event
            = List.filter
                (fun it =>
                   forallb (fun field => negb (matches env (mField it) field))
                           (mDimensionsInWhat cfg))
                candidates).
  { unfold getGaugeFields. cbv zeta. fold candidates.
    generalize candidates as fields.
    induction (mDimensionsInWhat cfg) as [|dimension dimensions IH]; intros fields.
    - cbn [fold_left forallb]. induction fields as [|fv fields IHf]; [reflexivity|].
      cbn [List.filter]. f_equal. exact IHf.
    - cbn [fold_left forallb]. rewrite IH.
      induction fields as [|fv fields IHf]; [reflexivity|].
      cbn [List.filter].
      destruct (negb (matches env (mField fv) dimension)); cbn [andb List.filter].
      + destruct (forallb _ dimensions); [f_equal|]; exact IHf.
      + exact IHf. }
  split; [exact Hclosed|]. split.
  - intros fv field Hin Hfield. rewrite Hclosed in Hin.
    apply filter_In in Hin as [_ Hall].
    rewrite forallb_forall in Hall. specialize (Hall field Hfield).
    apply negb_true_iff in Hall. exact Hall.
  - intros fv Hin Hnone. rewrite Hclosed. apply filter_In. split; [exact Hin|].
    apply forallb_forall. intros field Hfield. rewrite (Hnone field Hfield). reflexivity.
Qed.

Lemma gauge_fields_match_no_dimension_witness :
  In ((100, 2), INT 5)
     (getGaugeFields Sample.slicedConfig Sample.collaborators (Sample.event 3 1 (INT 5)))
  /\ matches Sample.collaborators (100, 2) ((100, 1), -1) = false.
Proof.
  destruct (gauge_fields_match_no_dimension Sample.slicedConfig Sample.collaborators
              (Sample.event 3 1 (INT 5))) as (_ & Hnone & Hkept).
  assert (Hin : In ((100, 2), INT 5)
                   (getGaugeFields Sample.slicedConfig Sample.collaborators
                      (Sample.event 3 1 (INT 5)))).
  { apply Hkept.
    - right. left. reflexivity.
    - intros field [<-|[]]. reflexivity. }
  split; [exact Hin|].
  apply (Hnone ((100, 2), INT 5) ((100, 1), -1) Hin).
  left. reflexivity.
Defined.

(** ** The inactive producer *)

Section Idle.

Context (cfg : Config) (env : Collaborators).

Lemma staysIdle_refl (p : Producer) : mIsActive p = false -> staysIdle p p.
Proof. intros Hidle. split; [exact Hidle|]. split; [reflexivity|]. split; left; reflexivity. Qed.

Lemma staysIdle_trans (p q r : Producer) :
  staysIdle p q -> staysIdle q r -> staysIdle p r.
Proof.
  intros (_ & Hcalls & Hbucket & Hskipped) (Hidle & Hcalls' & Hbucket' & Hskipped').
  split; [exact Hidle|]. split; [congruence|]. split.
  - destruct Hbucket' as [Hsame|Hempty]; [|right; exact Hempty].
    rewrite Hsame. exact Hbucket.
  - destruct Hskipped' as [Hsame|Hempty]; [|right; exact Hempty].
    rewrite Hsame. exact Hskipped.
Qed.

Lemma flushCurrentBucketLocked_pullerCalls (p : Producer) (eventTimeNs nextNs : Z) :
  pullerCalls (world (flushCurrentBucketLocked cfg p eventTimeNs nextNs))
  = pullerCalls (world p).
Proof.
  unfold flushCurrentBucketLocked. cbv zeta.
  destruct (mMinBucketSizeNs cfg <=? _); [|destruct (mIsActive p)];
    (destruct (0 <? _)%nat; [destruct (getCurrentBucketEndTimeNs cfg p <? _)|]);
    reflexivity.
Qed.

Lemma staysIdle_flushCurrentBucketLocked (p : Producer) (eventTimeNs nextNs : Z) :
  mIsActive p = false ->
  staysIdle p (flushCurrentBucketLocked cfg p eventTimeNs nextNs).
Proof.
  intros Hidle.
  split; [rewrite flushCurrentBucketLocked_mIsActive; exact Hidle|].
  split; [apply flushCurrentBucketLocked_pullerCalls|].
  split; [right; reflexivity|].
  pose proof (flushCurrentBucketLocked_buckets cfg p eventTimeNs nextNs)
    as (_ & _ & Hbuckets).
  cbv zeta in Hbuckets. rewrite Hidle in Hbuckets.
  destruct (mMinBucketSizeNs cfg <=? _); destruct Hbuckets as [_ Hskipped];
    left; exact Hskipped.
Qed.

Lemma staysIdle_flushIfNeededLocked (p : Producer) (eventTimeNs : Z) :
  mIsActive p = false -> staysIdle p (flushIfNeededLocked cfg p eventTimeNs).
Proof.
  intros Hidle. rewrite flushIfNeededLocked_unfold. cbv zeta.
  destruct (eventTimeNs <? _); [apply staysIdle_refl; exact Hidle|].
  match goal with
  | |- staysIdle p (set_mCurrentBucketNum _ (flushCurrentBucketLocked _ _ _ ?next)) =>
      destruct (staysIdle_flushCurrentBucketLocked p eventTimeNs next Hidle)
        as (Hidle' & Hcalls & Hbucket & Hskipped)
  end.
  split; [exact Hidle'|]. split; [exact Hcalls|]. split; [exact Hbucket | exact Hskipped].
Qed.

Lemma staysIdle_flushLocked (p : Producer) (eventTimeNs : Z) :
  mIsActive p = false -> staysIdle p (flushLocked cfg p eventTimeNs).
Proof.
  intros Hidle. unfold flushLocked.
  pose proof (staysIdle_flushIfNeededLocked p eventTimeNs Hidle) as Hfirst.
  eapply staysIdle_trans; [exact Hfirst|].
  apply staysIdle_flushCurrentBucketLocked. apply Hfirst.
Qed.

(** An inactive producer ignores the pulled data. *)
Lemma matchAndAppend_inactive (pullAndMatch : Producer -> Z -> Producer)
    (stamp : option Z) (allData : list LogEvent) (p : Producer) :
  mIsActive p = false ->
  matchAndAppend cfg env pullAndMatch stamp allData p = p.
Proof.
  intros Hidle. unfold matchAndAppend.
  induction allData as [|data allData IH]; [reflexivity|].
  cbn [fold_left].
  destruct (matchLogEvent env data (mWhatMatcherIndex cfg)) as [matchResult transformed].
  destruct matchResult; try exact IH.
  unfold onMatchedLogEventLocked at 2. rewrite Hidle. cbn [negb]. exact IH.
Qed.

Lemma staysIdle_perform (p : Producer) (op : Operation) :
  mIsActive p = false ->
  activates op = false ->
  staysIdle p (perform cfg env p op).
Proof.
  intros Hidle Hop.
  destruct op as [event | condition eventTime | overall eventTime
                 | allData pullResult originalNs elapsedNs
                 | dumpTimeNs include erase_data | dumpTimeNs | dropNs |
                 | eventTimeNs isActive | isActive | eventTimeNs | ];
    cbn [perform].
  - unfold onMatchedLogEventLocked. rewrite Hidle. cbn [negb].
    apply staysIdle_refl. exact Hidle.
  - unfold onConditionChangedLocked. cbv zeta.
    change (mIsActive (set_mCondition ?c p)) with (mIsActive p).
    rewrite Hidle. cbn [negb].
    split; [exact Hidle|]. split; [reflexivity|]. split; left; reflexivity.
  - unfold onSlicedConditionMayChangeLocked. cbv zeta.
    change (mIsActive (set_mCondition ?c p)) with (mIsActive p).
    rewrite Hidle. cbn [negb].
    split; [exact Hidle|]. split; [reflexivity|]. split; left; reflexivity.
  - unfold onDataPulled. cbv zeta.
    destruct (negb (isPullSuccess pullResult) || _); [apply staysIdle_refl; exact Hidle|].
    destruct (mMaxPullDelayNs cfg <? _).
    + split; [exact Hidle|]. split; [reflexivity|]. split; left; reflexivity.
    + rewrite matchAndAppend_inactive by exact Hidle.
      split; [exact Hidle|]. split; [reflexivity|]. split; left; reflexivity.
  - assert (Hflushed : staysIdle p (flushedForDump cfg p dumpTimeNs include)).
    { unfold flushedForDump. destruct include;
        [apply staysIdle_flushLocked | apply staysIdle_flushIfNeededLocked]; exact Hidle. }
    unfold onDumpReportLocked. cbv zeta.
    change (if include then flushLocked cfg p dumpTimeNs
            else flushIfNeededLocked cfg p dumpTimeNs)
      with (flushedForDump cfg p dumpTimeNs include).
    destruct (_ && _); [exact Hflushed|].
    cbn [fst]. destruct erase_data; [|exact Hflushed].
    destruct Hflushed as (Hidle' & Hcalls & Hbucket & _).
    split; [exact Hidle'|]. split; [exact Hcalls|]. split; [exact Hbucket|].
    right. reflexivity.
  - destruct (staysIdle_flushIfNeededLocked p dumpTimeNs Hidle)
      as (Hidle' & Hcalls & Hbucket & _).
    unfold clearPastBucketsLocked.
    split; [exact Hidle'|]. split; [exact Hcalls|]. split; [exact Hbucket|].
    right. reflexivity.
  - destruct (staysIdle_flushIfNeededLocked p dropNs Hidle)
      as (Hidle' & Hcalls & Hbucket & Hskipped).
    unfold dropDataLocked.
    split; [exact Hidle'|]. split; [exact Hcalls|]. split; [exact Hbucket|].
    exact Hskipped.
  - unfold prepareFirstBucketLocked. rewrite Hidle.
    destruct (isTrue (mCondition p)); apply staysIdle_refl; exact Hidle.
  - destruct isActive; [discriminate Hop|].
    unfold onActiveStateChangedLocked. cbv zeta. cbn [negb andb].
    destruct (negb (isTrue _)); apply staysIdle_flushLocked; exact Hidle.
  - destruct isActive; [discriminate Hop|].
    split; [reflexivity|]. split; [reflexivity|]. split; left; reflexivity.
  - apply staysIdle_flushLocked. exact Hidle.
  - split; [exact Hidle|]. split; [reflexivity|]. split; left; reflexivity.
Qed.

Lemma staysIdle_run (ops : list Operation) (p : Producer) :
  mIsActive p = false ->
  forallb (fun op => negb (activates op)) ops = true ->
  staysIdle p (run cfg env ops p).
Proof.
  revert p. induction ops as [|op ops IH]; intros p Hidle Hops.
  - apply staysIdle_refl. exact Hidle.
  - cbn [forallb] in Hops. apply andb_true_iff in Hops as [Hop Hops].
    apply negb_true_iff in Hop.
    pose proof (staysIdle_perform p op Hidle Hop) as Hfirst.
    unfold run. cbn [fold_left]. fold (run cfg env ops (perform cfg env p op)).
    eapply staysIdle_trans; [exact Hfirst|].
    apply IH; [apply Hfirst | exact Hops].
Qed.

End Idle.

(** X17. An inactive producer collects nothing. As long as no operation
    activates it, whatever events, condition changes, pulled data, dumps
    and flushes arrive, the producer stays inactive, it never calls the
    puller, no atom enters the current bucket, which is the one it had or
    an empty one, and no skipped bucket is recorded: the skipped buckets
    are those it had, or none after a dump or a clearing erased them. *)
Theorem inactive_producer_collects_nothing (cfg : Config) (env : Collaborators)
    (ops : list Operation) (p : Producer) :
  mIsActive p = false ->
  forallb (fun op => negb (activates op)) ops = true ->
  let q := run cfg env ops p in
  mIsActive q = false
  /\ pullerCalls (world q) = pullerCalls (world p)
  /\ (mCurrentSlicedBucket q = mCurrentSlicedBucket p \/ mCurrentSlicedBucket q = ∅)
  /\ (mSkippedBuckets q = mSkippedBuckets p \/ mSkippedBuckets q = []).
Proof. intros Hidle Hops. exact (staysIdle_run cfg env ops p Hidle Hops). Qed.

Lemma inactive_producer_collects_nothing_witness :
  let p := set_mIsActive false Sample.fresh in
  let q :=
    run Sample.pullConfig Sample.collaborators
        [ OnMatchedLogEvent (Sample.event 3 1 (INT 5));
          OnConditionChanged true 5;
          OnDataPulled [ Sample.event 6 1 (INT 6) ] PULL_RESULT_SUCCESS 6 7;
          FlushPartial 8;
          PrepareFirstBucket ] p in
  pullerCalls (world q) = [] /\ mCurrentSlicedBucket q = ∅.
Proof.
  intros p q.
  destruct (inactive_producer_collects_nothing Sample.pullConfig Sample.collaborators
              [ OnMatchedLogEvent (Sample.event 3 1 (INT 5));
                OnConditionChanged true 5;
                OnDataPulled [ Sample.event 6 1 (INT 6) ] PULL_RESULT_SUCCESS 6 7;
                FlushPartial 8;
                PrepareFirstBucket ] p)
    as (_ & Hcalls & Hbucket & _).
  - reflexivity.
  - reflexivity.
  - fold q in Hcalls, Hbucket.
    split; [exact Hcalls|].
    destruct Hbucket as [Hsame|Hempty]; [exact Hsame | exact Hempty].
Defined.
